(** * Reconciliation engine of sql-golang-playground

    A shallow embedding of the external-record loader
    (internal/util/data_loader.go and reconciliation.go), of the type
    normalizer and of the greedy matcher (reconciliation.go and the
    reconciliation service), followed by the properties of the
    specification that concern them.

    Conventions.
    - Go [int64] identifiers are integers [Z]; no arithmetic is done on them.
    - Go [float64] amounts are Rocq's primitive binary64 floats; Go's [==]
      on them is [PrimFloat.eqb] (IEEE equality: NaN is not equal to
      itself, +0 equals -0).
    - Go strings are byte strings ([string] of [ascii]).
    - Go [map[K]bool] values are [gmap K bool]; reading a missing key
      gives [false], Go's zero value. The matcher is transcribed a second
      time on the maps of an arbitrary runtime, for the statement that
      compares two runs.
    - A Go slice is a [slice]: the nil slice or a list of elements. *)

From Stdlib Require Import ZArith List String Ascii Floats Bool Lia.
From stdpp Require Import base option list gmap strings.

Local Open Scope string_scope.
Local Open Scope list_scope.
Local Open Scope Z_scope.

(* ===================================================================== *)
(** ** Go library functions used by the program *)
(* ===================================================================== *)

(** Package [strings]. [ToUpper] and [TrimSpace] each begin with a path
    for ASCII text, the vocabulary of transaction types, and that path is
    what is modelled: on a string whose bytes are all below
    [utf8.RuneSelf] (0x80) the two definitions are the Go functions. On a
    string that holds a byte from 0x80 on Go decodes UTF-8, maps the
    letters of Unicode to upper case, replaces invalid bytes by U+FFFD
    and trims the white space of Unicode (U+0085, U+00A0, U+2003, ...);
    none of that is modelled, and there the definitions leave those bytes
    as they are. A statement that rests on what the two bodies do is
    therefore made of [isASCII] text only. *)
Module strings.

(** [c < utf8.RuneSelf], for every byte of [s]. *)
Definition isASCII_byte (c : ascii) : bool := (N_of_ascii c <? 128)%N.

Fixpoint isASCII (s : string) : bool :=
  match s with
  | EmptyString => true
  | String c rest => isASCII_byte c && isASCII rest
  end.

(** 'a' <= c && c <= 'z'  ==>  c -= 'a' - 'A' *)
Definition upper_byte (c : ascii) : ascii :=
  let n := N_of_ascii c in
  if ((97 <=? n) && (n <=? 122))%N then ascii_of_N (n - 32) else c.

Fixpoint ToUpper (s : string) : string :=
  match s with
  | EmptyString => EmptyString
  | String c rest => String (upper_byte c) (ToUpper rest)
  end.

(** '\t', '\n', '\v', '\f', '\r', ' ' *)
Definition isSpace (c : ascii) : bool :=
  let n := N_of_ascii c in
  ((9 <=? n) && (n <=? 13) || (n =? 32))%N.

Fixpoint TrimLeft (s : string) : string :=
  match s with
  | EmptyString => EmptyString
  | String c rest => if isSpace c then TrimLeft rest else s
  end.

Fixpoint TrimRight (s : string) : string :=
  match s with
  | EmptyString => EmptyString
  | String c rest =>
      match TrimRight rest with
      | EmptyString => if isSpace c then EmptyString else String c EmptyString
      | rest' => String c rest'
      end
  end.

Definition TrimSpace (s : string) : string := TrimRight (TrimLeft s).

End strings.

(** Package [database/sql]: the nullable column types. *)
Module sql.

Record NullInt64 := { Int64 : Z; Valid : bool }.

Record NullString := { String_ : string; StringValid : bool }.

End sql.

(** A Go slice value: [nil] or a backing sequence. [append] on the nil
    slice allocates, so its result is never nil. *)
Inductive slice (A : Type) : Type :=
| nil_slice : slice A
| make_slice (elems : list A) : slice A.
Arguments nil_slice {A}.
Arguments make_slice {A} elems.

Definition elems {A} (s : slice A) : list A :=
  match s with
  | nil_slice => []
  | make_slice l => l
  end.

Definition is_nil {A} (s : slice A) : bool :=
  match s with
  | nil_slice => true
  | make_slice _ => false
  end.

Definition len {A} (s : slice A) : Z := Z.of_nat (length (elems s)).

Definition append {A} (s : slice A) (x : A) : slice A :=
  make_slice (elems s ++ [x]).

(** Package [encoding/csv]. The file is taken as the sequence of lines the
    scanner finds in it, each already split into fields, or malformed
    (a bare quote, for instance). What the model keeps of the reader is
    its field-count check. The package documents it so: "If
    FieldsPerRecord is positive, Read requires each record to have the
    given number of fields. If FieldsPerRecord is 0, Read sets it to the
    number of fields in the first record, so that future records must
    have the same field count. If FieldsPerRecord is negative, no check
    is made." and: "If the record has an unexpected number of fields,
    Read returns the record along with the error ErrFieldCount."
    [NewReader] leaves FieldsPerRecord at 0, and neither loader
    changes it. *)
Module csv.

Inductive error : Type :=
| EOF            (* io.EOF *)
| ErrFieldCount  (* "wrong number of fields" *)
| ErrParse.      (* any other *ParseError *)

Inductive line : Type :=
| Fields (record : list string)
| Malformed.

Record Reader := { input : list line; FieldsPerRecord : Z }.

Definition NewReader (file : list line) : Reader :=
  {| input := file; FieldsPerRecord := 0 |}.

(** The end of [readRecord]: check or update the expected field count. *)
Definition readRecord (ln : line) (fieldsPerRecord : Z)
  : Z * list string * option error :=
  match ln with
  | Malformed => (fieldsPerRecord, [], Some ErrParse)
  | Fields dst =>
      if 0 <? fieldsPerRecord then
        if negb (Z.of_nat (length dst) =? fieldsPerRecord)
        then (fieldsPerRecord, dst, Some ErrFieldCount)
        else (fieldsPerRecord, dst, None)
      else if fieldsPerRecord =? 0 then
        (Z.of_nat (length dst), dst, None)
      else (fieldsPerRecord, dst, None)
  end.

Definition Read (r : Reader) : Reader * list string * option error :=
  match input r with
  | [] => (r, [], Some EOF)
  | ln :: rest =>
      let '(n, record, err) := readRecord ln (FieldsPerRecord r) in
      ({| input := rest; FieldsPerRecord := n |}, record, err)
  end.

End csv.

(* ===================================================================== *)
(** ** models/transaction.go *)
(* ===================================================================== *)

Module Transaction.
Record t := mk {
  TransactionID   : Z;
  FromAccountID   : sql.NullInt64;
  ToAccountID     : sql.NullInt64;
  TransactionType : string;
  Amount          : float;
  TransactionTs   : Z;
  Description     : sql.NullString;
  Notes           : sql.NullString
}.
End Transaction.

Module ExternalTransaction.
Record t := mk {
  ExternalID : string;
  Amount     : float;
  Type_      : string;
  Reference  : string
}.
End ExternalTransaction.

(* ===================================================================== *)
(** ** The external record loader *)
(* ===================================================================== *)

(** The three [fmt.Errorf] returns of the loader. *)
Inductive LoadError : Type :=
| FailedToOpenFile (filePath : string)
| FailedToReadHeader (cause : csv.error)
| ErrorReadingRecord (cause : csv.error).

(** The two [log.Printf("WARN: ...")] calls of the loader. *)
Inductive Warning : Type :=
| SkippingMalformedRecord (record : list string)
| SkippingInvalidAmount (field : string).

(** What a call leaves behind: the returned slice, the returned error and
    the warnings logged, oldest first. *)
Record Loaded := {
  transactions : slice ExternalTransaction.t;
  err : option LoadError;
  warnings : list Warning
}.

(** [record[i]], used only after [len(record) < 4] has been excluded. *)
Definition field (record : list string) (i : nat) : string := nth i record "".

Section Loader.

(** [strconv.ParseFloat(s, 64)]: the parsed number, or [None] when it
    returns an error. *)
Variable ParseFloat : string -> option float.

(** The [for { record, err := reader.Read() ... }] loop. The reader is
    its remaining lines and its FieldsPerRecord; each turn reads one
    line, so the loop ends with the input. *)
Fixpoint readRecords (input : list csv.line) (fieldsPerRecord : Z)
         (txs : slice ExternalTransaction.t) (warns : list Warning) : Loaded :=
  match input with
  | [] => (* io.EOF: break *)
      {| transactions := txs; err := None; warnings := warns |}
  | ln :: rest =>
      match csv.readRecord ln fieldsPerRecord with
      | (_, _, Some e) =>
          {| transactions := nil_slice; err := Some (ErrorReadingRecord e);
             warnings := warns |}
      | (n, record, None) =>
          if (length record <? 4)%nat then
            readRecords rest n txs (warns ++ [SkippingMalformedRecord record])
          else
            match ParseFloat (strings.TrimSpace (field record 1)) with
            | None =>
                readRecords rest n txs
                            (warns ++ [SkippingInvalidAmount (field record 1)])
            | Some amount =>
                readRecords rest n
                  (append txs
                     {| ExternalTransaction.ExternalID :=
                          strings.TrimSpace (field record 0);
                        ExternalTransaction.Amount := amount;
                        ExternalTransaction.Type_ :=
                          strings.TrimSpace (strings.ToUpper (field record 2));
                        ExternalTransaction.Reference :=
                          strings.TrimSpace (field record 3) |})
                  warns
            end
      end
  end.

(** The body shared by the two loaders once the file is open. *)
Definition loadFromReader (reader : csv.Reader) : Loaded :=
  match csv.Read reader with
  | (_, _, Some csv.EOF) =>
      {| transactions := make_slice []; err := None; warnings := [] |}
  | (_, _, Some e) =>
      {| transactions := nil_slice; err := Some (FailedToReadHeader e);
         warnings := [] |}
  | (reader', _, None) =>
      (* var transactions []models.ExternalTransaction *)
      readRecords (csv.input reader') (csv.FieldsPerRecord reader') nil_slice []
  end.

(** internal/util/data_loader.go. [fs] is the file system: the lines of
    each file that [os.Open] can open. *)
Definition LoadExternalTransactions (fs : gmap string (list csv.line))
           (filePath : string) : Loaded :=
  match fs !! filePath with
  | None =>
      {| transactions := nil_slice; err := Some (FailedToOpenFile filePath);
         warnings := [] |}
  | Some file => loadFromReader (csv.NewReader file)
  end.

(** reconciliation.go: the same text, under another name. *)
Definition loadExternalTransactions (fs : gmap string (list csv.line))
           (filePath : string) : Loaded :=
  match fs !! filePath with
  | None =>
      {| transactions := nil_slice; err := Some (FailedToOpenFile filePath);
         warnings := [] |}
  | Some file => loadFromReader (csv.NewReader file)
  end.

End Loader.

(* ===================================================================== *)
(** ** The type normalizer *)
(* ===================================================================== *)

(** reconciliation.go, [normalizeDBTransactionType]. In the TRANSFER case
    with neither account valid no branch returns, and control falls out
    of the switch to the fallback. *)
Definition normalizeDBTransactionType (dbType : string)
           (fromID toID : sql.NullInt64) : string :=
  let dbType := strings.ToUpper dbType in
  if String.eqb dbType "DEPOSIT" then "DEPOSIT"
  else if String.eqb dbType "WITHDRAWAL" then "WITHDRAWAL"
  else if String.eqb dbType "TRANSFER" then
    if sql.Valid fromID && negb (sql.Valid toID) then "TRANSFER_OUT"
    else if negb (sql.Valid fromID) && sql.Valid toID then "TRANSFER_IN"
    else if sql.Valid fromID && sql.Valid toID then "INTERNAL_TRANSFER"
    else dbType
  else dbType.

(** The vocabulary of the external system. *)
Definition externalVocabulary : list string :=
  ["DEPOSIT"; "WITHDRAWAL"; "TRANSFER_OUT"; "TRANSFER_IN"; "INTERNAL_TRANSFER"].

(* ===================================================================== *)
(** ** The matcher of reconciliation.go *)
(* ===================================================================== *)

(** [m[k]] on a [map[K]bool]: the zero value [false] for a missing key. *)
Definition index `{Countable K} (m : gmap K bool) (k : K) : bool :=
  default false (m !! k).

Definition Pair : Type := Transaction.t * ExternalTransaction.t.

(** The four locals of the matching loop. The Go code appends to
    [foundInBoth] and [mismatchedAmounts] the line it formats from the
    pair; the model keeps the pair and formats it when the report is
    printed, [fmt.Sprintf] being a function of the pair alone. *)
Record MatchState := {
  processedDBTx : gmap Z bool;
  processedCSVTx : gmap string bool;
  foundInBoth : list Pair;
  mismatchedAmounts : list Pair
}.

Definition initialState : MatchState :=
  {| processedDBTx := ∅; processedCSVTx := ∅;
     foundInBoth := []; mismatchedAmounts := [] |}.

(** [normalizeDBTransactionType(dbTx.TransactionType, dbTx.FromAccountID,
    dbTx.ToAccountID)] *)
Definition normalizedDBType (dbTx : Transaction.t) : string :=
  normalizeDBTransactionType (Transaction.TransactionType dbTx)
    (Transaction.FromAccountID dbTx) (Transaction.ToAccountID dbTx).

(** The first inner loop, up to its [break]: the external record on which
    criteria 1 (type and amount) holds, if the loop finds one. The maps do
    not change while it runs. *)
Fixpoint exactScan (dbTx : Transaction.t) (processed : gmap string bool)
         (csvTxs : list ExternalTransaction.t) : option ExternalTransaction.t :=
  match csvTxs with
  | [] => None
  | csvTx :: rest =>
      if index processed (ExternalTransaction.ExternalID csvTx)
      then exactScan dbTx processed rest
      else if String.eqb (normalizedDBType dbTx) (ExternalTransaction.Type_ csvTx)
              && PrimFloat.eqb (Transaction.Amount dbTx)
                               (ExternalTransaction.Amount csvTx)
      then Some csvTx
      else exactScan dbTx processed rest
  end.

(** The second inner loop, run when the first found nothing: the first
    unprocessed external record of the same type. *)
Fixpoint typeScan (dbTx : Transaction.t) (processed : gmap string bool)
         (csvTxs : list ExternalTransaction.t) : option ExternalTransaction.t :=
  match csvTxs with
  | [] => None
  | csvTx :: rest =>
      if index processed (ExternalTransaction.ExternalID csvTx)
      then typeScan dbTx processed rest
      else if String.eqb (normalizedDBType dbTx) (ExternalTransaction.Type_ csvTx)
      then Some csvTx
      else typeScan dbTx processed rest
  end.

Definition markMatch (st : MatchState) (dbTx : Transaction.t)
           (csvTx : ExternalTransaction.t) : MatchState :=
  {| processedDBTx :=
       <[Transaction.TransactionID dbTx := true]> (processedDBTx st);
     processedCSVTx :=
       <[ExternalTransaction.ExternalID csvTx := true]> (processedCSVTx st);
     foundInBoth := foundInBoth st ++ [(dbTx, csvTx)];
     mismatchedAmounts := mismatchedAmounts st |}.

Definition markMismatch (st : MatchState) (dbTx : Transaction.t)
           (csvTx : ExternalTransaction.t) : MatchState :=
  {| processedDBTx :=
       <[Transaction.TransactionID dbTx := true]> (processedDBTx st);
     processedCSVTx :=
       <[ExternalTransaction.ExternalID csvTx := true]> (processedCSVTx st);
     foundInBoth := foundInBoth st;
     mismatchedAmounts := mismatchedAmounts st ++ [(dbTx, csvTx)] |}.

(** One turn of [for _, dbTx := range dbTxs]. *)
Definition matchOne (csvTxs : list ExternalTransaction.t) (st : MatchState)
           (dbTx : Transaction.t) : MatchState :=
  if index (processedDBTx st) (Transaction.TransactionID dbTx) then st
  else
    match exactScan dbTx (processedCSVTx st) csvTxs with
    | Some csvTx => markMatch st dbTx csvTx
    | None =>
        (* !matchedThisDBTx *)
        match typeScan dbTx (processedCSVTx st) csvTxs with
        | Some csvTx => markMismatch st dbTx csvTx
        | None => st
        end
    end.

Definition matchLoop (csvTxs : list ExternalTransaction.t)
           (dbTxs : list Transaction.t) (st : MatchState) : MatchState :=
  fold_left (matchOne csvTxs) dbTxs st.

(** The classification a run arrives at: the two pair lists and the two
    lists collected after the loop. *)
Record Outcome := {
  matched : list Pair;
  mismatchedAmount : list Pair;
  onlyInDB : list Transaction.t;
  onlyInCSV : list ExternalTransaction.t
}.

Definition classify (dbTxs : list Transaction.t)
           (csvTxs : list ExternalTransaction.t) : Outcome :=
  let st := matchLoop csvTxs dbTxs initialState in
  {| matched := foundInBoth st;
     mismatchedAmount := mismatchedAmounts st;
     onlyInDB :=
       List.filter
         (fun dbTx => negb (index (processedDBTx st) (Transaction.TransactionID dbTx)))
         dbTxs;
     onlyInCSV :=
       List.filter
         (fun csvTx =>
            negb (index (processedCSVTx st) (ExternalTransaction.ExternalID csvTx)))
         csvTxs |}.

(** The identities held by the buckets of the ledger side and of the
    external side. *)
Definition ledgerIDs (o : Outcome) : list Z :=
  map (fun p => Transaction.TransactionID (fst p)) (matched o)
  ++ map (fun p => Transaction.TransactionID (fst p)) (mismatchedAmount o)
  ++ map Transaction.TransactionID (onlyInDB o).

Definition externalIDs (o : Outcome) : list string :=
  map (fun p => ExternalTransaction.ExternalID (snd p)) (matched o)
  ++ map (fun p => ExternalTransaction.ExternalID (snd p)) (mismatchedAmount o)
  ++ map ExternalTransaction.ExternalID (onlyInCSV o).

(** [len(items) > 0 ? each item : "  None"], under the section's heading. *)
Definition printSection (heading : string) (items : list string) : list string :=
  heading :: (if (0 <? length items)%nat then items else ["  None"]).

Definition newline : string := String (ascii_of_nat 10) EmptyString.

Section Report.

(** [fmt]'s verbs %d and %.2f. *)
Variable fmt_d : Z -> string.
Variable fmt_2f : float -> string.

Definition matchLine (p : Pair) : string :=
  let '(dbTx, csvTx) := p in
  "  MATCH: DB ID " +:+ fmt_d (Transaction.TransactionID dbTx)
  +:+ " (" +:+ fmt_2f (Transaction.Amount dbTx) +:+ " " +:+ normalizedDBType dbTx
  +:+ ") with CSV ID " +:+ ExternalTransaction.ExternalID csvTx
  +:+ " (" +:+ fmt_2f (ExternalTransaction.Amount csvTx)
  +:+ " " +:+ ExternalTransaction.Type_ csvTx
  +:+ ", Ref: " +:+ ExternalTransaction.Reference csvTx +:+ ")".

Definition mismatchLine (p : Pair) : string :=
  let '(dbTx, csvTx) := p in
  "  MISMATCH_AMOUNT: DB ID " +:+ fmt_d (Transaction.TransactionID dbTx)
  +:+ " (" +:+ fmt_2f (Transaction.Amount dbTx) +:+ " " +:+ normalizedDBType dbTx
  +:+ ") vs CSV ID " +:+ ExternalTransaction.ExternalID csvTx
  +:+ " (" +:+ fmt_2f (ExternalTransaction.Amount csvTx)
  +:+ " " +:+ ExternalTransaction.Type_ csvTx
  +:+ ", Ref: " +:+ ExternalTransaction.Reference csvTx +:+ ")".

Definition onlyInDBLine (dbTx : Transaction.t) : string :=
  "  DB ID: " +:+ fmt_d (Transaction.TransactionID dbTx)
  +:+ ", Type: " +:+ Transaction.TransactionType dbTx
  +:+ ", Amount: " +:+ fmt_2f (Transaction.Amount dbTx)
  +:+ ", Desc: " +:+ sql.String_ (Transaction.Description dbTx).

Definition onlyInCSVLine (csvTx : ExternalTransaction.t) : string :=
  "  CSV ID: " +:+ ExternalTransaction.ExternalID csvTx
  +:+ ", Type: " +:+ ExternalTransaction.Type_ csvTx
  +:+ ", Amount: " +:+ fmt_2f (ExternalTransaction.Amount csvTx)
  +:+ ", Ref: " +:+ ExternalTransaction.Reference csvTx.

(** The four sections, as the lines [fmt.Println] writes. *)
Definition reportSections (o : Outcome) : list (list string) :=
  [ printSection
      (newline +:+ "[Transactions Found in Both Systems (Exact Match on Type & Amount)]")
      (map matchLine (matched o));
    printSection
      (newline +:+ "[Potential Matches with Mismatched Amounts (Same Type)]")
      (map mismatchLine (mismatchedAmount o));
    printSection (newline +:+ "[Transactions Only in Database]")
      (map onlyInDBLine (onlyInDB o));
    printSection (newline +:+ "[Transactions Only in CSV File]")
      (map onlyInCSVLine (onlyInCSV o)) ].

(** [reconcileTransactions(dbTxs, csvTxs)]: what it writes to the
    standard output, a line for each [fmt.Println]. *)
Definition reconcileTransactions (dbTxs : list Transaction.t)
           (csvTxs : list ExternalTransaction.t) : list string :=
  [newline +:+ "--- Reconciliation Report ---"]
  ++ concat (reportSections (classify dbTxs csvTxs))
  ++ [newline +:+ "--- End of Reconciliation Report ---"].

End Report.

(* ===================================================================== *)
(** ** The reconciliation service (package service) *)
(* ===================================================================== *)

(** The second copy of the matcher: the method [ReconcileTransactions] of
    [reconciliationServiceImpl], transcribed on its own from its text. *)
Module service.

(** The two collaborators, each as the method the service calls. *)
Record TransactionRepository := {
  GetAllTransactionsForReconciliation : slice Transaction.t * option string
}.

Record DataLoader := {
  LoadExternalTransactions : string -> Loaded
}.

Record reconciliationServiceImpl := {
  transactionRepo : TransactionRepository;
  dataLoader : DataLoader
}.

(** The two [log.Fatalf] exits. *)
Inductive Fatal : Type :=
| FailedToLoadExternalTransactions (e : LoadError)
| FailedToFetchDatabaseTransactions (e : string).

(** A call: the lines written to the standard output and, when the
    process was ended by [log.Fatalf], why. *)
Record Run := { stdout : list string; fatal : option Fatal }.

Definition normalizeDBTransactionType (dbType : string)
           (fromID toID : sql.NullInt64) : string :=
  let dbType := strings.ToUpper dbType in
  if String.eqb dbType "DEPOSIT" then "DEPOSIT"
  else if String.eqb dbType "WITHDRAWAL" then "WITHDRAWAL"
  else if String.eqb dbType "TRANSFER" then
    if sql.Valid fromID && negb (sql.Valid toID) then "TRANSFER_OUT"
    else if negb (sql.Valid fromID) && sql.Valid toID then "TRANSFER_IN"
    else if sql.Valid fromID && sql.Valid toID then "INTERNAL_TRANSFER"
    else dbType
  else dbType.

Definition normalizedDBType (dbTx : Transaction.t) : string :=
  normalizeDBTransactionType (Transaction.TransactionType dbTx)
    (Transaction.FromAccountID dbTx) (Transaction.ToAccountID dbTx).

Fixpoint exactScan (dbTx : Transaction.t) (processed : gmap string bool)
         (csvTransactions : list ExternalTransaction.t)
  : option ExternalTransaction.t :=
  match csvTransactions with
  | [] => None
  | csvTx :: rest =>
      if index processed (ExternalTransaction.ExternalID csvTx)
      then exactScan dbTx processed rest
      else if String.eqb (normalizedDBType dbTx) (ExternalTransaction.Type_ csvTx)
              && PrimFloat.eqb (Transaction.Amount dbTx)
                               (ExternalTransaction.Amount csvTx)
      then Some csvTx
      else exactScan dbTx processed rest
  end.

Fixpoint typeScan (dbTx : Transaction.t) (processed : gmap string bool)
         (csvTransactions : list ExternalTransaction.t)
  : option ExternalTransaction.t :=
  match csvTransactions with
  | [] => None
  | csvTx :: rest =>
      if index processed (ExternalTransaction.ExternalID csvTx)
      then typeScan dbTx processed rest
      else if String.eqb (normalizedDBType dbTx) (ExternalTransaction.Type_ csvTx)
      then Some csvTx
      else typeScan dbTx processed rest
  end.

Definition matchOne (csvTransactions : list ExternalTransaction.t)
           (st : MatchState) (dbTx : Transaction.t) : MatchState :=
  if index (processedDBTx st) (Transaction.TransactionID dbTx) then st
  else
    match exactScan dbTx (processedCSVTx st) csvTransactions with
    | Some csvTx =>
        {| processedDBTx :=
             <[Transaction.TransactionID dbTx := true]> (processedDBTx st);
           processedCSVTx :=
             <[ExternalTransaction.ExternalID csvTx := true]> (processedCSVTx st);
           foundInBoth := foundInBoth st ++ [(dbTx, csvTx)];
           mismatchedAmounts := mismatchedAmounts st |}
    | None =>
        match typeScan dbTx (processedCSVTx st) csvTransactions with
        | Some csvTx =>
            {| processedDBTx :=
                 <[Transaction.TransactionID dbTx := true]> (processedDBTx st);
               processedCSVTx :=
                 <[ExternalTransaction.ExternalID csvTx := true]> (processedCSVTx st);
               foundInBoth := foundInBoth st;
               mismatchedAmounts := mismatchedAmounts st ++ [(dbTx, csvTx)] |}
        | None => st
        end
    end.

Definition classify (databaseTransactions : list Transaction.t)
           (csvTransactions : list ExternalTransaction.t) : Outcome :=
  let st := fold_left (matchOne csvTransactions) databaseTransactions
              {| processedDBTx := ∅; processedCSVTx := ∅;
                 foundInBoth := []; mismatchedAmounts := [] |} in
  {| matched := foundInBoth st;
     mismatchedAmount := mismatchedAmounts st;
     onlyInDB :=
       List.filter
         (fun dbTx =>
            negb (index (processedDBTx st) (Transaction.TransactionID dbTx)))
         databaseTransactions;
     onlyInCSV :=
       List.filter
         (fun csvTx =>
            negb (index (processedCSVTx st) (ExternalTransaction.ExternalID csvTx)))
         csvTransactions |}.

Section Report.

Variable fmt_d : Z -> string.
Variable fmt_2f : float -> string.

Definition reportSections (o : Outcome) : list (list string) :=
  [ (newline +:+ "[Transactions Found in Both Systems (Exact Match on Type & Amount)]")
      :: (if (0 <? length (matched o))%nat
          then map (fun p : Pair =>
                      "  MATCH: DB ID " +:+ fmt_d (Transaction.TransactionID (fst p))
                      +:+ " (" +:+ fmt_2f (Transaction.Amount (fst p))
                      +:+ " " +:+ normalizedDBType (fst p)
                      +:+ ") with CSV ID " +:+ ExternalTransaction.ExternalID (snd p)
                      +:+ " (" +:+ fmt_2f (ExternalTransaction.Amount (snd p))
                      +:+ " " +:+ ExternalTransaction.Type_ (snd p)
                      +:+ ", Ref: " +:+ ExternalTransaction.Reference (snd p) +:+ ")")
                   (matched o)
          else ["  None"]);
    (newline +:+ "[Potential Matches with Mismatched Amounts (Same Type)]")
      :: (if (0 <? length (mismatchedAmount o))%nat
          then map (fun p : Pair =>
                      "  MISMATCH_AMOUNT: DB ID "
                      +:+ fmt_d (Transaction.TransactionID (fst p))
                      +:+ " (" +:+ fmt_2f (Transaction.Amount (fst p))
                      +:+ " " +:+ normalizedDBType (fst p)
                      +:+ ") vs CSV ID " +:+ ExternalTransaction.ExternalID (snd p)
                      +:+ " (" +:+ fmt_2f (ExternalTransaction.Amount (snd p))
                      +:+ " " +:+ ExternalTransaction.Type_ (snd p)
                      +:+ ", Ref: " +:+ ExternalTransaction.Reference (snd p) +:+ ")")
                   (mismatchedAmount o)
          else ["  None"]);
    (newline +:+ "[Transactions Only in Database]")
      :: (if (0 <? length (onlyInDB o))%nat
          then map (fun dbTx =>
                      "  DB ID: " +:+ fmt_d (Transaction.TransactionID dbTx)
                      +:+ ", Type: " +:+ Transaction.TransactionType dbTx
                      +:+ ", Amount: " +:+ fmt_2f (Transaction.Amount dbTx)
                      +:+ ", Desc: " +:+ sql.String_ (Transaction.Description dbTx))
                   (onlyInDB o)
          else ["  None"]);
    (newline +:+ "[Transactions Only in CSV File]")
      :: (if (0 <? length (onlyInCSV o))%nat
          then map (fun csvTx =>
                      "  CSV ID: " +:+ ExternalTransaction.ExternalID csvTx
                      +:+ ", Type: " +:+ ExternalTransaction.Type_ csvTx
                      +:+ ", Amount: " +:+ fmt_2f (ExternalTransaction.Amount csvTx)
                      +:+ ", Ref: " +:+ ExternalTransaction.Reference csvTx)
                   (onlyInCSV o)
          else ["  None"]) ].

(** [s.ReconcileTransactions(csvFilePath)]. The two [log.Printf] counts
    go to the standard error and are not part of the report. *)
Definition ReconcileTransactions (s : reconciliationServiceImpl)
           (csvFilePath : string) : Run :=
  let heading := [newline +:+ "--- Reconciliation Report ---"] in
  let loaded := LoadExternalTransactions (dataLoader s) csvFilePath in
  match err loaded with
  | Some e =>
      {| stdout := heading;
         fatal := Some (FailedToLoadExternalTransactions e) |}
  | None =>
      let csvTransactions := elems (transactions loaded) in
      match GetAllTransactionsForReconciliation (transactionRepo s) with
      | (_, Some e) =>
          {| stdout := heading;
             fatal := Some (FailedToFetchDatabaseTransactions e) |}
      | (databaseTransactions, None) =>
          {| stdout :=
               heading
               ++ concat (reportSections
                            (classify (elems databaseTransactions) csvTransactions))
               ++ [newline +:+ "--- End of Reconciliation Report ---"];
             fatal := None |}
      end
  end.

End Report.

End service.

(* ===================================================================== *)
(** ** The matcher as the specification words it *)
(* ===================================================================== *)

(** The reference algorithm of the specification, section 4.3, written
    from its words and not from the code: a complete exact-match pass over
    the whole ledger sequence, then a type-only pass over what remains,
    then the post-pass classification. Consumed records are tracked in two
    sets of identities. *)
Module Reference.

Record State := {
  consumedLedger : gset Z;
  consumedExternal : gset string;
  exactPairs : list Pair;
  typeOnlyPairs : list Pair
}.

Definition start : State :=
  {| consumedLedger := ∅; consumedExternal := ∅;
     exactPairs := []; typeOnlyPairs := [] |}.

Definition sameType (tx : Transaction.t) (rec : ExternalTransaction.t) : bool :=
  String.eqb (normalizedDBType tx) (ExternalTransaction.Type_ rec).

Definition sameAmount (tx : Transaction.t) (rec : ExternalTransaction.t) : bool :=
  PrimFloat.eqb (Transaction.Amount tx) (ExternalTransaction.Amount rec).

(** "scan not-yet-matched external records in their input order; the
    first external record [that is accepted] is selected" *)
Definition firstFit (accept : ExternalTransaction.t -> bool)
           (consumed : gset string) (externalRecs : list ExternalTransaction.t)
  : option ExternalTransaction.t :=
  List.find
    (fun rec =>
       bool_decide (ExternalTransaction.ExternalID rec ∉ consumed) && accept rec)
    externalRecs.

(** Pass 1 on one ledger transaction. *)
Definition exactStep (externalRecs : list ExternalTransaction.t)
           (st : State) (tx : Transaction.t) : State :=
  if bool_decide (Transaction.TransactionID tx ∈ consumedLedger st) then st
  else
    match firstFit (fun rec => sameType tx rec && sameAmount tx rec)
                   (consumedExternal st) externalRecs with
    | Some rec =>
        {| consumedLedger := {[Transaction.TransactionID tx]} ∪ consumedLedger st;
           consumedExternal :=
             {[ExternalTransaction.ExternalID rec]} ∪ consumedExternal st;
           exactPairs := exactPairs st ++ [(tx, rec)];
           typeOnlyPairs := typeOnlyPairs st |}
    | None => st
    end.

(** Pass 2 on one ledger transaction. *)
Definition typeOnlyStep (externalRecs : list ExternalTransaction.t)
           (st : State) (tx : Transaction.t) : State :=
  if bool_decide (Transaction.TransactionID tx ∈ consumedLedger st) then st
  else
    match firstFit (sameType tx) (consumedExternal st) externalRecs with
    | Some rec =>
        {| consumedLedger := {[Transaction.TransactionID tx]} ∪ consumedLedger st;
           consumedExternal :=
             {[ExternalTransaction.ExternalID rec]} ∪ consumedExternal st;
           exactPairs := exactPairs st;
           typeOnlyPairs := typeOnlyPairs st ++ [(tx, rec)] |}
    | None => st
    end.

Definition pass1 (externalRecs : list ExternalTransaction.t)
           (ledgerTxs : list Transaction.t) (st : State) : State :=
  fold_left (exactStep externalRecs) ledgerTxs st.

Definition pass2 (externalRecs : list ExternalTransaction.t)
           (ledgerTxs : list Transaction.t) (st : State) : State :=
  fold_left (typeOnlyStep externalRecs) ledgerTxs st.

Definition outcome (ledgerTxs : list Transaction.t)
           (externalRecs : list ExternalTransaction.t) (st : State) : Outcome :=
  {| matched := exactPairs st;
     mismatchedAmount := typeOnlyPairs st;
     onlyInDB :=
       List.filter
         (fun tx => bool_decide (Transaction.TransactionID tx ∉ consumedLedger st))
         ledgerTxs;
     onlyInCSV :=
       List.filter
         (fun rec =>
            bool_decide (ExternalTransaction.ExternalID rec ∉ consumedExternal st))
         externalRecs |}.

Definition reconcile (ledgerTxs : list Transaction.t)
           (externalRecs : list ExternalTransaction.t) : Outcome :=
  outcome ledgerTxs externalRecs
    (pass2 externalRecs ledgerTxs (pass1 externalRecs ledgerTxs start)).

End Reference.

(* ===================================================================== *)
(** ** The matcher on the Go runtime *)
(* ===================================================================== *)

(** What a run takes from the Go runtime and not from its arguments. Two
    runs of one program on the same arguments can differ in the maps the
    runtime makes (their layout is seeded afresh, and with it the order in
    which [range] visits the entries), in what the random source delivers
    and in the time of day. *)
Module runtime.

(** An implementation of [map[K]bool]: [make(map[K]bool)], [m[k]],
    [m[k] = v] and [for k, v := range m]. [Range] gives the entries in the
    order in which the loop visits them. The language leaves that order
    open and so does the record: all it asks of [Range] is that an entry
    read as [true] is visited. *)
Record Map (K : Type) := {
  carrier : Type;
  Make : carrier;
  Index : carrier -> K -> bool;
  Assign : carrier -> K -> bool -> carrier;
  Range : carrier -> list (K * bool);
  Index_Make : forall k, Index Make k = false;
  Index_Assign_eq : forall m k v, Index (Assign m k v) k = v;
  Index_Assign_ne : forall m k k' v, k <> k' -> Index (Assign m k v) k' = Index m k';
  Range_Index : forall m k, Index m k = true -> In (k, true) (Range m)
}.
Arguments carrier {K} _.
Arguments Make {K} _.
Arguments Index {K} _ _ _.
Arguments Assign {K} _ _ _ _.
Arguments Range {K} _ _.

(** The runtime of one run: its maps keyed by [int64] and by [string],
    the values [math/rand] delivers, draw after draw, and the readings of
    [time.Now], in nanoseconds. *)
Record t := {
  int64Maps : Map Z;
  stringMaps : Map string;
  random : nat -> Z;
  now : nat -> Z
}.

End runtime.

(** The loops of [reconcileTransactions] once more, this time on the maps
    of a given runtime [rt] instead of on [gmap]. The function makes two
    maps, reads them by key and assigns to them by key; it has no [range]
    over a map, draws no random number and does not read the clock
    (reconciliation.go imports neither math/rand nor time), so of [rt]
    the transcription uses [Make], [Index] and [Assign] and nothing
    else. *)
Module OnRuntime.

Section Matcher.

Variable rt : runtime.t.

Record MatchState := {
  processedDBTx : runtime.carrier (runtime.int64Maps rt);
  processedCSVTx : runtime.carrier (runtime.stringMaps rt);
  foundInBoth : list Pair;
  mismatchedAmounts : list Pair
}.

(** [make(map[int64]bool)], [make(map[string]bool)] and the two nil
    slices. *)
Definition initialState : MatchState :=
  {| processedDBTx := runtime.Make (runtime.int64Maps rt);
     processedCSVTx := runtime.Make (runtime.stringMaps rt);
     foundInBoth := []; mismatchedAmounts := [] |}.

Fixpoint exactScan (dbTx : Transaction.t)
         (processed : runtime.carrier (runtime.stringMaps rt))
         (csvTxs : list ExternalTransaction.t) : option ExternalTransaction.t :=
  match csvTxs with
  | [] => None
  | csvTx :: rest =>
      if runtime.Index (runtime.stringMaps rt) processed
           (ExternalTransaction.ExternalID csvTx)
      then exactScan dbTx processed rest
      else if String.eqb (normalizedDBType dbTx) (ExternalTransaction.Type_ csvTx)
              && PrimFloat.eqb (Transaction.Amount dbTx)
                               (ExternalTransaction.Amount csvTx)
      then Some csvTx
      else exactScan dbTx processed rest
  end.

Fixpoint typeScan (dbTx : Transaction.t)
         (processed : runtime.carrier (runtime.stringMaps rt))
         (csvTxs : list ExternalTransaction.t) : option ExternalTransaction.t :=
  match csvTxs with
  | [] => None
  | csvTx :: rest =>
      if runtime.Index (runtime.stringMaps rt) processed
           (ExternalTransaction.ExternalID csvTx)
      then typeScan dbTx processed rest
      else if String.eqb (normalizedDBType dbTx) (ExternalTransaction.Type_ csvTx)
      then Some csvTx
      else typeScan dbTx processed rest
  end.

Definition markMatch (st : MatchState) (dbTx : Transaction.t)
           (csvTx : ExternalTransaction.t) : MatchState :=
  {| processedDBTx :=
       runtime.Assign (runtime.int64Maps rt) (processedDBTx st)
         (Transaction.TransactionID dbTx) true;
     processedCSVTx :=
       runtime.Assign (runtime.stringMaps rt) (processedCSVTx st)
         (ExternalTransaction.ExternalID csvTx) true;
     foundInBoth := foundInBoth st ++ [(dbTx, csvTx)];
     mismatchedAmounts := mismatchedAmounts st |}.

Definition markMismatch (st : MatchState) (dbTx : Transaction.t)
           (csvTx : ExternalTransaction.t) : MatchState :=
  {| processedDBTx :=
       runtime.Assign (runtime.int64Maps rt) (processedDBTx st)
         (Transaction.TransactionID dbTx) true;
     processedCSVTx :=
       runtime.Assign (runtime.stringMaps rt) (processedCSVTx st)
         (ExternalTransaction.ExternalID csvTx) true;
     foundInBoth := foundInBoth st;
     mismatchedAmounts := mismatchedAmounts st ++ [(dbTx, csvTx)] |}.

Definition matchOne (csvTxs : list ExternalTransaction.t) (st : MatchState)
           (dbTx : Transaction.t) : MatchState :=
  if runtime.Index (runtime.int64Maps rt) (processedDBTx st)
       (Transaction.TransactionID dbTx)
  then st
  else
    match exactScan dbTx (processedCSVTx st) csvTxs with
    | Some csvTx => markMatch st dbTx csvTx
    | None =>
        match typeScan dbTx (processedCSVTx st) csvTxs with
        | Some csvTx => markMismatch st dbTx csvTx
        | None => st
        end
    end.

Definition matchLoop (csvTxs : list ExternalTransaction.t)
           (dbTxs : list Transaction.t) (st : MatchState) : MatchState :=
  fold_left (matchOne csvTxs) dbTxs st.

Definition classify (dbTxs : list Transaction.t)
           (csvTxs : list ExternalTransaction.t) : Outcome :=
  let st := matchLoop csvTxs dbTxs initialState in
  {| matched := foundInBoth st;
     mismatchedAmount := mismatchedAmounts st;
     onlyInDB :=
       List.filter
         (fun dbTx =>
            negb (runtime.Index (runtime.int64Maps rt) (processedDBTx st)
                    (Transaction.TransactionID dbTx)))
         dbTxs;
     onlyInCSV :=
       List.filter
         (fun csvTx =>
            negb (runtime.Index (runtime.stringMaps rt) (processedCSVTx st)
                    (ExternalTransaction.ExternalID csvTx)))
         csvTxs |}.

End Matcher.

End OnRuntime.

(* ===================================================================== *)
(** ** The callers: wiring and the first main program *)
(* ===================================================================== *)

(** internal/util/data_loader.go, [NewCSVDataLoader]: the loader behind the
    [DataLoader] interface. The file system it reads is [fs]. *)
Definition NewCSVDataLoader (ParseFloat : string -> option float)
           (fs : gmap string (list csv.line)) : service.DataLoader :=
  {| service.LoadExternalTransactions := LoadExternalTransactions ParseFloat fs |}.

(** [NewReconciliationService] of the service package. *)
Definition NewReconciliationService (transactionRepo : service.TransactionRepository)
           (dataLoader : service.DataLoader) : service.reconciliationServiceImpl :=
  {| service.transactionRepo := transactionRepo; service.dataLoader := dataLoader |}.




(** What the loader makes of one row that the reader let through: the
    record it appends, or nothing when it skips the row. *)
Definition parseRow (ParseFloat : string -> option float) (record : list string)
  : option ExternalTransaction.t :=
  if (length record <? 4)%nat then None
  else
    match ParseFloat (strings.TrimSpace (field record 1)) with
    | None => None
    | Some amount =>
        Some {| ExternalTransaction.ExternalID := strings.TrimSpace (field record 0);
                ExternalTransaction.Amount := amount;
                ExternalTransaction.Type_ :=
                  strings.TrimSpace (strings.ToUpper (field record 2));
                ExternalTransaction.Reference := strings.TrimSpace (field record 3) |}
    end.

(* ===================================================================== *)
(** ** Fund transfer: errors and the database *)
(* ===================================================================== *)

(** Go error values. The leaves are the five sentinel errors of the
    program (errors.go, and again in the var block of the transaction
    service), [sql.ErrNoRows], and any other error the database hands
    back; the two others are the values [fmt.Errorf] makes, with the
    format and the operands other than errors: a [wrapError] when the
    format has the verb [%w], with the error it wraps, and an
    [errorString] when it has not. *)
Module errors.

Inductive operand : Type :=
| Int (n : Z)
| Float (x : float).

Inductive error : Type :=
| ErrInsufficientFunds
| ErrAccountNotFound
| ErrAccountInactive
| ErrSameAccountTransfer
| ErrInvalidTransferAmount
| ErrNoRows
| Driver (code : Z)
| errorString (format : string) (operands : list operand)
| wrapError (format : string) (operands : list operand) (err : error).

(** [a == b] on two errors of which [b] is a leaf. A value made by
    [fmt.Errorf] is a fresh pointer and equals no leaf. *)
Definition same (a b : error) : bool :=
  match a, b with
  | ErrInsufficientFunds, ErrInsufficientFunds => true
  | ErrAccountNotFound, ErrAccountNotFound => true
  | ErrAccountInactive, ErrAccountInactive => true
  | ErrSameAccountTransfer, ErrSameAccountTransfer => true
  | ErrInvalidTransferAmount, ErrInvalidTransferAmount => true
  | ErrNoRows, ErrNoRows => true
  | Driver c, Driver c' => c =? c'
  | _, _ => false
  end.

(** [errors.Is(err, target)] for a leaf [target]: [err] itself, or what it
    wraps, down the chain. *)
Fixpoint Is (err target : error) : bool :=
  match err with
  | wrapError _ _ inner => Is inner target
  | errorString _ _ => false
  | _ => same err target
  end.

End errors.

(** An error of the database: [sql.ErrNoRows] or a failure of the driver. *)
Inductive dbError : Type :=
| NoRows
| Failure (code : Z).

Definition fromDB (e : dbError) : errors.error :=
  match e with
  | NoRows => errors.ErrNoRows
  | Failure code => errors.Driver code
  end.

(** The arguments bound to the placeholders of a statement. *)
Inductive Arg : Type :=
| ArgInt (n : Z)
| ArgFloat (x : float)
| ArgString (s : string)
| ArgNullInt (n : sql.NullInt64)
| ArgNullString (s : sql.NullString).

(** The calls a transfer makes on the database handle and on the
    transaction it begins. *)
Inductive Call : Type :=
| Begin
| QueryRow (query : string) (args : list Arg)
| Exec (query : string) (args : list Arg)
| LastInsertId
| Commit
| Rollback.

(** What one run of [TransferFunds] did: its calls, in order, and the
    error it returned ([None] for nil). *)
Record Transfer := { calls : list Call; result : option errors.error }.

(** CRUD.go and its helper file. The database is what it answers: each
    call site of [TransferFunds] is reached at most once in a run, and the
    record holds the answer the database gives there. *)
Module crud.

Record Answers := {
  begin : option dbError;
  senderRow : dbError + (float * bool);
  receiverRow : dbError + bool;
  decrement : option dbError;
  increment : option dbError;
  insert : option dbError;
  lastInsertId : dbError + Z;
  commit : option dbError
}.

Definition selectSender : string :=
  "SELECT balance, is_deleted FROM accounts WHERE account_id = ?".

Definition selectReceiver : string :=
  "SELECT is_deleted FROM accounts WHERE account_id = ?".

Definition updateDecrement : string :=
  "UPDATE accounts SET balance = balance - ? WHERE account_id = ?".

Definition updateIncrement : string :=
  "UPDATE accounts SET balance = balance + ? WHERE account_id = ?".

Definition insertWithNotes : string :=
  "INSERT INTO transactions (from_account_id, to_account_id, transaction_type, amount, description, notes, transaction_ts) VALUES (?, ?, ?, ?, ?, ?, NOW())".

(** [CreateTransactionWithNotes]: the calls it makes and what it returns. *)
Definition CreateTransactionWithNotes (db : Answers) (fromID toID : sql.NullInt64)
           (txType : string) (amount : float) (description notes : sql.NullString)
  : list Call * (Z * option errors.error) :=
  let exec :=
    Exec insertWithNotes
         [ArgNullInt fromID; ArgNullInt toID; ArgString txType; ArgFloat amount;
          ArgNullString description; ArgNullString notes] in
  match insert db with
  | Some e =>
      ([exec],
       (0, Some (errors.wrapError "CreateTransactionWithNotes: %w" [] (fromDB e))))
  | None =>
      match lastInsertId db with
      | inl e =>
          ([exec; LastInsertId],
           (0, Some (errors.wrapError "CreateTransactionWithNotes: LastInsertId failed: %w"
                                   [] (fromDB e))))
      | inr id => ([exec; LastInsertId], (id, None))
      end
  end.

(** A return after [defer tx.Rollback()]: the deferred call runs last. *)
Definition deferred (made : list Call) (returned : option errors.error) : Transfer :=
  {| calls := made ++ [Rollback]; result := returned |}.

Definition TransferFunds (db : Answers) (fromAccountID toAccountID : Z)
           (amount : float) (description notes : string) : Transfer :=
  if fromAccountID =? toAccountID then
    {| calls := []; result := Some errors.ErrSameAccountTransfer |}
  else if PrimFloat.leb amount 0 then
    {| calls := []; result := Some errors.ErrInvalidTransferAmount |}
  else
    match begin db with
    | Some e =>
        {| calls := [Begin];
           result := Some (errors.wrapError "TransferFunds: failed to begin transaction: %w"
                                         [] (fromDB e)) |}
    | None =>
        let q1 := QueryRow selectSender [ArgInt fromAccountID] in
        match senderRow db with
        | inl NoRows =>
            deferred [Begin; q1]
              (Some (errors.wrapError "TransferFunds: sender %w (ID: %d)"
                                   [errors.Int fromAccountID]
                                   errors.ErrAccountNotFound))
        | inl e =>
            deferred [Begin; q1]
              (Some (errors.wrapError
                       "TransferFunds: failed to query sender account (ID: %d): %w"
                       [errors.Int fromAccountID] (fromDB e)))
        | inr (fromBalance, fromIsDeleted) =>
            if fromIsDeleted then
              deferred [Begin; q1]
                (Some (errors.wrapError "TransferFunds: sender %w (ID: %d)"
                                     [errors.Int fromAccountID]
                                     errors.ErrAccountInactive))
            else if PrimFloat.ltb fromBalance amount then
              deferred [Begin; q1]
                (Some (errors.wrapError
                         "TransferFunds: sender %w (ID: %d, Balance: %.2f, Amount: %.2f)"
                         [errors.Int fromAccountID; errors.Float fromBalance;
                          errors.Float amount]
                         errors.ErrInsufficientFunds))
            else
              let q2 := QueryRow selectReceiver [ArgInt toAccountID] in
              match receiverRow db with
              | inl NoRows =>
                  deferred [Begin; q1; q2]
                    (Some (errors.wrapError "TransferFunds: receiver %w (ID: %d)"
                                         [errors.Int toAccountID]
                                         errors.ErrAccountNotFound))
              | inl e =>
                  deferred [Begin; q1; q2]
                    (Some (errors.wrapError
                             "TransferFunds: failed to query receiver account (ID: %d): %w"
                             [errors.Int toAccountID] (fromDB e)))
              | inr toIsDeleted =>
                  if toIsDeleted then
                    deferred [Begin; q1; q2]
                      (Some (errors.wrapError "TransferFunds: receiver %w (ID: %d)"
                                           [errors.Int toAccountID]
                                           errors.ErrAccountInactive))
                  else
                    let dec := Exec updateDecrement [ArgFloat amount; ArgInt fromAccountID] in
                    match decrement db with
                    | Some e =>
                        deferred [Begin; q1; q2; dec]
                          (Some (errors.wrapError
                                   "TransferFunds: failed to decrement sender's balance (ID: %d): %w"
                                   [errors.Int fromAccountID] (fromDB e)))
                    | None =>
                        let inc :=
                          Exec updateIncrement [ArgFloat amount; ArgInt toAccountID] in
                        match increment db with
                        | Some e =>
                            deferred [Begin; q1; q2; dec; inc]
                              (Some (errors.wrapError
                                       "TransferFunds: failed to increment receiver's balance (ID: %d): %w"
                                       [errors.Int toAccountID] (fromDB e)))
                        | None =>
                            let sqlFromID :=
                              {| sql.Int64 := fromAccountID; sql.Valid := true |} in
                            let sqlToID :=
                              {| sql.Int64 := toAccountID; sql.Valid := true |} in
                            let sqlDescription :=
                              {| sql.String_ := description;
                                 sql.StringValid := negb (String.eqb description "") |} in
                            let sqlNotes :=
                              {| sql.String_ := notes;
                                 sql.StringValid := negb (String.eqb notes "") |} in
                            match CreateTransactionWithNotes db sqlFromID sqlToID
                                    "TRANSFER" amount sqlDescription sqlNotes with
                            | (logging, (_, Some e)) =>
                                deferred ([Begin; q1; q2; dec; inc] ++ logging)
                                  (Some (errors.wrapError
                                           "TransferFunds: failed to log transaction: %w"
                                           [] e))
                            | (logging, (_, None)) =>
                                match commit db with
                                | Some e =>
                                    deferred ([Begin; q1; q2; dec; inc] ++ logging ++ [Commit])
                                      (Some (errors.wrapError
                                               "TransferFunds: failed to commit transaction: %w"
                                               [] (fromDB e)))
                                | None =>
                                    deferred ([Begin; q1; q2; dec; inc] ++ logging ++ [Commit])
                                             None
                                end
                            end
                        end
                    end
              end
        end
    end.

End crud.

(** models: the account row. *)
Module Account.
Record t := mk {
  AccountID     : Z;
  AccountHolder : string;
  Balance       : float;
  LastUpdated   : Z;
  IsDeleted     : bool
}.
End Account.

(** The account repository for MySQL (package repository). *)
Module mysqlAccountRepository.

(** [var acc models.Account] *)
Definition zeroAccount : Account.t :=
  {| Account.AccountID := 0; Account.AccountHolder := ""; Account.Balance := 0%float;
     Account.LastUpdated := 0; Account.IsDeleted := false |}.

(** [GetAccountByID]: [scan] is what [row.Scan] gives for the query, which
    selects the row of that identifier with [is_deleted = FALSE]. The
    error for a missing row is made without [%w]. *)
Definition GetAccountByID (scan : dbError + Account.t) (accountID : Z)
  : Account.t * option errors.error :=
  match scan with
  | inl NoRows =>
      (zeroAccount,
       Some (errors.errorString "GetAccountByID: no active account found with ID %d"
                                [errors.Int accountID]))
  | inl e => (zeroAccount, Some (errors.wrapError "GetAccountByID: %w" [] (fromDB e)))
  | inr acc => (acc, None)
  end.

End mysqlAccountRepository.

(** The transaction service (package service, [TransferFunds]). The two
    repositories are what their methods return at each call site of the
    method, each reached at most once in a run. *)
Module transactionService.

Inductive RepoCall : Type :=
| GetAccountByID (accountID : Z)
| AdjustAccountBalance (accountID : Z) (amountChange : float)
| CreateTransactionWithNotes (fromID toID : sql.NullInt64) (txType : string)
    (amount : float) (description notes : sql.NullString).

Record Repositories := {
  getSender : Account.t * option errors.error;
  getReceiver : Account.t * option errors.error;
  adjustSender : Z * option errors.error;
  adjustReceiver : Z * option errors.error;
  createTransaction : Z * option errors.error
}.

Record Run := { repoCalls : list RepoCall; returned : option errors.error }.

Definition TransferFunds (s : Repositories) (fromAccountID toAccountID : Z)
           (amount : float) (description notes : string) : Run :=
  if fromAccountID =? toAccountID then
    {| repoCalls := []; returned := Some errors.ErrSameAccountTransfer |}
  else if PrimFloat.leb amount 0 then
    {| repoCalls := []; returned := Some errors.ErrInvalidTransferAmount |}
  else
    let g1 := GetAccountByID fromAccountID in
    match getSender s with
    | (_, Some e) =>
        {| repoCalls := [g1];
           returned :=
             Some (if errors.Is e errors.ErrNoRows
                   then errors.wrapError "TransferFunds: sender %w (ID: %d)"
                                         [errors.Int fromAccountID]
                                         errors.ErrAccountNotFound
                   else errors.wrapError
                          "TransferFunds: failed to get sender account (ID: %d): %w"
                          [errors.Int fromAccountID] e) |}
    | (fromAccount, None) =>
        if Account.IsDeleted fromAccount then
          {| repoCalls := [g1];
             returned := Some (errors.wrapError "TransferFunds: sender %w (ID: %d)"
                                                [errors.Int fromAccountID]
                                                errors.ErrAccountInactive) |}
        else if PrimFloat.ltb (Account.Balance fromAccount) amount then
          {| repoCalls := [g1];
             returned :=
               Some (errors.wrapError
                       "TransferFunds: sender %w (ID: %d, Balance: %.2f, Amount: %.2f)"
                       [errors.Int fromAccountID;
                        errors.Float (Account.Balance fromAccount); errors.Float amount]
                       errors.ErrInsufficientFunds) |}
        else
          let g2 := GetAccountByID toAccountID in
          match getReceiver s with
          | (_, Some e) =>
              {| repoCalls := [g1; g2];
                 returned :=
                   Some (if errors.Is e errors.ErrNoRows
                         then errors.wrapError "TransferFunds: receiver %w (ID: %d)"
                                               [errors.Int toAccountID]
                                               errors.ErrAccountNotFound
                         else errors.wrapError
                                "TransferFunds: failed to get receiver account (ID: %d): %w"
                                [errors.Int toAccountID] e) |}
          | (toAccount, None) =>
              if Account.IsDeleted toAccount then
                {| repoCalls := [g1; g2];
                   returned := Some (errors.wrapError "TransferFunds: receiver %w (ID: %d)"
                                                      [errors.Int toAccountID]
                                                      errors.ErrAccountInactive) |}
              else
                let a1 := AdjustAccountBalance fromAccountID (PrimFloat.opp amount) in
                match adjustSender s with
                | (_, Some e) =>
                    {| repoCalls := [g1; g2; a1];
                       returned :=
                         Some (errors.wrapError
                                 "TransferFunds: failed to decrement sender's balance (ID: %d): %w"
                                 [errors.Int fromAccountID] e) |}
                | (_, None) =>
                    let a2 := AdjustAccountBalance toAccountID amount in
                    match adjustReceiver s with
                    | (_, Some e) =>
                        {| repoCalls := [g1; g2; a1; a2];
                           returned :=
                             Some (errors.wrapError
                                     "TransferFunds: failed to increment receiver's balance (ID: %d): %w"
                                     [errors.Int toAccountID] e) |}
                    | (_, None) =>
                        let c :=
                          CreateTransactionWithNotes
                            {| sql.Int64 := fromAccountID; sql.Valid := true |}
                            {| sql.Int64 := toAccountID; sql.Valid := true |}
                            "TRANSFER" amount
                            {| sql.String_ := description;
                               sql.StringValid := negb (String.eqb description "") |}
                            {| sql.String_ := notes;
                               sql.StringValid := negb (String.eqb notes "") |} in
                        match createTransaction s with
                        | (_, Some e) =>
                            {| repoCalls := [g1; g2; a1; a2; c];
                               returned :=
                                 Some (errors.wrapError
                                         "TransferFunds: failed to log transaction: %w"
                                         [] e) |}
                        | (_, None) =>
                            {| repoCalls := [g1; g2; a1; a2; c]; returned := None |}
                        end
                    end
                end
          end
    end.

End transactionService.

(** The transaction repository for MySQL (package repository). *)
Module mysqlTransactionRepository.

(** What [db.Query] hands back when it succeeds: the rows the cursor
    yields before [rows.Next] returns false, each with what [rows.Scan]
    gives for it, and what [rows.Err] reports after the loop. *)
Record Rows := {
  scanned : list (dbError + Transaction.t);
  iterationErr : option dbError
}.

(** The [for rows.Next()] loop. *)
Fixpoint scanAll (rows : list (dbError + Transaction.t))
         (transactions : slice Transaction.t) : slice Transaction.t * option dbError :=
  match rows with
  | [] => (transactions, None)
  | inl e :: _ => (nil_slice, Some e)
  | inr tx :: rest => scanAll rest (append transactions tx)
  end.

Definition GetAllTransactionsForReconciliation (query : dbError + Rows)
  : slice Transaction.t * option errors.error :=
  match query with
  | inl e =>
      (nil_slice,
       Some (errors.wrapError "GetAllTransactionsForReconciliation: %w" [] (fromDB e)))
  | inr rows =>
      (* var transactions []models.Transaction *)
      match scanAll (scanned rows) nil_slice with
      | (_, Some e) =>
          (nil_slice,
           Some (errors.wrapError "GetAllTransactionsForReconciliation: scan error: %w"
                                  [] (fromDB e)))
      | (transactions, None) =>
          match iterationErr rows with
          | Some e =>
              (nil_slice,
               Some (errors.wrapError
                       "GetAllTransactionsForReconciliation: rows iteration error: %w"
                       [] (fromDB e)))
          | None => (transactions, None)
          end
      end
  end.

End mysqlTransactionRepository.

(* ===================================================================== *)
(** ** Sample records *)
(* ===================================================================== *)

Definition noAccount : sql.NullInt64 := {| sql.Int64 := 0; sql.Valid := false |}.

Definition account (id : Z) : sql.NullInt64 := {| sql.Int64 := id; sql.Valid := true |}.

Definition noText : sql.NullString := {| sql.String_ := ""; sql.StringValid := false |}.

Definition ledgerTx (id : Z) (type : string) (amount : float) : Transaction.t :=
  {| Transaction.TransactionID := id;
     Transaction.FromAccountID := noAccount;
     Transaction.ToAccountID := account 1;
     Transaction.TransactionType := type;
     Transaction.Amount := amount;
     Transaction.TransactionTs := 0;
     Transaction.Description := noText;
     Transaction.Notes := noText |}.

Definition externalRec (id : string) (amount : float) (type : string)
  : ExternalTransaction.t :=
  {| ExternalTransaction.ExternalID := id;
     ExternalTransaction.Amount := amount;
     ExternalTransaction.Type_ := type;
     ExternalTransaction.Reference := "" |}.

(** A feed of five valid rows and, third among them, a row cut short. *)
Definition feedHeader : list string := ["external_id"; "amount"; "type"; "reference"].

Definition truncatedFeed : list csv.line :=
  [ csv.Fields feedHeader;
    csv.Fields ["E1"; "100.00"; "DEPOSIT"; "salary"];
    csv.Fields ["E2"; "-50.00"; "WITHDRAWAL"; "atm"];
    csv.Fields ["E3"; "25.00"];
    csv.Fields ["E4"; "10.00"; "TRANSFER_IN"; "refund"];
    csv.Fields ["E5"; "75.50"; "DEPOSIT"; "cheque"];
    csv.Fields ["E6"; "-20.00"; "TRANSFER_OUT"; "rent"] ].

Definition sampleFiles : gmap string (list csv.line) :=
  {[ "truncated.csv" := truncatedFeed;
     "header_only.csv" := [csv.Fields feedHeader];
     "empty.csv" := [] ]}.

(** Two ledger rows under one identifier, and the deposit the first one
    matches. *)
Definition duplicateLedger : list Transaction.t :=
  [ledgerTx 1 "DEPOSIT" 100%float; ledgerTx 1 "WITHDRAWAL" 5%float].

Definition oneDeposit : list ExternalTransaction.t :=
  [externalRec "E1" 100%float "DEPOSIT"].

(** A small deposit recorded after a large one, against a feed that holds
    the small one alone. *)
Definition twoDeposits : list Transaction.t :=
  [ledgerTx 1 "DEPOSIT" 100%float; ledgerTx 2 "DEPOSIT" 50%float].

Definition smallDeposit : list ExternalTransaction.t :=
  [externalRec "E1" 50%float "DEPOSIT"].

(** A withdrawal the feed reports with another amount. *)
Definition oneWithdrawal : list Transaction.t :=
  [ledgerTx 2 "WITHDRAWAL" (-50)%float].

Definition otherWithdrawal : list ExternalTransaction.t :=
  [externalRec "E2" (-40)%float "WITHDRAWAL"].

(** A ledger and a feed that fill the four buckets: a deposit found in
    both, a withdrawal found with another amount, a deposit the feed does
    not have, and a fee the ledger does not have. *)
Definition ledgerSample : list Transaction.t :=
  [ ledgerTx 1 "DEPOSIT" 100%float;
    ledgerTx 2 "withdrawal" (-50)%float;
    ledgerTx 3 "DEPOSIT" 10%float ].

Definition feedSample : list ExternalTransaction.t :=
  [ externalRec "E1" 100%float "DEPOSIT";
    externalRec "E2" (-40)%float "WITHDRAWAL";
    externalRec "E3" 5%float "FEE" ].

(** Stand-ins for the two [fmt] verbs, to print a sample report. *)
Definition sample_fmt_d (n : Z) : string := "#".

Definition sample_fmt_2f (x : float) : string := "0.00".

(** A service whose collaborators hand over the sample ledger and feed. *)
Definition sampleService : service.reconciliationServiceImpl :=
  {| service.transactionRepo :=
       {| service.GetAllTransactionsForReconciliation :=
            (make_slice ledgerSample, None) |};
     service.dataLoader :=
       {| service.LoadExternalTransactions :=
            fun _ => {| transactions := make_slice feedSample;
                        err := None; warnings := [] |} |} |}.

(** Two deposits under one ledger identifier, and two external records
    under one external identifier. *)
Definition sharedLedgerID : list Transaction.t :=
  [ledgerTx 1 "DEPOSIT" 100%float; ledgerTx 1 "DEPOSIT" 50%float].

Definition twoRecords : list ExternalTransaction.t :=
  [externalRec "E1" 70%float "DEPOSIT"; externalRec "E2" 50%float "DEPOSIT"].

Definition sharedExternalID : list ExternalTransaction.t :=
  [externalRec "E1" 70%float "DEPOSIT"; externalRec "E1" 50%float "DEPOSIT"].

(** Two equal deposits on each side. *)
Definition equalDeposits : list Transaction.t :=
  [ledgerTx 1 "DEPOSIT" 100%float; ledgerTx 2 "DEPOSIT" 100%float].

Definition equalRecords : list ExternalTransaction.t :=
  [externalRec "E1" 100%float "DEPOSIT"; externalRec "E2" 100%float "DEPOSIT"].

(** A stand-in for [strconv.ParseFloat] that knows three spellings. *)
Definition sampleParseFloat (s : string) : option float :=
  if String.eqb s "100.00" then Some 100%float
  else if String.eqb s "-50.00" then Some (-50)%float
  else if String.eqb s "25.00" then Some 25%float
  else None.

(** A feed whose rows all have the four fields of the header; the amount
    of the second does not parse. *)
Definition uniformRows : list (list string) :=
  [ ["E1"; " 100.00 "; "deposit"; " salary"];
    ["E2"; "fifty"; "WITHDRAWAL"; "atm"];
    ["E3"; "25.00"; " Transfer_In "; "refund"] ].

Definition uniformFiles : gmap string (list csv.line) :=
  {[ "feed.csv" := csv.Fields feedHeader :: map csv.Fields uniformRows ]}.

(** A database that answers every call of a transfer: the sender holds
    500, both accounts are active. *)
Definition willingDatabase : crud.Answers :=
  {| crud.begin := None;
     crud.senderRow := inr (500%float, false);
     crud.receiverRow := inr false;
     crud.decrement := None;
     crud.increment := None;
     crud.insert := None;
     crud.lastInsertId := inr 42;
     crud.commit := None |}.

(** The same database, where the sender holds 20. *)
Definition poorSender : crud.Answers :=
  {| crud.begin := None;
     crud.senderRow := inr (20%float, false);
     crud.receiverRow := inr false;
     crud.decrement := None;
     crud.increment := None;
     crud.insert := None;
     crud.lastInsertId := inr 42;
     crud.commit := None |}.

(** Repositories that answer every call, except that crediting the
    receiver fails. *)
Definition failingCredit : transactionService.Repositories :=
  {| transactionService.getSender :=
       ({| Account.AccountID := 1; Account.AccountHolder := "Alice";
           Account.Balance := 500%float; Account.LastUpdated := 0;
           Account.IsDeleted := false |}, None);
     transactionService.getReceiver :=
       ({| Account.AccountID := 2; Account.AccountHolder := "Bob";
           Account.Balance := 0%float; Account.LastUpdated := 0;
           Account.IsDeleted := false |}, None);
     transactionService.adjustSender := (1, None);
     transactionService.adjustReceiver := (0, Some (errors.Driver 1205));
     transactionService.createTransaction := (7, None) |}.

(** Two runtimes that differ in all they offer. The maps of the first are
    [gmap]s, visited in the order of the keys' encoding; the maps of the
    second are lists that hold the entry assigned last in front, and are
    visited from the front. *)
Definition keyOrderedMaps (K : Type) `{Countable K} : runtime.Map K.
Proof.
  refine {| runtime.carrier := gmap K bool;
            runtime.Make := ∅;
            runtime.Index := index;
            runtime.Assign := fun m k v => <[k := v]> m;
            runtime.Range := map_to_list |}.
  - intros k. unfold index. rewrite lookup_empty. reflexivity.
  - intros m k v. unfold index. rewrite lookup_insert_eq. reflexivity.
  - intros m k k' v Hne. unfold index. rewrite lookup_insert_ne by exact Hne.
    reflexivity.
  - intros m k Hk. apply list_elem_of_In, elem_of_map_to_list.
    unfold index in Hk. destruct (m !! k) as [[]|]; try discriminate Hk.
    reflexivity.
Defined.

Fixpoint entryOf {K : Type} `{EqDecision K} (m : list (K * bool)) (k : K) : bool :=
  match m with
  | [] => false
  | (k', v) :: rest => if decide (k' = k) then v else entryOf rest k
  end.

Definition without {K : Type} `{EqDecision K} (k : K) (m : list (K * bool))
  : list (K * bool) :=
  List.filter (fun entry => negb (bool_decide (fst entry = k))) m.

Definition recentFirstMaps (K : Type) `{EqDecision K} : runtime.Map K.
Proof.
  refine {| runtime.carrier := list (K * bool);
            runtime.Make := [];
            runtime.Index := entryOf;
            runtime.Assign := fun m k v => (k, v) :: without k m;
            runtime.Range := fun m => m |}.
  - intros k. reflexivity.
  - intros m k v. simpl. rewrite decide_True by reflexivity. reflexivity.
  - intros m k k' v Hne. simpl. rewrite decide_False by exact Hne.
    induction m as [|[k0 v0] m IH]; [reflexivity|].
    unfold without in *. simpl.
    destruct (decide (k0 = k)) as [->|Hk0].
    + rewrite bool_decide_eq_true_2 by reflexivity. simpl.
      rewrite decide_False by exact Hne. exact IH.
    + rewrite bool_decide_eq_false_2 by exact Hk0. simpl.
      destruct (decide (k0 = k')); [reflexivity|exact IH].
  - intros m k. induction m as [|[k0 v0] m IH]; simpl; [discriminate|].
    destruct (decide (k0 = k)) as [->|Hk0].
    + intros ->. left. reflexivity.
    + intros Hk. right. exact (IH Hk).
Defined.

Definition keyOrderedRuntime : runtime.t :=
  {| runtime.int64Maps := keyOrderedMaps Z;
     runtime.stringMaps := keyOrderedMaps string;
     runtime.random := fun _ => 4;
     runtime.now := fun n => 1000 + Z.of_nat n |}.

Definition recentFirstRuntime : runtime.t :=
  {| runtime.int64Maps := recentFirstMaps Z;
     runtime.stringMaps := recentFirstMaps string;
     runtime.random := fun n => 7 * Z.of_nat n;
     runtime.now := fun n => 2000000 + 3 * Z.of_nat n |}.

(* ===================================================================== *)
(** ** Predicates of the statements *)
(* ===================================================================== *)

(** Criteria 1 of the matcher on a pair. *)
Definition exactly (dbTx : Transaction.t) (csvTx : ExternalTransaction.t) : bool :=
  String.eqb (normalizedDBType dbTx) (ExternalTransaction.Type_ csvTx)
  && PrimFloat.eqb (Transaction.Amount dbTx) (ExternalTransaction.Amount csvTx).

(** A pair of equal type and unequal amount. *)
Definition typeOnly (p : Pair) : Prop :=
  normalizedDBType (fst p) = ExternalTransaction.Type_ (snd p)
  /\ PrimFloat.eqb (Transaction.Amount (fst p)) (ExternalTransaction.Amount (snd p))
     = false.

(** The ledger rows and the external records whose identifier is marked. *)
Definition processedRows (st : MatchState) (dbTxs : list Transaction.t)
  : list Transaction.t :=
  List.filter (fun dbTx => index (processedDBTx st) (Transaction.TransactionID dbTx))
              dbTxs.

Definition processedRecords (st : MatchState) (csvTxs : list ExternalTransaction.t)
  : list ExternalTransaction.t :=
  List.filter
    (fun csvTx => index (processedCSVTx st) (ExternalTransaction.ExternalID csvTx))
    csvTxs.

(** The bookkeeping of the matching loop: the rows and records held by the
    two pair lists are, up to order, those whose identifier is marked. *)
Definition Accounted (dbTxs : list Transaction.t)
           (csvTxs : list ExternalTransaction.t) (st : MatchState) : Prop :=
  map fst (foundInBoth st) ++ map fst (mismatchedAmounts st)
    ≡ₚ processedRows st dbTxs
  /\ map snd (foundInBoth st) ++ map snd (mismatchedAmounts st)
    ≡ₚ processedRecords st csvTxs.

(** The state of the matcher and a state of the reference algorithm hold
    the same thing: the same identifiers are marked, and the same pairs are
    recorded in the same order. *)
Definition Corresponds (st : MatchState) (rs : Reference.State) : Prop :=
  (forall id, index (processedDBTx st) id = true <-> id ∈ Reference.consumedLedger rs)
  /\ (forall id,
        index (processedCSVTx st) id = true <-> id ∈ Reference.consumedExternal rs)
  /\ foundInBoth st = Reference.exactPairs rs
  /\ mismatchedAmounts st = Reference.typeOnlyPairs rs.

(** What pass 2 does to a state when it pairs [tx] with [rec]. *)
Definition consumeTypeOnly (rs : Reference.State) (tx : Transaction.t)
           (rec : ExternalTransaction.t) : Reference.State :=
  {| Reference.consumedLedger :=
       {[Transaction.TransactionID tx]} ∪ Reference.consumedLedger rs;
     Reference.consumedExternal :=
       {[ExternalTransaction.ExternalID rec]} ∪ Reference.consumedExternal rs;
     Reference.exactPairs := Reference.exactPairs rs;
     Reference.typeOnlyPairs := Reference.typeOnlyPairs rs ++ [(tx, rec)] |}.

(** What pass 1 does to a state when it pairs [tx] with [rec]. *)
Definition consumeExact (rs : Reference.State) (tx : Transaction.t)
           (rec : ExternalTransaction.t) : Reference.State :=
  {| Reference.consumedLedger :=
       {[Transaction.TransactionID tx]} ∪ Reference.consumedLedger rs;
     Reference.consumedExternal :=
       {[ExternalTransaction.ExternalID rec]} ∪ Reference.consumedExternal rs;
     Reference.exactPairs := Reference.exactPairs rs ++ [(tx, rec)];
     Reference.typeOnlyPairs := Reference.typeOnlyPairs rs |}.

(** Along the matching loop over [dbTxs] from [st], no type-only pairing
    takes an external record that is an exact match of a ledger
    transaction still to come. *)
Fixpoint NoneStolen (csvTxs : list ExternalTransaction.t)
         (dbTxs : list Transaction.t) (st : MatchState) : Prop :=
  match dbTxs with
  | [] => True
  | dbTx :: rest =>
      (forall csvTx,
          index (processedDBTx st) (Transaction.TransactionID dbTx) = false ->
          exactScan dbTx (processedCSVTx st) csvTxs = None ->
          typeScan dbTx (processedCSVTx st) csvTxs = Some csvTx ->
          forall later, In later rest -> exactly later csvTx = false)
      /\ NoneStolen csvTxs rest (matchOne csvTxs st dbTx)
  end.

(** The pairs a state or an outcome holds, matched ones first. *)
Definition pairsOf (o : Outcome) : list Pair := matched o ++ mismatchedAmount o.

Definition ledgerID (p : Pair) : Z := Transaction.TransactionID (fst p).

Definition externalID (p : Pair) : string := ExternalTransaction.ExternalID (snd p).

(** The two maps mark the identifiers of the recorded pairs and no other,
    and no identifier is recorded twice. *)
Definition Marked (st : MatchState) : Prop :=
  (forall id, index (processedDBTx st) id = true
              <-> In id (map ledgerID (foundInBoth st ++ mismatchedAmounts st)))
  /\ (forall id, index (processedCSVTx st) id = true
                 <-> In id (map externalID (foundInBoth st ++ mismatchedAmounts st)))
  /\ NoDup (map ledgerID (foundInBoth st ++ mismatchedAmounts st))
  /\ NoDup (map externalID (foundInBoth st ++ mismatchedAmounts st)).

(** A map of a runtime reads as a [gmap] does, key by key; a state of the
    loops on a runtime holds what a state on [gmap]s holds. *)
Definition SameMarks {K : Type} `{Countable K} (maps : runtime.Map K)
           (hosted : runtime.carrier maps) (m : gmap K bool) : Prop :=
  forall k, runtime.Index maps hosted k = index m k.

Definition SameState {rt : runtime.t} (hosted : OnRuntime.MatchState rt)
           (st : MatchState) : Prop :=
  SameMarks (runtime.int64Maps rt) (OnRuntime.processedDBTx rt hosted) (processedDBTx st)
  /\ SameMarks (runtime.stringMaps rt) (OnRuntime.processedCSVTx rt hosted)
       (processedCSVTx st)
  /\ OnRuntime.foundInBoth rt hosted = foundInBoth st
  /\ OnRuntime.mismatchedAmounts rt hosted = mismatchedAmounts st.


(** A file of ASCII text: every field of every line is. *)
Definition asciiLine (ln : csv.line) : bool :=
  match ln with
  | csv.Fields record => forallb strings.isASCII record
  | csv.Malformed => true
  end.

Definition asciiFile (file : list csv.line) : bool := forallb asciiLine file.

(** The text of a loaded record is clean: ASCII, with no white space at
    either end of the identifier, the type and the reference, and with
    the type in upper case. *)
Definition Clean (csvTx : ExternalTransaction.t) : Prop :=
  strings.isASCII (ExternalTransaction.ExternalID csvTx) = true
  /\ strings.isASCII (ExternalTransaction.Type_ csvTx) = true
  /\ strings.isASCII (ExternalTransaction.Reference csvTx) = true
  /\ strings.TrimSpace (ExternalTransaction.ExternalID csvTx)
     = ExternalTransaction.ExternalID csvTx
  /\ strings.TrimSpace (ExternalTransaction.Type_ csvTx) = ExternalTransaction.Type_ csvTx
  /\ strings.ToUpper (ExternalTransaction.Type_ csvTx) = ExternalTransaction.Type_ csvTx
  /\ strings.TrimSpace (ExternalTransaction.Reference csvTx)
     = ExternalTransaction.Reference csvTx.

(* ===================================================================== *)
(** ** The type normalizer: properties *)
(* ===================================================================== *)

Lemma ToUpper_deposit : strings.ToUpper "deposit" = "DEPOSIT".
Proof. reflexivity. Qed.

Lemma ToUpper_FOO : strings.ToUpper "FOO" = "FOO".
Proof. reflexivity. Qed.

(** C4. The normalizer upper-cases the ledger type and maps it as the table
    says: DEPOSIT and WITHDRAWAL to themselves whatever the accounts,
    TRANSFER to TRANSFER_OUT, TRANSFER_IN or INTERNAL_TRANSFER by which
    accounts are present, and any type other than these three to its
    upper-cased text; so "deposit" gives DEPOSIT and "FOO" gives FOO. *)
Theorem normalizer_mapping (ledgerType : string) (fromID toID : sql.NullInt64) :
  let upper := strings.ToUpper ledgerType in
  let result := normalizeDBTransactionType ledgerType fromID toID in
  (upper = "DEPOSIT" -> result = "DEPOSIT")
  /\ (upper = "WITHDRAWAL" -> result = "WITHDRAWAL")
  /\ (upper = "TRANSFER" -> sql.Valid fromID = true -> sql.Valid toID = false ->
      result = "TRANSFER_OUT")
  /\ (upper = "TRANSFER" -> sql.Valid fromID = false -> sql.Valid toID = true ->
      result = "TRANSFER_IN")
  /\ (upper = "TRANSFER" -> sql.Valid fromID = true -> sql.Valid toID = true ->
      result = "INTERNAL_TRANSFER")
  /\ (upper <> "DEPOSIT" -> upper <> "WITHDRAWAL" -> upper <> "TRANSFER" ->
      result = upper)
  /\ normalizeDBTransactionType "deposit" fromID toID = "DEPOSIT"
  /\ normalizeDBTransactionType "FOO" fromID toID = "FOO".
Proof.
  cbv zeta. unfold normalizeDBTransactionType.
  repeat split.
  - intros ->. reflexivity.
  - intros ->. reflexivity.
  - intros -> -> ->. reflexivity.
  - intros -> -> ->. reflexivity.
  - intros -> -> ->. reflexivity.
  - intros Hd Hw Ht.
    apply String.eqb_neq in Hd, Hw, Ht. rewrite Hd, Hw, Ht. reflexivity.
Qed.

(** C10. A TRANSFER whose two accounts are both absent falls through to
    the fallback and comes back as TRANSFER, which is none of the five
    words of the external vocabulary. *)
Theorem normalizer_transfer_without_accounts (fromID toID : sql.NullInt64) :
  sql.Valid fromID = false ->
  sql.Valid toID = false ->
  normalizeDBTransactionType "TRANSFER" fromID toID = "TRANSFER"
  /\ ~ In (normalizeDBTransactionType "TRANSFER" fromID toID) externalVocabulary.
Proof.
  intros Hfrom Hto.
  assert (E : normalizeDBTransactionType "TRANSFER" fromID toID = "TRANSFER").
  { unfold normalizeDBTransactionType. rewrite Hfrom, Hto. reflexivity. }
  split; [exact E|].
  rewrite E. unfold externalVocabulary. simpl.
  intros [H|[H|[H|[H|[H|[]]]]]]; discriminate H.
Qed.

Lemma normalizer_mapping_witness :
  normalizeDBTransactionType "transfer" (account 7) noAccount = "TRANSFER_OUT".
Proof.
  destruct (normalizer_mapping "transfer" (account 7) noAccount)
    as (_ & _ & Hout & _).
  apply Hout; reflexivity.
Defined.

Lemma normalizer_transfer_without_accounts_witness :
  normalizeDBTransactionType "TRANSFER" noAccount noAccount = "TRANSFER"
  /\ ~ In (normalizeDBTransactionType "TRANSFER" noAccount noAccount)
          externalVocabulary.
Proof.
  apply (normalizer_transfer_without_accounts noAccount noAccount); reflexivity.
Defined.

(* ===================================================================== *)
(** ** The loader: properties *)
(* ===================================================================== *)

Section LoaderFacts.

Variable ParseFloat : string -> option float.

(** Once the expected field count is set, a record of another length
    anywhere in what is left of the file ends the load with an error: the
    reader reports it before the loader looks at the record. *)
Lemma readRecords_field_count input : forall n txs warns record,
  0 < n ->
  In (csv.Fields record) input ->
  Z.of_nat (length record) <> n ->
  exists e, readRecords ParseFloat input n txs warns
            = {| transactions := nil_slice; err := Some (ErrorReadingRecord e);
                 warnings := warnings (readRecords ParseFloat input n txs warns) |}.
Proof.
  induction input as [|ln rest IH]; intros n txs warns record Hn Hin Hlen.
  - destruct Hin.
  - simpl. destruct ln as [dst|]; simpl.
    + assert (Hpos : (0 <? n) = true) by (apply Z.ltb_lt; exact Hn).
      rewrite Hpos.
      destruct (Z.of_nat (length dst) =? n) eqn:Hdst; simpl.
      * apply Z.eqb_eq in Hdst.
        assert (Hrest : In (csv.Fields record) rest).
        { destruct Hin as [Heq|Hin]; [|exact Hin].
          injection Heq as ->. contradiction. }
        destruct (length dst <? 4)%nat.
        -- eapply IH; eassumption.
        -- destruct (ParseFloat _); eapply IH; eassumption.
      * eexists. reflexivity.
    + eexists. reflexivity.
Qed.

(** A file whose header has at least one field, and which holds both a
    row of four fields or more and a row of fewer than four, does not
    load. *)
Lemma truncated_row_is_fatal header rows valid truncated :
  (0 < length header)%nat ->
  In (csv.Fields valid) rows ->
  In (csv.Fields truncated) rows ->
  (4 <= length valid)%nat ->
  (length truncated < 4)%nat ->
  exists e,
    err (loadFromReader ParseFloat (csv.NewReader (csv.Fields header :: rows)))
    = Some (ErrorReadingRecord e)
    /\ transactions
         (loadFromReader ParseFloat (csv.NewReader (csv.Fields header :: rows)))
       = nil_slice.
Proof.
  intros Hheader Hvalid Htruncated H4 H3.
  unfold loadFromReader, csv.NewReader, csv.Read. simpl.
  set (n := Z.of_nat (length header)).
  assert (Hn : 0 < n) by (unfold n; lia).
  destruct (Z.eq_dec (Z.of_nat (length valid)) n) as [Heq|Hneq].
  - destruct (readRecords_field_count rows n nil_slice [] truncated Hn Htruncated)
      as [e He]; [lia|].
    exists e. rewrite He. split; reflexivity.
  - destruct (readRecords_field_count rows n nil_slice [] valid Hn Hvalid Hneq)
      as [e He].
    exists e. rewrite He. split; reflexivity.
Qed.

(** A short row that the reader lets through, which it does only when the
    header is as short, is skipped with a warning. *)
Lemma short_row_is_skipped record rest n txs warns :
  0 < n ->
  Z.of_nat (length record) = n ->
  (length record < 4)%nat ->
  readRecords ParseFloat (csv.Fields record :: rest) n txs warns
  = readRecords ParseFloat rest n txs (warns ++ [SkippingMalformedRecord record]).
Proof.
  intros Hn Hlen H4. simpl.
  assert (Hpos : (0 <? n) = true) by (apply Z.ltb_lt; exact Hn).
  rewrite Hpos.
  assert (Heq : (Z.of_nat (length record) =? n) = true) by (apply Z.eqb_eq; exact Hlen).
  rewrite Heq. simpl.
  assert (Hlt : (length record <? 4)%nat = true) by (apply Nat.ltb_lt; exact H4).
  rewrite Hlt. reflexivity.
Qed.

(** A row of the expected length whose amount does not parse is skipped
    with a warning, and the load goes on with the rows after it. *)
Lemma invalid_amount_is_skipped record rest n txs warns :
  0 < n ->
  Z.of_nat (length record) = n ->
  (4 <= length record)%nat ->
  ParseFloat (strings.TrimSpace (field record 1)) = None ->
  readRecords ParseFloat (csv.Fields record :: rest) n txs warns
  = readRecords ParseFloat rest n txs
      (warns ++ [SkippingInvalidAmount (field record 1)]).
Proof.
  intros Hn Hlen H4 Hparse. simpl.
  assert (Hpos : (0 <? n) = true) by (apply Z.ltb_lt; exact Hn).
  rewrite Hpos.
  assert (Heq : (Z.of_nat (length record) =? n) = true) by (apply Z.eqb_eq; exact Hlen).
  rewrite Heq. simpl.
  assert (Hlt : (length record <? 4)%nat = false) by (apply Nat.ltb_ge; exact H4).
  rewrite Hlt, Hparse. reflexivity.
Qed.

(** The file in which end-of-input comes before any header: the empty,
    non-nil slice and no error. *)
Lemma empty_file_loads_empty_slice (fs : gmap string (list csv.line)) filePath :
  fs !! filePath = Some [] ->
  LoadExternalTransactions ParseFloat fs filePath
  = {| transactions := make_slice []; err := None; warnings := [] |}
  /\ loadExternalTransactions ParseFloat fs filePath
     = {| transactions := make_slice []; err := None; warnings := [] |}.
Proof.
  intros Hfile. unfold LoadExternalTransactions, loadExternalTransactions.
  rewrite Hfile. split; reflexivity.
Qed.

(** A file of a header and nothing else: no error and no record, and the
    slice returned is the nil slice that [var transactions] declared. *)
Lemma header_only_loads_nil_slice (fs : gmap string (list csv.line)) filePath header :
  fs !! filePath = Some [csv.Fields header] ->
  LoadExternalTransactions ParseFloat fs filePath
  = {| transactions := nil_slice; err := None; warnings := [] |}
  /\ loadExternalTransactions ParseFloat fs filePath
     = {| transactions := nil_slice; err := None; warnings := [] |}.
Proof.
  intros Hfile. unfold LoadExternalTransactions, loadExternalTransactions.
  rewrite Hfile. split; reflexivity.
Qed.

End LoaderFacts.

(** C3. The feed of five valid rows and one truncated row does not load:
    the reader reports the wrong number of fields on the short row, and
    both loaders return that error and no record, before the test on the
    length of the record is reached. *)
Theorem truncated_row_aborts_load (ParseFloat : string -> option float) :
  let loaded := LoadExternalTransactions ParseFloat sampleFiles "truncated.csv" in
  let loaded' := loadExternalTransactions ParseFloat sampleFiles "truncated.csv" in
  (err loaded = Some (ErrorReadingRecord csv.ErrFieldCount)
   /\ transactions loaded = nil_slice)
  /\ (err loaded' = Some (ErrorReadingRecord csv.ErrFieldCount)
      /\ transactions loaded' = nil_slice).
Proof.
  cbv zeta. unfold LoadExternalTransactions, loadExternalTransactions.
  replace (sampleFiles !! "truncated.csv") with (Some truncatedFeed)
    by (vm_compute; reflexivity).
  unfold loadFromReader, truncatedFeed. simpl.
  destruct (ParseFloat _); destruct (ParseFloat _); repeat split.
Qed.

(** C7. On the file that holds a header and nothing else both loaders
    return no error and no record, but the slice they return is nil; the
    empty, non-nil slice is returned only when the header itself is
    missing. *)
Theorem header_only_feed_returns_nil (ParseFloat : string -> option float) :
  let loaded := LoadExternalTransactions ParseFloat sampleFiles "header_only.csv" in
  let loaded' := loadExternalTransactions ParseFloat sampleFiles "header_only.csv" in
  let missing := LoadExternalTransactions ParseFloat sampleFiles "empty.csv" in
  (err loaded = None /\ elems (transactions loaded) = []
   /\ is_nil (transactions loaded) = true)
  /\ (err loaded' = None /\ elems (transactions loaded') = []
      /\ is_nil (transactions loaded') = true)
  /\ (err missing = None /\ elems (transactions missing) = []
      /\ is_nil (transactions missing) = false).
Proof.
  cbv zeta.
  destruct (header_only_loads_nil_slice ParseFloat sampleFiles
              "header_only.csv" feedHeader) as [-> ->];
    [vm_compute; reflexivity|].
  destruct (empty_file_loads_empty_slice ParseFloat sampleFiles "empty.csv")
    as [-> _]; [vm_compute; reflexivity|].
  repeat split.
Qed.

(* ===================================================================== *)
(** ** The matcher: the maps and the two scans *)
(* ===================================================================== *)

Section MapFacts.

Context {K : Type} `{Countable K}.

Lemma index_empty (k : K) : index (∅ : gmap K bool) k = false.
Proof. unfold index. rewrite lookup_empty. reflexivity. Qed.

Lemma index_insert_eq (m : gmap K bool) (k : K) : index (<[k := true]> m) k = true.
Proof. unfold index. rewrite lookup_insert_eq. reflexivity. Qed.

Lemma index_insert_ne (m : gmap K bool) (k k' : K) :
  k <> k' -> index (<[k := true]> m) k' = index m k'.
Proof. intros Hne. unfold index. rewrite lookup_insert_ne by exact Hne. reflexivity. Qed.

Lemma index_insert_iff_true (m : gmap K bool) (k k' : K) :
  index m k' = true -> index (<[k := true]> m) k' = true.
Proof.
  intros Hk'. destruct (decide (k = k')) as [->|Hne].
  - apply index_insert_eq.
  - rewrite index_insert_ne by exact Hne. exact Hk'.
Qed.

(** Marking the key of one element of a list without repeated keys adds
    that element, and no other, to the marked ones. *)
Lemma filter_index_insert {A : Type} (key : A -> K) (m : gmap K bool) (l : list A) x :
  NoDup (map key l) ->
  In x l ->
  index m (key x) = false ->
  List.filter (fun y => index (<[key x := true]> m) (key y)) l
    ≡ₚ x :: List.filter (fun y => index m (key y)) l.
Proof.
  induction l as [|y l IH]; intros Hnodup Hin Hx; [destruct Hin|].
  simpl in Hnodup. apply NoDup_cons in Hnodup as [Hy Hnodup].
  assert (Hrest : forall z, In z l -> key z <> key y).
  { intros z Hz Heq. apply Hy. rewrite <- Heq.
    apply list_elem_of_In. apply in_map. exact Hz. }
  simpl. destruct Hin as [->|Hin].
  - rewrite index_insert_eq, Hx. apply Permutation_cons; [reflexivity|].
    apply Permutation_refl'. apply filter_ext_in.
    intros z Hz. apply index_insert_ne. intros Heq. exact (Hrest z Hz (eq_sym Heq)).
  - rewrite (index_insert_ne m (key x) (key y)) by (apply Hrest; exact Hin).
    destruct (index m (key y)).
    + rewrite (IH Hnodup Hin Hx). apply perm_swap.
    + exact (IH Hnodup Hin Hx).
Qed.

Lemma filter_split {A : Type} (f : A -> bool) (l : list A) :
  List.filter f l ++ List.filter (fun x => negb (f x)) l ≡ₚ l.
Proof.
  induction l as [|x l IH]; [reflexivity|].
  simpl. destruct (f x); simpl.
  - apply Permutation_cons; [reflexivity|exact IH].
  - rewrite <- Permutation_middle. apply Permutation_cons; [reflexivity|exact IH].
Qed.

End MapFacts.

Lemma exactScan_Some dbTx processed csvTxs csvTx :
  exactScan dbTx processed csvTxs = Some csvTx ->
  In csvTx csvTxs
  /\ index processed (ExternalTransaction.ExternalID csvTx) = false
  /\ exactly dbTx csvTx = true.
Proof.
  induction csvTxs as [|c rest IH]; simpl; [discriminate|].
  destruct (index processed (ExternalTransaction.ExternalID c)) eqn:Hc.
  - intros Hscan. destruct (IH Hscan) as (? & ? & ?). auto.
  - fold (exactly dbTx c). destruct (exactly dbTx c) eqn:Hexact.
    + intros [= <-]. auto.
    + intros Hscan. destruct (IH Hscan) as (? & ? & ?). auto.
Qed.

Lemma exactScan_None dbTx processed csvTxs :
  exactScan dbTx processed csvTxs = None ->
  forall csvTx, In csvTx csvTxs ->
    index processed (ExternalTransaction.ExternalID csvTx) = false ->
    exactly dbTx csvTx = false.
Proof.
  induction csvTxs as [|c rest IH]; simpl; [intros _ ? []|].
  destruct (index processed (ExternalTransaction.ExternalID c)) eqn:Hc.
  - intros Hscan csvTx [<-|Hin] Hfree; [congruence|]. exact (IH Hscan csvTx Hin Hfree).
  - fold (exactly dbTx c). destruct (exactly dbTx c) eqn:Hexact; [discriminate|].
    intros Hscan csvTx [<-|Hin] Hfree; [exact Hexact|]. exact (IH Hscan csvTx Hin Hfree).
Qed.

Lemma typeScan_Some dbTx processed csvTxs csvTx :
  typeScan dbTx processed csvTxs = Some csvTx ->
  In csvTx csvTxs
  /\ index processed (ExternalTransaction.ExternalID csvTx) = false
  /\ normalizedDBType dbTx = ExternalTransaction.Type_ csvTx.
Proof.
  induction csvTxs as [|c rest IH]; simpl; [discriminate|].
  destruct (index processed (ExternalTransaction.ExternalID c)) eqn:Hc.
  - intros Hscan. destruct (IH Hscan) as (? & ? & ?). auto.
  - destruct (String.eqb (normalizedDBType dbTx) (ExternalTransaction.Type_ c))
      eqn:Htype.
    + intros [= <-]. apply String.eqb_eq in Htype. auto.
    + intros Hscan. destruct (IH Hscan) as (? & ? & ?). auto.
Qed.

(** The loop keeps whatever one turn keeps. *)
Lemma matchLoop_invariant (P : MatchState -> Prop) csvTxs (all : list Transaction.t) :
  (forall st dbTx, In dbTx all -> P st -> P (matchOne csvTxs st dbTx)) ->
  forall dbTxs st, incl dbTxs all -> P st -> P (matchLoop csvTxs dbTxs st).
Proof.
  intros Hturn. unfold matchLoop.
  induction dbTxs as [|dbTx rest IH]; intros st Hincl Hst; simpl; [exact Hst|].
  apply IH.
  - intros x Hx. apply Hincl. right. exact Hx.
  - apply Hturn; [apply Hincl; left; reflexivity|exact Hst].
Qed.

(* ===================================================================== *)
(** ** Mismatched pairs *)
(* ===================================================================== *)

Lemma matchOne_typeOnly csvTxs st dbTx :
  Forall typeOnly (mismatchedAmounts st) ->
  Forall typeOnly (mismatchedAmounts (matchOne csvTxs st dbTx)).
Proof.
  intros Hst. unfold matchOne.
  destruct (index (processedDBTx st) (Transaction.TransactionID dbTx)); [exact Hst|].
  destruct (exactScan dbTx (processedCSVTx st) csvTxs) as [csvTx|] eqn:Hexact;
    [exact Hst|].
  destruct (typeScan dbTx (processedCSVTx st) csvTxs) as [csvTx|] eqn:Htype;
    [|exact Hst].
  simpl. apply Forall_app. split; [exact Hst|].
  apply Forall_singleton.
  destruct (typeScan_Some _ _ _ _ Htype) as (Hin & Hfree & Hsame).
  pose proof (exactScan_None _ _ _ Hexact csvTx Hin Hfree) as Hnot.
  unfold exactly in Hnot. split; simpl; [exact Hsame|].
  apply String.eqb_eq in Hsame. rewrite Hsame in Hnot. exact Hnot.
Qed.

(** C5. Every pair in the mismatched-amount bucket has the external
    record's type equal to the ledger transaction's normalized type and
    an amount that [==] finds different; no pair of equal type and equal
    amount is put there. *)
Theorem mismatched_pairs_differ_in_amount dbTxs csvTxs dbTx csvTx :
  In (dbTx, csvTx) (mismatchedAmount (classify dbTxs csvTxs)) ->
  normalizedDBType dbTx = ExternalTransaction.Type_ csvTx
  /\ PrimFloat.eqb (Transaction.Amount dbTx) (ExternalTransaction.Amount csvTx) = false.
Proof.
  intros Hin. simpl in Hin.
  assert (Hall : Forall typeOnly (mismatchedAmounts (matchLoop csvTxs dbTxs initialState))).
  { apply (matchLoop_invariant (fun st => Forall typeOnly (mismatchedAmounts st))
             csvTxs dbTxs).
    - intros st tx _. apply matchOne_typeOnly.
    - apply incl_refl.
    - simpl. constructor. }
  rewrite Forall_forall in Hall.
  apply (Hall (dbTx, csvTx)). apply list_elem_of_In. exact Hin.
Qed.

Lemma mismatched_pairs_differ_in_amount_witness :
  normalizedDBType (ledgerTx 2 "WITHDRAWAL" (-50)%float)
  = ExternalTransaction.Type_ (externalRec "E2" (-40)%float "WITHDRAWAL")
  /\ PrimFloat.eqb (Transaction.Amount (ledgerTx 2 "WITHDRAWAL" (-50)%float))
       (ExternalTransaction.Amount (externalRec "E2" (-40)%float "WITHDRAWAL"))
     = false.
Proof.
  apply (mismatched_pairs_differ_in_amount oneWithdrawal otherWithdrawal).
  vm_compute. left. reflexivity.
Defined.

(* ===================================================================== *)
(** ** Partition of the identities *)
(* ===================================================================== *)

Lemma filter_none {A : Type} (f : A -> bool) (l : list A) :
  (forall x, f x = false) -> List.filter f l = [].
Proof.
  intros Hf. induction l as [|x l IH]; [reflexivity|].
  simpl. rewrite Hf. exact IH.
Qed.

Lemma Accounted_initial dbTxs csvTxs : Accounted dbTxs csvTxs initialState.
Proof.
  unfold Accounted, processedRows, processedRecords. simpl.
  rewrite !filter_none by (intros x; apply index_empty).
  split; reflexivity.
Qed.

(** A pair added to either list keeps the books, when its two members are
    unmarked members of the inputs. *)
Lemma Accounted_mark dbTxs csvTxs st dbTx csvTx found mismatched :
  NoDup (map Transaction.TransactionID dbTxs) ->
  NoDup (map ExternalTransaction.ExternalID csvTxs) ->
  In dbTx dbTxs ->
  In csvTx csvTxs ->
  index (processedDBTx st) (Transaction.TransactionID dbTx) = false ->
  index (processedCSVTx st) (ExternalTransaction.ExternalID csvTx) = false ->
  Accounted dbTxs csvTxs st ->
  map fst found ++ map fst mismatched
    ≡ₚ dbTx :: (map fst (foundInBoth st) ++ map fst (mismatchedAmounts st)) ->
  map snd found ++ map snd mismatched
    ≡ₚ csvTx :: (map snd (foundInBoth st) ++ map snd (mismatchedAmounts st)) ->
  Accounted dbTxs csvTxs
    {| processedDBTx :=
         <[Transaction.TransactionID dbTx := true]> (processedDBTx st);
       processedCSVTx :=
         <[ExternalTransaction.ExternalID csvTx := true]> (processedCSVTx st);
       foundInBoth := found;
       mismatchedAmounts := mismatched |}.
Proof.
  intros Hdb Hcsv Hin Hin' Hfree Hfree' [Hrows Hrecords] Hfst Hsnd.
  unfold Accounted, processedRows, processedRecords in *. simpl. split.
  - rewrite Hfst, Hrows. symmetry.
    apply (filter_index_insert Transaction.TransactionID); assumption.
  - rewrite Hsnd, Hrecords. symmetry.
    apply (filter_index_insert ExternalTransaction.ExternalID); assumption.
Qed.

Lemma matchOne_Accounted dbTxs csvTxs st dbTx :
  NoDup (map Transaction.TransactionID dbTxs) ->
  NoDup (map ExternalTransaction.ExternalID csvTxs) ->
  In dbTx dbTxs ->
  Accounted dbTxs csvTxs st ->
  Accounted dbTxs csvTxs (matchOne csvTxs st dbTx).
Proof.
  intros Hdb Hcsv Hin Hst. unfold matchOne.
  destruct (index (processedDBTx st) (Transaction.TransactionID dbTx)) eqn:Hfree;
    [exact Hst|].
  destruct (exactScan dbTx (processedCSVTx st) csvTxs) as [csvTx|] eqn:Hexact.
  - destruct (exactScan_Some _ _ _ _ Hexact) as (Hin' & Hfree' & _).
    unfold markMatch. apply Accounted_mark; try assumption.
    + rewrite map_app. simpl. rewrite <- app_assoc. simpl.
      symmetry. apply Permutation_middle.
    + rewrite map_app. simpl. rewrite <- app_assoc. simpl.
      symmetry. apply Permutation_middle.
  - destruct (typeScan dbTx (processedCSVTx st) csvTxs) as [csvTx|] eqn:Htype;
      [|exact Hst].
    destruct (typeScan_Some _ _ _ _ Htype) as (Hin' & Hfree' & _).
    unfold markMismatch. apply Accounted_mark; try assumption.
    + rewrite map_app. simpl. rewrite app_assoc.
      symmetry. rewrite <- Permutation_middle. rewrite app_nil_r. reflexivity.
    + rewrite map_app. simpl. rewrite app_assoc.
      symmetry. rewrite <- Permutation_middle. rewrite app_nil_r. reflexivity.
Qed.

Lemma matchLoop_Accounted dbTxs csvTxs :
  NoDup (map Transaction.TransactionID dbTxs) ->
  NoDup (map ExternalTransaction.ExternalID csvTxs) ->
  Accounted dbTxs csvTxs (matchLoop csvTxs dbTxs initialState).
Proof.
  intros Hdb Hcsv.
  apply (matchLoop_invariant (Accounted dbTxs csvTxs) csvTxs dbTxs).
  - intros st dbTx Hin. apply matchOne_Accounted; assumption.
  - apply incl_refl.
  - apply Accounted_initial.
Qed.

(** C2. When the ledger identifiers are pairwise distinct and so are the
    external identifiers, the identifiers held by matched,
    mismatchedAmount and onlyLedger are those of the ledger input, each
    once, and the identifiers held by matched, mismatchedAmount and
    onlyExternal are those of the external input, each once: none is in
    two buckets and none is dropped. *)
Theorem partition_completeness dbTxs csvTxs :
  NoDup (map Transaction.TransactionID dbTxs) ->
  NoDup (map ExternalTransaction.ExternalID csvTxs) ->
  (ledgerIDs (classify dbTxs csvTxs) ≡ₚ map Transaction.TransactionID dbTxs
   /\ NoDup (ledgerIDs (classify dbTxs csvTxs)))
  /\ (externalIDs (classify dbTxs csvTxs)
        ≡ₚ map ExternalTransaction.ExternalID csvTxs
      /\ NoDup (externalIDs (classify dbTxs csvTxs))).
Proof.
  intros Hdb Hcsv.
  destruct (matchLoop_Accounted dbTxs csvTxs Hdb Hcsv) as [Hrows Hrecords].
  set (st := matchLoop csvTxs dbTxs initialState) in *.
  assert (Hledger : ledgerIDs (classify dbTxs csvTxs)
                      ≡ₚ map Transaction.TransactionID dbTxs).
  { unfold ledgerIDs, classify. fold st. simpl.
    rewrite <- !(map_map fst Transaction.TransactionID).
    rewrite app_assoc, <- !map_app, (map_app fst), Hrows.
    unfold processedRows. rewrite filter_split. reflexivity. }
  assert (Hexternal : externalIDs (classify dbTxs csvTxs)
                        ≡ₚ map ExternalTransaction.ExternalID csvTxs).
  { unfold externalIDs, classify. fold st. simpl.
    rewrite <- !(map_map snd ExternalTransaction.ExternalID).
    rewrite app_assoc, <- !map_app, (map_app snd), Hrecords.
    unfold processedRecords. rewrite filter_split. reflexivity. }
  split; split; try assumption.
  - rewrite Hledger. exact Hdb.
  - rewrite Hexternal. exact Hcsv.
Qed.

Lemma partition_completeness_witness :
  (ledgerIDs (classify ledgerSample feedSample)
     ≡ₚ map Transaction.TransactionID ledgerSample
   /\ NoDup (ledgerIDs (classify ledgerSample feedSample)))
  /\ (externalIDs (classify ledgerSample feedSample)
        ≡ₚ map ExternalTransaction.ExternalID feedSample
      /\ NoDup (externalIDs (classify ledgerSample feedSample))).
Proof.
  apply (partition_completeness ledgerSample feedSample);
    apply (bool_decide_unpack _); vm_compute; reflexivity.
Defined.

(** The sample fills each bucket with one entry. *)
Example classify_sample :
  classify ledgerSample feedSample
  = {| matched := [(ledgerTx 1 "DEPOSIT" 100%float, externalRec "E1" 100%float "DEPOSIT")];
       mismatchedAmount :=
         [(ledgerTx 2 "withdrawal" (-50)%float,
           externalRec "E2" (-40)%float "WITHDRAWAL")];
       onlyInDB := [ledgerTx 3 "DEPOSIT" 10%float];
       onlyInCSV := [externalRec "E3" 5%float "FEE"] |}.
Proof. vm_compute. reflexivity. Qed.

(* ===================================================================== *)
(** ** Ledger rows under one identifier *)
(* ===================================================================== *)

(** C9. On a ledger of two rows that share the identifier 1, with a feed
    that matches the first, the second row is in no bucket: it is not the
    ledger member of a matched or of a mismatched pair, and it is not
    listed as only in the database. The identifiers of the buckets are
    then not those of the input. *)
Theorem duplicate_ledger_id_is_dropped :
  let first := ledgerTx 1 "DEPOSIT" 100%float in
  let second := ledgerTx 1 "WITHDRAWAL" 5%float in
  let o := classify duplicateLedger oneDeposit in
  duplicateLedger = [first; second]
  /\ Transaction.TransactionID first = Transaction.TransactionID second
  /\ In first (map fst (matched o))
  /\ ~ In second (map fst (matched o))
  /\ ~ In second (map fst (mismatchedAmount o))
  /\ ~ In second (onlyInDB o)
  /\ ~ (ledgerIDs o ≡ₚ map Transaction.TransactionID duplicateLedger).
Proof.
  cbv zeta.
  assert (Ho : classify duplicateLedger oneDeposit
               = {| matched := [(ledgerTx 1 "DEPOSIT" 100%float,
                                 externalRec "E1" 100%float "DEPOSIT")];
                    mismatchedAmount := []; onlyInDB := []; onlyInCSV := [] |})
    by (vm_compute; reflexivity).
  rewrite Ho. unfold ledgerIDs. simpl.
  repeat split.
  - left. reflexivity.
  - intros [Heq|[]]. discriminate Heq.
  - intros [].
  - intros [].
  - intros Hperm. apply Permutation_length in Hperm. discriminate Hperm.
Qed.

(* ===================================================================== *)
(** ** The two copies of the matcher *)
(* ===================================================================== *)

Lemma service_normalizedDBType dbTx :
  service.normalizedDBType dbTx = normalizedDBType dbTx.
Proof. reflexivity. Qed.

Lemma service_exactScan dbTx processed csvTxs :
  service.exactScan dbTx processed csvTxs = exactScan dbTx processed csvTxs.
Proof.
  induction csvTxs as [|csvTx rest IH]; simpl; [reflexivity|].
  rewrite IH, service_normalizedDBType. reflexivity.
Qed.

Lemma service_typeScan dbTx processed csvTxs :
  service.typeScan dbTx processed csvTxs = typeScan dbTx processed csvTxs.
Proof.
  induction csvTxs as [|csvTx rest IH]; simpl; [reflexivity|].
  rewrite IH, service_normalizedDBType. reflexivity.
Qed.

Lemma service_matchOne csvTxs st dbTx :
  service.matchOne csvTxs st dbTx = matchOne csvTxs st dbTx.
Proof.
  unfold service.matchOne, matchOne.
  rewrite service_exactScan, service_typeScan. reflexivity.
Qed.

Lemma service_classify dbTxs csvTxs :
  service.classify dbTxs csvTxs = classify dbTxs csvTxs.
Proof.
  unfold service.classify, classify, matchLoop.
  fold initialState.
  assert (Hloop : forall st,
             fold_left (service.matchOne csvTxs) dbTxs st
             = fold_left (matchOne csvTxs) dbTxs st).
  { induction dbTxs as [|dbTx rest IH]; intros st; simpl; [reflexivity|].
    rewrite service_matchOne. apply IH. }
  rewrite Hloop. reflexivity.
Qed.

Lemma service_reportSections fmt_d fmt_2f o :
  service.reportSections fmt_d fmt_2f o = reportSections fmt_d fmt_2f o.
Proof.
  unfold service.reportSections, reportSections, printSection.
  rewrite !length_map.
  assert (Hmatch : forall pairs : list Pair,
             map (fun p : Pair =>
                    "  MATCH: DB ID " +:+ fmt_d (Transaction.TransactionID (fst p))
                    +:+ " (" +:+ fmt_2f (Transaction.Amount (fst p))
                    +:+ " " +:+ service.normalizedDBType (fst p)
                    +:+ ") with CSV ID " +:+ ExternalTransaction.ExternalID (snd p)
                    +:+ " (" +:+ fmt_2f (ExternalTransaction.Amount (snd p))
                    +:+ " " +:+ ExternalTransaction.Type_ (snd p)
                    +:+ ", Ref: " +:+ ExternalTransaction.Reference (snd p) +:+ ")")
                 pairs
             = map (matchLine fmt_d fmt_2f) pairs).
  { intros pairs. apply map_ext. intros [dbTx csvTx]. reflexivity. }
  assert (Hmismatch : forall pairs : list Pair,
             map (fun p : Pair =>
                    "  MISMATCH_AMOUNT: DB ID "
                    +:+ fmt_d (Transaction.TransactionID (fst p))
                    +:+ " (" +:+ fmt_2f (Transaction.Amount (fst p))
                    +:+ " " +:+ service.normalizedDBType (fst p)
                    +:+ ") vs CSV ID " +:+ ExternalTransaction.ExternalID (snd p)
                    +:+ " (" +:+ fmt_2f (ExternalTransaction.Amount (snd p))
                    +:+ " " +:+ ExternalTransaction.Type_ (snd p)
                    +:+ ", Ref: " +:+ ExternalTransaction.Reference (snd p) +:+ ")")
                 pairs
             = map (mismatchLine fmt_d fmt_2f) pairs).
  { intros pairs. apply map_ext. intros [dbTx csvTx]. reflexivity. }
  rewrite Hmatch, Hmismatch. reflexivity.
Qed.

(** C6. The two copies agree. Whenever the service obtains the ledger
    sequence and the external sequence from its collaborators without
    error, it classifies them into the same four buckets as
    [reconcileTransactions], renders the same four sections, and writes
    the same report. *)
Theorem two_copies_agree (fmt_d : Z -> string) (fmt_2f : float -> string)
        (s : service.reconciliationServiceImpl) (csvFilePath : string)
        (databaseTransactions : slice Transaction.t)
        (csvTransactions : slice ExternalTransaction.t) :
  transactions (service.LoadExternalTransactions (service.dataLoader s) csvFilePath)
  = csvTransactions ->
  err (service.LoadExternalTransactions (service.dataLoader s) csvFilePath) = None ->
  service.GetAllTransactionsForReconciliation (service.transactionRepo s)
  = (databaseTransactions, None) ->
  let dbTxs := elems databaseTransactions in
  let csvTxs := elems csvTransactions in
  service.classify dbTxs csvTxs = classify dbTxs csvTxs
  /\ service.reportSections fmt_d fmt_2f (service.classify dbTxs csvTxs)
     = reportSections fmt_d fmt_2f (classify dbTxs csvTxs)
  /\ service.ReconcileTransactions fmt_d fmt_2f s csvFilePath
     = {| service.stdout := reconcileTransactions fmt_d fmt_2f dbTxs csvTxs;
          service.fatal := None |}.
Proof.
  intros Hcsv Herr Hdb. cbv zeta.
  split; [apply service_classify|].
  split; [rewrite service_classify; apply service_reportSections|].
  unfold service.ReconcileTransactions, reconcileTransactions.
  rewrite Herr, Hdb, Hcsv, service_classify, service_reportSections.
  reflexivity.
Qed.

Lemma two_copies_agree_witness :
  service.classify ledgerSample feedSample = classify ledgerSample feedSample
  /\ service.reportSections sample_fmt_d sample_fmt_2f
       (service.classify ledgerSample feedSample)
     = reportSections sample_fmt_d sample_fmt_2f (classify ledgerSample feedSample)
  /\ service.ReconcileTransactions sample_fmt_d sample_fmt_2f sampleService
       "data/external_transactions.csv"
     = {| service.stdout :=
            reconcileTransactions sample_fmt_d sample_fmt_2f ledgerSample feedSample;
          service.fatal := None |}.
Proof.
  apply (two_copies_agree sample_fmt_d sample_fmt_2f sampleService
           "data/external_transactions.csv"
           (make_slice ledgerSample) (make_slice feedSample));
    reflexivity.
Defined.

(* ===================================================================== *)
(** ** The matcher on the Go runtime: what a run owes to it *)
(* ===================================================================== *)

Section Hosted.

Variable rt : runtime.t.

Lemma SameMarks_Make {K : Type} `{Countable K} (maps : runtime.Map K) :
  SameMarks maps (runtime.Make maps) ∅.
Proof. intros k. rewrite runtime.Index_Make, index_empty. reflexivity. Qed.

Lemma SameMarks_Assign {K : Type} `{Countable K} (maps : runtime.Map K) hosted m k :
  SameMarks maps hosted m ->
  SameMarks maps (runtime.Assign maps hosted k true) (<[k := true]> m).
Proof.
  intros Hsame k'. destruct (decide (k = k')) as [<-|Hne].
  - rewrite runtime.Index_Assign_eq, index_insert_eq. reflexivity.
  - rewrite runtime.Index_Assign_ne, index_insert_ne by exact Hne. apply Hsame.
Qed.

Lemma hosted_exactScan dbTx hosted processed csvTxs :
  SameMarks (runtime.stringMaps rt) hosted processed ->
  OnRuntime.exactScan rt dbTx hosted csvTxs = exactScan dbTx processed csvTxs.
Proof.
  intros Hsame. induction csvTxs as [|csvTx rest IH]; simpl; [reflexivity|].
  rewrite Hsame, IH. reflexivity.
Qed.

Lemma hosted_typeScan dbTx hosted processed csvTxs :
  SameMarks (runtime.stringMaps rt) hosted processed ->
  OnRuntime.typeScan rt dbTx hosted csvTxs = typeScan dbTx processed csvTxs.
Proof.
  intros Hsame. induction csvTxs as [|csvTx rest IH]; simpl; [reflexivity|].
  rewrite Hsame, IH. reflexivity.
Qed.

Lemma hosted_matchOne csvTxs hosted st dbTx :
  SameState hosted st ->
  SameState (OnRuntime.matchOne rt csvTxs hosted dbTx) (matchOne csvTxs st dbTx).
Proof.
  intros Hsame. pose proof Hsame as (Hdb & Hcsv & Hfound & Hmis).
  unfold OnRuntime.matchOne, matchOne.
  rewrite Hdb, (hosted_exactScan dbTx _ _ csvTxs Hcsv),
    (hosted_typeScan dbTx _ _ csvTxs Hcsv).
  destruct (index (processedDBTx st) (Transaction.TransactionID dbTx)); [exact Hsame|].
  destruct (exactScan dbTx (processedCSVTx st) csvTxs) as [csvTx|].
  - unfold SameState. simpl. rewrite Hfound.
    repeat apply conj; try reflexivity; try exact Hmis;
      apply SameMarks_Assign; assumption.
  - destruct (typeScan dbTx (processedCSVTx st) csvTxs) as [csvTx|]; [|exact Hsame].
    unfold SameState. simpl. rewrite Hmis.
    repeat apply conj; try reflexivity; try exact Hfound;
      apply SameMarks_Assign; assumption.
Qed.

Lemma hosted_matchLoop csvTxs dbTxs : forall hosted st,
  SameState hosted st ->
  SameState (OnRuntime.matchLoop rt csvTxs dbTxs hosted) (matchLoop csvTxs dbTxs st).
Proof.
  induction dbTxs as [|dbTx rest IH]; intros hosted st Hsame; [exact Hsame|].
  apply IH, hosted_matchOne, Hsame.
Qed.

(** On any runtime the loops arrive at the classification computed on
    [gmap]s. *)
Lemma hosted_classify dbTxs csvTxs :
  OnRuntime.classify rt dbTxs csvTxs = classify dbTxs csvTxs.
Proof.
  assert (Hstart : SameState (OnRuntime.initialState rt) initialState).
  { unfold SameState. simpl. repeat apply conj; try reflexivity; apply SameMarks_Make. }
  pose proof (hosted_matchLoop csvTxs dbTxs _ _ Hstart) as (Hdb & Hcsv & Hfound & Hmis).
  unfold OnRuntime.classify, classify. cbv zeta. rewrite Hfound, Hmis.
  f_equal; apply filter_ext; intros x; rewrite ?Hdb, ?Hcsv; reflexivity.
Qed.

End Hosted.

(** The runtimes quantified over are not all alike: after the same two
    assignments the two sample runtimes visit the entries in opposite
    orders, they deliver other random values and show another time. *)
Example runtimes_differ :
  runtime.Range (runtime.int64Maps keyOrderedRuntime)
    (runtime.Assign _ (runtime.Assign _ (runtime.Make _) 2 true) 1 true)
  = [(2, true); (1, true)]
  /\ runtime.Range (runtime.int64Maps recentFirstRuntime)
       (runtime.Assign _ (runtime.Assign _ (runtime.Make _) 2 true) 1 true)
     = [(1, true); (2, true)]
  /\ runtime.random keyOrderedRuntime 1 <> runtime.random recentFirstRuntime 1
  /\ runtime.now keyOrderedRuntime 0 <> runtime.now recentFirstRuntime 0.
Proof.
  repeat apply conj.
  - vm_compute. reflexivity.
  - vm_compute. reflexivity.
  - vm_compute. discriminate.
  - vm_compute. discriminate.
Qed.

(** C8. Two runs of the matcher on the same two ordered sequences end
    with the same classification into the four buckets, whatever the
    runtimes of the two runs are: whatever implementation of maps each
    has, with whatever order of iteration over them, whatever its random
    source delivers and whatever its clock shows. The loops read and
    write the maps by key only, and the laws of reading and writing by
    key are all the proof uses of a runtime. *)
Theorem reconcile_deterministic (rt1 rt2 : runtime.t) dbTxs csvTxs :
  OnRuntime.classify rt1 dbTxs csvTxs = OnRuntime.classify rt2 dbTxs csvTxs.
Proof. rewrite !hosted_classify. reflexivity. Qed.

Lemma reconcile_deterministic_witness :
  OnRuntime.classify keyOrderedRuntime ledgerSample feedSample
  = OnRuntime.classify recentFirstRuntime ledgerSample feedSample.
Proof. apply (reconcile_deterministic keyOrderedRuntime recentFirstRuntime). Defined.

(** On the second runtime the sample is classified as on [gmap]s, by
    evaluation of the loops on its lists. *)
Example classify_on_recentFirstRuntime :
  OnRuntime.classify recentFirstRuntime ledgerSample feedSample
  = {| matched := [(ledgerTx 1 "DEPOSIT" 100%float, externalRec "E1" 100%float "DEPOSIT")];
       mismatchedAmount :=
         [(ledgerTx 2 "withdrawal" (-50)%float,
           externalRec "E2" (-40)%float "WITHDRAWAL")];
       onlyInDB := [ledgerTx 3 "DEPOSIT" 10%float];
       onlyInCSV := [externalRec "E3" 5%float "FEE"] |}.
Proof. vm_compute. reflexivity. Qed.


(* ===================================================================== *)
(** ** The matcher against the two-pass reference *)
(* ===================================================================== *)

(** *** First fit in the reference *)

Lemma firstFit_Some accept consumed recs rec :
  Reference.firstFit accept consumed recs = Some rec ->
  In rec recs
  /\ (ExternalTransaction.ExternalID rec ∉ consumed)
  /\ accept rec = true.
Proof.
  unfold Reference.firstFit. intros Hfind.
  apply find_some in Hfind as [Hin Hok].
  apply andb_true_iff in Hok as [Hfree Haccept].
  apply bool_decide_eq_true in Hfree. auto.
Qed.

Lemma firstFit_grow_Some accept consumed consumed' recs rec :
  Reference.firstFit accept consumed recs = Some rec ->
  consumed ⊆ consumed' ->
  ExternalTransaction.ExternalID rec ∉ consumed' ->
  Reference.firstFit accept consumed' recs = Some rec.
Proof.
  unfold Reference.firstFit. intros Hfind Hsub Hfree.
  induction recs as [|r recs IH]; simpl in *; [discriminate|].
  destruct (bool_decide (ExternalTransaction.ExternalID r ∉ consumed)) eqn:Hr; simpl in *.
  - destruct (accept r) eqn:Haccept.
    + injection Hfind as ->.
      rewrite bool_decide_eq_true_2 by exact Hfree. reflexivity.
    + rewrite andb_false_r. apply IH. exact Hfind.
  - apply bool_decide_eq_false in Hr.
    rewrite bool_decide_eq_false_2
      by (intros Hfree'; apply Hr; intros Hin; apply Hfree', Hsub, Hin).
    simpl. apply IH. exact Hfind.
Qed.

Lemma firstFit_grow_None accept consumed consumed' recs :
  Reference.firstFit accept consumed recs = None ->
  consumed ⊆ consumed' ->
  Reference.firstFit accept consumed' recs = None.
Proof.
  unfold Reference.firstFit. intros Hfind Hsub.
  induction recs as [|r recs IH]; simpl in *; [reflexivity|].
  destruct (bool_decide (ExternalTransaction.ExternalID r ∉ consumed)) eqn:Hr; simpl in *.
  - destruct (accept r) eqn:Haccept; [discriminate|].
    rewrite andb_false_r. apply IH. exact Hfind.
  - apply bool_decide_eq_false in Hr.
    rewrite bool_decide_eq_false_2
      by (intros Hfree'; apply Hr; intros Hin; apply Hfree', Hsub, Hin).
    simpl. apply IH. exact Hfind.
Qed.

(** Consuming an identifier that no acceptable record carries does not
    change the first fit. *)
Lemma firstFit_ignore accept consumed recs id :
  (forall rec, In rec recs -> ExternalTransaction.ExternalID rec = id ->
               accept rec = false) ->
  Reference.firstFit accept ({[id]} ∪ consumed) recs
  = Reference.firstFit accept consumed recs.
Proof.
  unfold Reference.firstFit. intros Hid.
  induction recs as [|r recs IH]; simpl; [reflexivity|].
  rewrite IH by (intros rec Hin; apply Hid; right; exact Hin).
  destruct (decide (ExternalTransaction.ExternalID r = id)) as [Heq|Hne].
  - rewrite (Hid r (or_introl eq_refl) Heq). rewrite !andb_false_r. reflexivity.
  - replace (bool_decide (ExternalTransaction.ExternalID r ∉ {[id]} ∪ consumed))
      with (bool_decide (ExternalTransaction.ExternalID r ∉ consumed));
      [reflexivity|].
    apply bool_decide_ext. rewrite elem_of_union, elem_of_singleton. tauto.
Qed.

(** *** The scans of the code are first fits *)

Lemma exactScan_firstFit dbTx processed consumed csvTxs :
  (forall id, index processed id = true <-> id ∈ consumed) ->
  exactScan dbTx processed csvTxs
  = Reference.firstFit
      (fun rec => Reference.sameType dbTx rec && Reference.sameAmount dbTx rec)
      consumed csvTxs.
Proof.
  intros Hsame. unfold Reference.firstFit.
  induction csvTxs as [|csvTx rest IH]; simpl; [reflexivity|].
  rewrite IH.
  destruct (index processed (ExternalTransaction.ExternalID csvTx)) eqn:Hmarked.
  - apply Hsame in Hmarked.
    rewrite bool_decide_eq_false_2 by (intros Hfree; exact (Hfree Hmarked)).
    reflexivity.
  - rewrite bool_decide_eq_true_2; [reflexivity|].
    intros Hin. apply Hsame in Hin. congruence.
Qed.

Lemma typeScan_firstFit dbTx processed consumed csvTxs :
  (forall id, index processed id = true <-> id ∈ consumed) ->
  typeScan dbTx processed csvTxs
  = Reference.firstFit (Reference.sameType dbTx) consumed csvTxs.
Proof.
  intros Hsame. unfold Reference.firstFit.
  induction csvTxs as [|csvTx rest IH]; simpl; [reflexivity|].
  rewrite IH.
  destruct (index processed (ExternalTransaction.ExternalID csvTx)) eqn:Hmarked.
  - apply Hsame in Hmarked.
    rewrite bool_decide_eq_false_2 by (intros Hfree; exact (Hfree Hmarked)).
    reflexivity.
  - rewrite bool_decide_eq_true_2; [reflexivity|].
    intros Hin. apply Hsame in Hin. congruence.
Qed.

(** *** Pass 1 of the reference *)

Lemma exactStep_cases recs rs tx :
  Reference.exactStep recs rs tx = rs
  \/ exists rec,
       In rec recs /\ exactly tx rec = true
       /\ Reference.exactStep recs rs tx = consumeExact rs tx rec.
Proof.
  unfold Reference.exactStep.
  destruct (bool_decide (Transaction.TransactionID tx ∈ Reference.consumedLedger rs));
    [left; reflexivity|].
  destruct (Reference.firstFit _ _ recs) as [rec|] eqn:Hfit; [|left; reflexivity].
  right. exists rec. apply firstFit_Some in Hfit as (Hin & _ & Haccept).
  repeat split; assumption.
Qed.

(** What pass 1 may have consumed when it ends: what was consumed when it
    began, ledger transactions of its sequence, and external records that
    are the exact match of one of these. It records no type-only pair. *)
Lemma pass1_effect recs ledgerTxs : forall rs,
  Reference.consumedLedger rs ⊆ Reference.consumedLedger (Reference.pass1 recs ledgerTxs rs)
  /\ Reference.consumedExternal rs
       ⊆ Reference.consumedExternal (Reference.pass1 recs ledgerTxs rs)
  /\ (forall id, id ∈ Reference.consumedLedger (Reference.pass1 recs ledgerTxs rs) ->
        id ∈ Reference.consumedLedger rs
        \/ In id (map Transaction.TransactionID ledgerTxs))
  /\ (forall id, id ∈ Reference.consumedExternal (Reference.pass1 recs ledgerTxs rs) ->
        id ∈ Reference.consumedExternal rs
        \/ exists tx rec, In tx ledgerTxs /\ In rec recs
                          /\ ExternalTransaction.ExternalID rec = id
                          /\ exactly tx rec = true)
  /\ Reference.typeOnlyPairs (Reference.pass1 recs ledgerTxs rs)
     = Reference.typeOnlyPairs rs.
Proof.
  unfold Reference.pass1.
  induction ledgerTxs as [|tx rest IH]; intros rs; simpl.
  - repeat split; auto.
  - destruct (IH (Reference.exactStep recs rs tx)) as (HL & HE & HL' & HE' & HT).
    destruct (exactStep_cases recs rs tx) as [Hstep|(rec & Hin & Hexact & Hstep)];
      rewrite Hstep in *.
    + repeat split; try assumption.
      * intros id Hid. destruct (HL' id Hid); auto.
      * intros id Hid. destruct (HE' id Hid) as [|(tx' & rec' & ? & ? & ? & ?)]; auto.
        right. exists tx', rec'. auto.
    + simpl in *. repeat split.
      * etrans; [apply union_subseteq_r|exact HL].
      * etrans; [apply union_subseteq_r|exact HE].
      * intros id Hid. destruct (HL' id Hid) as [Hin'|]; auto.
        apply elem_of_union in Hin' as [Hin'|]; auto.
        apply elem_of_singleton in Hin' as ->. auto.
      * intros id Hid. destruct (HE' id Hid) as [Hin'|(tx' & rec' & ? & ? & ? & ?)].
        -- apply elem_of_union in Hin' as [Hin'|]; auto.
           apply elem_of_singleton in Hin' as ->.
           right. exists tx, rec. auto.
        -- right. exists tx', rec'. auto.
      * exact HT.
Qed.

(** A type-only pairing made before pass 1 could as well be made after it,
    when pass 1 meets neither of the two records. *)
Lemma exactStep_consumeTypeOnly recs rs tx rec tx' :
  Transaction.TransactionID tx' <> Transaction.TransactionID tx ->
  (forall r, In r recs ->
     ExternalTransaction.ExternalID r = ExternalTransaction.ExternalID rec ->
     exactly tx' r = false) ->
  Reference.exactStep recs (consumeTypeOnly rs tx rec) tx'
  = consumeTypeOnly (Reference.exactStep recs rs tx') tx rec.
Proof.
  intros Hne Hrec. unfold Reference.exactStep. simpl.
  replace (bool_decide (Transaction.TransactionID tx'
                          ∈ {[Transaction.TransactionID tx]} ∪ Reference.consumedLedger rs))
    with (bool_decide (Transaction.TransactionID tx' ∈ Reference.consumedLedger rs))
    by (apply bool_decide_ext; rewrite elem_of_union, elem_of_singleton; tauto).
  destruct (bool_decide (Transaction.TransactionID tx' ∈ Reference.consumedLedger rs));
    [reflexivity|].
  rewrite firstFit_ignore by exact Hrec.
  destruct (Reference.firstFit _ _ recs) as [r|]; [|reflexivity].
  unfold consumeTypeOnly. simpl.
  f_equal; apply set_eq; intros x; rewrite !elem_of_union; tauto.
Qed.

Lemma pass1_consumeTypeOnly recs ledgerTxs tx rec : forall rs,
  ~ In (Transaction.TransactionID tx) (map Transaction.TransactionID ledgerTxs) ->
  (forall tx' r, In tx' ledgerTxs -> In r recs ->
     ExternalTransaction.ExternalID r = ExternalTransaction.ExternalID rec ->
     exactly tx' r = false) ->
  Reference.pass1 recs ledgerTxs (consumeTypeOnly rs tx rec)
  = consumeTypeOnly (Reference.pass1 recs ledgerTxs rs) tx rec.
Proof.
  unfold Reference.pass1.
  induction ledgerTxs as [|tx' rest IH]; intros rs Hfresh Hrec; simpl; [reflexivity|].
  rewrite exactStep_consumeTypeOnly.
  - apply IH.
    + intros Hin. apply Hfresh. right. exact Hin.
    + intros tx'' r Hin. apply Hrec. right. exact Hin.
  - intros Heq. apply Hfresh. left. exact Heq.
  - intros r. apply Hrec. left. reflexivity.
Qed.

(** *** The loop of the code against the two passes *)

Lemma NoDup_key_inj {A K : Type} (key : A -> K) (l : list A) x y :
  NoDup (map key l) -> In x l -> In y l -> key x = key y -> x = y.
Proof.
  induction l as [|z l IH]; intros Hnodup Hx Hy Heq; [destruct Hx|].
  simpl in Hnodup. apply NoDup_cons in Hnodup as [Hz Hnodup].
  assert (Hfresh : forall w, In w l -> key w <> key z).
  { intros w Hw Hkey. apply Hz. rewrite <- Hkey.
    apply list_elem_of_In, in_map, Hw. }
  destruct Hx as [->|Hx], Hy as [->|Hy].
  - reflexivity.
  - exfalso. exact (Hfresh y Hy (eq_sym Heq)).
  - exfalso. exact (Hfresh x Hx Heq).
  - exact (IH Hnodup Hx Hy Heq).
Qed.

Lemma Corresponds_initial : Corresponds initialState Reference.start.
Proof.
  unfold Corresponds. simpl. repeat split; try reflexivity.
  - rewrite index_empty. discriminate.
  - intros Hin. apply not_elem_of_empty in Hin. destruct Hin.
  - rewrite index_empty. discriminate.
  - intros Hin. apply not_elem_of_empty in Hin. destruct Hin.
Qed.

Lemma index_insert_iff {K : Type} `{Countable K} (m : gmap K bool) (consumed : gset K)
      (k id : K) :
  (forall id, index m id = true <-> id ∈ consumed) ->
  index (<[k := true]> m) id = true <-> id ∈ ({[k]} ∪ consumed : gset K).
Proof.
  intros Hsame. rewrite elem_of_union, elem_of_singleton, <- Hsame.
  destruct (decide (k = id)) as [->|Hne].
  - rewrite index_insert_eq. split; auto.
  - rewrite index_insert_ne by exact Hne. split; auto.
    intros [Heq|Hin]; [congruence|exact Hin].
Qed.

Lemma Corresponds_markMatch st rs dbTx csvTx :
  Corresponds st rs ->
  Corresponds (markMatch st dbTx csvTx) (consumeExact rs dbTx csvTx).
Proof.
  intros (HL & HE & HM & HX). unfold Corresponds, markMatch, consumeExact. simpl.
  repeat apply conj.
  - intros id. apply index_insert_iff. exact HL.
  - intros id. apply index_insert_iff. exact HE.
  - rewrite HM. reflexivity.
  - exact HX.
Qed.

Lemma Corresponds_markMismatch st rs dbTx csvTx :
  Corresponds st rs ->
  Corresponds (markMismatch st dbTx csvTx) (consumeTypeOnly rs dbTx csvTx).
Proof.
  intros (HL & HE & HM & HX). unfold Corresponds, markMismatch, consumeTypeOnly. simpl.
  repeat apply conj.
  - intros id. apply index_insert_iff. exact HL.
  - intros id. apply index_insert_iff. exact HE.
  - exact HM.
  - rewrite HX. reflexivity.
Qed.

(** Pass 2 leaves alone a ledger transaction that is consumed already. *)
Lemma typeOnlyStep_consumed recs rs tx :
  Transaction.TransactionID tx ∈ Reference.consumedLedger rs ->
  Reference.typeOnlyStep recs rs tx = rs.
Proof.
  intros Hin. unfold Reference.typeOnlyStep.
  rewrite bool_decide_eq_true_2 by exact Hin. reflexivity.
Qed.

(** One turn of the loop of the code is pass 1 and pass 2 on the same
    ledger transaction, with the rest of pass 1 moved before pass 2. *)
Lemma matchOne_two_pass csvTxs st rs dbTx rest :
  NoDup (map ExternalTransaction.ExternalID csvTxs) ->
  NoDup (map Transaction.TransactionID (dbTx :: rest)) ->
  Corresponds st rs ->
  NoneStolen csvTxs (dbTx :: rest) st ->
  exists rs',
    Corresponds (matchOne csvTxs st dbTx) rs'
    /\ Reference.typeOnlyStep csvTxs
         (Reference.pass1 csvTxs rest (Reference.exactStep csvTxs rs dbTx)) dbTx
       = Reference.pass1 csvTxs rest rs'.
Proof.
  intros Hcsv Hdb Hst [Hsafe _].
  pose proof Hst as (HL & HE & HM & HX).
  simpl in Hdb. apply NoDup_cons in Hdb as [Hfresh _].
  rewrite list_elem_of_In in Hfresh.
  unfold matchOne, Reference.exactStep.
  destruct (index (processedDBTx st) (Transaction.TransactionID dbTx)) eqn:Hmarked.
  { (* the row is marked: both algorithms pass over it *)
    apply HL in Hmarked. rewrite bool_decide_eq_true_2 by exact Hmarked.
    exists rs. split; [exact Hst|].
    apply typeOnlyStep_consumed.
    apply (proj1 (pass1_effect csvTxs rest rs)). exact Hmarked. }
  assert (Hunmarked : Transaction.TransactionID dbTx ∉ Reference.consumedLedger rs).
  { intros Hin. apply HL in Hin. congruence. }
  rewrite bool_decide_eq_false_2 by exact Hunmarked.
  rewrite <- (exactScan_firstFit dbTx (processedCSVTx st)) by exact HE.
  destruct (exactScan dbTx (processedCSVTx st) csvTxs) as [csvTx|] eqn:Hexact.
  { (* an exact match: made by pass 1, and pass 2 passes over the row *)
    exists (consumeExact rs dbTx csvTx). split.
    - apply Corresponds_markMatch. exact Hst.
    - apply typeOnlyStep_consumed.
      apply (proj1 (pass1_effect csvTxs rest (consumeExact rs dbTx csvTx))).
      simpl. apply elem_of_union_l, elem_of_singleton. reflexivity. }
  assert (Hstill : Transaction.TransactionID dbTx
                     ∉ Reference.consumedLedger (Reference.pass1 csvTxs rest rs)).
  { intros Hin.
    destruct (pass1_effect csvTxs rest rs) as (_ & _ & Hbound & _).
    destruct (Hbound _ Hin); [apply Hunmarked|apply Hfresh]; assumption. }
  destruct (typeScan dbTx (processedCSVTx st) csvTxs) as [csvTx|] eqn:Htype.
  - (* a type-only pairing: pass 1 on the rest does not meet the record *)
    pose proof (Hsafe csvTx eq_refl eq_refl eq_refl) as Hlater.
    rewrite (typeScan_firstFit dbTx (processedCSVTx st) _ csvTxs HE) in Htype.
    destruct (firstFit_Some _ _ _ _ Htype) as (Hin & Hfree & _).
    assert (Hsame : forall tx' r, In tx' rest -> In r csvTxs ->
               ExternalTransaction.ExternalID r = ExternalTransaction.ExternalID csvTx ->
               exactly tx' r = false).
    { intros tx' r Htx' Hr Hid.
      rewrite (NoDup_key_inj ExternalTransaction.ExternalID csvTxs r csvTx Hcsv Hr Hin Hid).
      apply Hlater. exact Htx'. }
    exists (consumeTypeOnly rs dbTx csvTx). split.
    + apply Corresponds_markMismatch. exact Hst.
    + rewrite pass1_consumeTypeOnly by assumption.
      unfold Reference.typeOnlyStep.
      rewrite bool_decide_eq_false_2 by exact Hstill.
      rewrite (firstFit_grow_Some _ _ _ _ _ Htype); [reflexivity| |].
      * apply (pass1_effect csvTxs rest rs).
      * intros Hconsumed.
        destruct (pass1_effect csvTxs rest rs) as (_ & _ & _ & Hbound & _).
        destruct (Hbound _ Hconsumed) as [|(tx' & r & Htx' & Hr & Hid & Hmatch)];
          [contradiction|].
        rewrite (Hsame tx' r Htx' Hr Hid) in Hmatch. discriminate Hmatch.
  - (* no pairing: pass 2 finds nothing either, later as it comes *)
    exists rs. split; [exact Hst|].
    rewrite (typeScan_firstFit dbTx (processedCSVTx st) _ csvTxs HE) in Htype.
    unfold Reference.typeOnlyStep.
    rewrite bool_decide_eq_false_2 by exact Hstill.
    rewrite (firstFit_grow_None _ _ _ _ Htype); [reflexivity|].
    apply (pass1_effect csvTxs rest rs).
Qed.

Lemma matchLoop_two_pass csvTxs :
  NoDup (map ExternalTransaction.ExternalID csvTxs) ->
  forall dbTxs st rs,
    NoDup (map Transaction.TransactionID dbTxs) ->
    Corresponds st rs ->
    NoneStolen csvTxs dbTxs st ->
    Corresponds (matchLoop csvTxs dbTxs st)
      (Reference.pass2 csvTxs dbTxs (Reference.pass1 csvTxs dbTxs rs)).
Proof.
  intros Hcsv. induction dbTxs as [|dbTx rest IH]; intros st rs Hdb Hst Hsafe.
  - exact Hst.
  - destruct (matchOne_two_pass csvTxs st rs dbTx rest Hcsv Hdb Hst Hsafe)
      as (rs' & Hst' & Hstep).
    unfold matchLoop, Reference.pass2, Reference.pass1 in *. simpl.
    rewrite Hstep. apply IH.
    + simpl in Hdb. apply NoDup_cons in Hdb as [_ Hdb]. exact Hdb.
    + exact Hst'.
    + exact (proj2 Hsafe).
Qed.

Lemma Corresponds_outcome dbTxs csvTxs st rs :
  Corresponds st rs ->
  {| matched := foundInBoth st;
     mismatchedAmount := mismatchedAmounts st;
     onlyInDB :=
       List.filter
         (fun dbTx => negb (index (processedDBTx st) (Transaction.TransactionID dbTx)))
         dbTxs;
     onlyInCSV :=
       List.filter
         (fun csvTx =>
            negb (index (processedCSVTx st) (ExternalTransaction.ExternalID csvTx)))
         csvTxs |}
  = Reference.outcome dbTxs csvTxs rs.
Proof.
  intros (HL & HE & HM & HX). unfold Reference.outcome. f_equal; try assumption.
  - apply filter_ext. intros dbTx.
    destruct (index (processedDBTx st) (Transaction.TransactionID dbTx)) eqn:Hmarked; simpl.
    + apply HL in Hmarked. symmetry. apply bool_decide_eq_false_2. auto.
    + symmetry. apply bool_decide_eq_true_2. intros Hin. apply HL in Hin. congruence.
  - apply filter_ext. intros csvTx.
    destruct (index (processedCSVTx st) (ExternalTransaction.ExternalID csvTx))
      eqn:Hmarked; simpl.
    + apply HE in Hmarked. symmetry. apply bool_decide_eq_false_2. auto.
    + symmetry. apply bool_decide_eq_true_2. intros Hin. apply HE in Hin. congruence.
Qed.

(** A pair once recorded as mismatched stays recorded. *)
Lemma matchLoop_keeps_mismatched csvTxs dbTxs : forall st p,
  In p (mismatchedAmounts st) ->
  In p (mismatchedAmounts (matchLoop csvTxs dbTxs st)).
Proof.
  unfold matchLoop.
  induction dbTxs as [|dbTx rest IH]; intros st p Hin; simpl; [exact Hin|].
  apply IH. unfold matchOne.
  destruct (index (processedDBTx st) (Transaction.TransactionID dbTx)); [exact Hin|].
  destruct (exactScan dbTx (processedCSVTx st) csvTxs); [exact Hin|].
  destruct (typeScan dbTx (processedCSVTx st) csvTxs); [|exact Hin].
  simpl. apply in_or_app. left. exact Hin.
Qed.

(** The condition read off the buckets gives the condition along the loop. *)
Lemma NoneStolen_from_buckets csvTxs : forall rest before st,
  (forall front dbTx after csvTx,
      before ++ rest = front ++ dbTx :: after ->
      In (dbTx, csvTx) (mismatchedAmounts (matchLoop csvTxs rest st)) ->
      forall later, In later after -> exactly later csvTx = false) ->
  NoneStolen csvTxs rest st.
Proof.
  induction rest as [|dbTx rest IH]; intros before st Hbuckets; simpl; [exact I|].
  split.
  - intros csvTx Hmarked Hexact Htype.
    apply (Hbuckets before dbTx rest csvTx eq_refl).
    unfold matchLoop. simpl. apply matchLoop_keeps_mismatched.
    unfold matchOne. rewrite Hmarked, Hexact, Htype. simpl.
    apply in_or_app. right. left. reflexivity.
  - apply (IH (before ++ [dbTx])).
    intros front tx after csvTx Hsplit. rewrite <- app_assoc in Hsplit.
    exact (Hbuckets front tx after csvTx Hsplit).
Qed.

(** On the two deposits, the code pairs the large one with the small
    deposit of the feed and leaves the small one alone; the reference
    matches the small one exactly and leaves the large one alone. *)
Example classify_twoDeposits :
  classify twoDeposits smallDeposit
  = {| matched := [];
       mismatchedAmount :=
         [(ledgerTx 1 "DEPOSIT" 100%float, externalRec "E1" 50%float "DEPOSIT")];
       onlyInDB := [ledgerTx 2 "DEPOSIT" 50%float];
       onlyInCSV := [] |}.
Proof. vm_compute. reflexivity. Qed.

Example reference_twoDeposits :
  Reference.reconcile twoDeposits smallDeposit
  = {| matched :=
         [(ledgerTx 2 "DEPOSIT" 50%float, externalRec "E1" 50%float "DEPOSIT")];
       mismatchedAmount := [];
       onlyInDB := [ledgerTx 1 "DEPOSIT" 100%float];
       onlyInCSV := [] |}.
Proof. vm_compute. reflexivity. Qed.

(** The two conditions on identifiers are needed as well. Under a shared
    ledger identifier the code passes over the second row once the first
    is paired, while pass 1 of the reference still reaches it; under a
    shared external identifier, consuming one record hides the other. *)
Example shared_ledger_id_differs :
  classify sharedLedgerID twoRecords <> Reference.reconcile sharedLedgerID twoRecords.
Proof.
  assert (Hcode : matched (classify sharedLedgerID twoRecords) = [])
    by (vm_compute; reflexivity).
  assert (Href : matched (Reference.reconcile sharedLedgerID twoRecords)
                 = [(ledgerTx 1 "DEPOSIT" 50%float, externalRec "E2" 50%float "DEPOSIT")])
    by (vm_compute; reflexivity).
  intros Heq. rewrite Heq, Href in Hcode. discriminate Hcode.
Qed.

Example shared_external_id_differs :
  classify twoDeposits sharedExternalID
  <> Reference.reconcile twoDeposits sharedExternalID.
Proof.
  assert (Hcode : matched (classify twoDeposits sharedExternalID) = [])
    by (vm_compute; reflexivity).
  assert (Href : matched (Reference.reconcile twoDeposits sharedExternalID)
                 = [(ledgerTx 2 "DEPOSIT" 50%float, externalRec "E1" 50%float "DEPOSIT")])
    by (vm_compute; reflexivity).
  intros Heq. rewrite Heq, Href in Hcode. discriminate Hcode.
Qed.

(** C1, as stated, fails: on the two deposits the classification of the
    code is not that of the two-pass reference. The type-only pairing of
    the first ledger transaction consumes the record that matches the
    second one exactly. *)
Lemma two_pass_counterexample :
  classify twoDeposits smallDeposit <> Reference.reconcile twoDeposits smallDeposit.
Proof.
  rewrite classify_twoDeposits, reference_twoDeposits. discriminate.
Qed.

(** C1, amended. The code runs the exact scan and then the type-only scan
    for one ledger transaction before it turns to the next. When the
    identifiers of each input are pairwise distinct, and no pair of its
    mismatched-amount bucket holds an external record that is an exact
    match of a ledger transaction later in input order, its
    classification is that of the reference algorithm, which completes the
    exact pass over the whole ledger before the type-only pass. *)
Theorem interleaved_equals_two_pass dbTxs csvTxs :
  NoDup (map Transaction.TransactionID dbTxs) ->
  NoDup (map ExternalTransaction.ExternalID csvTxs) ->
  (forall front dbTx after csvTx,
      dbTxs = front ++ dbTx :: after ->
      In (dbTx, csvTx) (mismatchedAmount (classify dbTxs csvTxs)) ->
      forall later, In later after -> exactly later csvTx = false) ->
  classify dbTxs csvTxs = Reference.reconcile dbTxs csvTxs.
Proof.
  intros Hdb Hcsv Hbuckets.
  unfold classify, Reference.reconcile. cbv zeta.
  apply Corresponds_outcome.
  apply matchLoop_two_pass; try assumption.
  - apply Corresponds_initial.
  - apply (NoneStolen_from_buckets csvTxs dbTxs []). exact Hbuckets.
Qed.

Lemma interleaved_equals_two_pass_witness :
  classify ledgerSample feedSample = Reference.reconcile ledgerSample feedSample.
Proof.
  apply (interleaved_equals_two_pass ledgerSample feedSample).
  - apply (bool_decide_unpack _). vm_compute. reflexivity.
  - apply (bool_decide_unpack _). vm_compute. reflexivity.
  - intros front dbTx after csvTx Hsplit Hin later Hlater.
    rewrite classify_sample in Hin. simpl in Hin.
    destruct Hin as [Hpair|[]]. injection Hpair as <- <-.
    unfold ledgerSample in Hsplit.
    destruct front as [|tx1 [|tx2 [|tx3 front]]]; simpl in Hsplit.
    + discriminate Hsplit.
    + injection Hsplit as _ <-. destruct Hlater as [<-|[]]. reflexivity.
    + discriminate Hsplit.
    + destruct front; discriminate Hsplit.
Defined.

(* ===================================================================== *)
(** ** The matcher: what every run guarantees *)
(* ===================================================================== *)

Lemma typeScan_None dbTx processed csvTxs :
  typeScan dbTx processed csvTxs = None ->
  forall csvTx, In csvTx csvTxs ->
    index processed (ExternalTransaction.ExternalID csvTx) = false ->
    String.eqb (normalizedDBType dbTx) (ExternalTransaction.Type_ csvTx) = false.
Proof.
  induction csvTxs as [|c rest IH]; simpl; [intros _ ? []|].
  destruct (index processed (ExternalTransaction.ExternalID c)) eqn:Hc.
  - intros Hscan csvTx [<-|Hin] Hfree; [congruence|]. exact (IH Hscan csvTx Hin Hfree).
  - destruct (String.eqb (normalizedDBType dbTx) (ExternalTransaction.Type_ c))
      eqn:Htype; [discriminate|].
    intros Hscan csvTx [<-|Hin] Hfree; [exact Htype|]. exact (IH Hscan csvTx Hin Hfree).
Qed.

(** The three ways a turn of the loop can go. *)
Lemma matchOne_cases csvTxs st dbTx :
  (matchOne csvTxs st dbTx = st
   /\ (index (processedDBTx st) (Transaction.TransactionID dbTx) = true
       \/ (exactScan dbTx (processedCSVTx st) csvTxs = None
           /\ typeScan dbTx (processedCSVTx st) csvTxs = None)))
  \/ (exists csvTx,
        index (processedDBTx st) (Transaction.TransactionID dbTx) = false
        /\ exactScan dbTx (processedCSVTx st) csvTxs = Some csvTx
        /\ matchOne csvTxs st dbTx = markMatch st dbTx csvTx)
  \/ (exists csvTx,
        index (processedDBTx st) (Transaction.TransactionID dbTx) = false
        /\ exactScan dbTx (processedCSVTx st) csvTxs = None
        /\ typeScan dbTx (processedCSVTx st) csvTxs = Some csvTx
        /\ matchOne csvTxs st dbTx = markMismatch st dbTx csvTx).
Proof.
  unfold matchOne.
  destruct (index (processedDBTx st) (Transaction.TransactionID dbTx)); [auto|].
  destruct (exactScan dbTx (processedCSVTx st) csvTxs) as [csvTx|].
  - right. left. exists csvTx. auto.
  - destruct (typeScan dbTx (processedCSVTx st) csvTxs) as [csvTx|].
    + right. right. exists csvTx. auto.
    + left. auto.
Qed.

(** A mark, once set, stays. *)
Lemma matchOne_keeps_marks csvTxs st dbTx :
  (forall id, index (processedDBTx st) id = true ->
              index (processedDBTx (matchOne csvTxs st dbTx)) id = true)
  /\ (forall id, index (processedCSVTx st) id = true ->
                 index (processedCSVTx (matchOne csvTxs st dbTx)) id = true).
Proof.
  destruct (matchOne_cases csvTxs st dbTx)
    as [[-> _]|[(csvTx & _ & _ & ->)|(csvTx & _ & _ & _ & ->)]]; simpl.
  - auto.
  - split; intros id Hid.
    + destruct (decide (Transaction.TransactionID dbTx = id)) as [->|Hne];
        [apply index_insert_eq|rewrite index_insert_ne; assumption].
    + destruct (decide (ExternalTransaction.ExternalID csvTx = id)) as [->|Hne];
        [apply index_insert_eq|rewrite index_insert_ne; assumption].
  - split; intros id Hid.
    + destruct (decide (Transaction.TransactionID dbTx = id)) as [->|Hne];
        [apply index_insert_eq|rewrite index_insert_ne; assumption].
    + destruct (decide (ExternalTransaction.ExternalID csvTx = id)) as [->|Hne];
        [apply index_insert_eq|rewrite index_insert_ne; assumption].
Qed.

Lemma matchLoop_keeps_marks csvTxs dbTxs : forall st,
  (forall id, index (processedDBTx st) id = true ->
              index (processedDBTx (matchLoop csvTxs dbTxs st)) id = true)
  /\ (forall id, index (processedCSVTx st) id = true ->
                 index (processedCSVTx (matchLoop csvTxs dbTxs st)) id = true).
Proof.
  unfold matchLoop.
  induction dbTxs as [|dbTx rest IH]; intros st; simpl; [auto|].
  destruct (IH (matchOne csvTxs st dbTx)) as [HL HE].
  destruct (matchOne_keeps_marks csvTxs st dbTx) as [HL' HE'].
  split; intros id Hid; [apply HL, HL'|apply HE, HE']; exact Hid.
Qed.

(** An unmarked record at the end of the loop was unmarked all along. *)
Lemma unmarked_at_the_end csvTxs dbTxs st id :
  index (processedCSVTx (matchLoop csvTxs dbTxs st)) id = false ->
  index (processedCSVTx st) id = false.
Proof.
  intros Hend. destruct (index (processedCSVTx st) id) eqn:Hst; [|reflexivity].
  apply (proj2 (matchLoop_keeps_marks csvTxs dbTxs st)) in Hst. congruence.
Qed.

Lemma unmarked_row_at_the_end csvTxs dbTxs st id :
  index (processedDBTx (matchLoop csvTxs dbTxs st)) id = false ->
  index (processedDBTx st) id = false.
Proof.
  intros Hend. destruct (index (processedDBTx st) id) eqn:Hst; [|reflexivity].
  apply (proj1 (matchLoop_keeps_marks csvTxs dbTxs st)) in Hst. congruence.
Qed.

(** *** Matched pairs *)

Lemma matchOne_matched_sound csvTxs (all : list Transaction.t) st dbTx :
  In dbTx all ->
  Forall (fun p : Pair => In (fst p) all /\ In (snd p) csvTxs
                          /\ exactly (fst p) (snd p) = true) (foundInBoth st) ->
  Forall (fun p : Pair => In (fst p) all /\ In (snd p) csvTxs
                          /\ exactly (fst p) (snd p) = true)
         (foundInBoth (matchOne csvTxs st dbTx)).
Proof.
  intros Hin Hst.
  destruct (matchOne_cases csvTxs st dbTx)
    as [[-> _]|[(csvTx & _ & Hexact & ->)|(csvTx & _ & _ & _ & ->)]]; simpl;
    try exact Hst.
  apply Forall_app. split; [exact Hst|]. apply Forall_singleton. simpl.
  destruct (exactScan_Some _ _ _ _ Hexact) as (Hin' & _ & Hok). auto.
Qed.

(** X1. A pair of the matched bucket is made of a ledger transaction of
    the input and an external record of the input, the type of the record
    is the normalized type of the transaction, and [==] holds of the two
    amounts. *)
Theorem matched_pairs_agree dbTxs csvTxs dbTx csvTx :
  In (dbTx, csvTx) (matched (classify dbTxs csvTxs)) ->
  In dbTx dbTxs /\ In csvTx csvTxs
  /\ normalizedDBType dbTx = ExternalTransaction.Type_ csvTx
  /\ PrimFloat.eqb (Transaction.Amount dbTx) (ExternalTransaction.Amount csvTx) = true.
Proof.
  intros Hin. simpl in Hin.
  pose proof (matchLoop_invariant
                (fun st => Forall (fun p : Pair =>
                                     In (fst p) dbTxs /\ In (snd p) csvTxs
                                     /\ exactly (fst p) (snd p) = true)
                                  (foundInBoth st))
                csvTxs dbTxs
                (fun st tx Htx => matchOne_matched_sound csvTxs dbTxs st tx Htx)
                dbTxs initialState (incl_refl _)) as Hall.
  simpl in Hall. specialize (Hall (Forall_nil_2 _)).
  rewrite Forall_forall in Hall.
  destruct (Hall (dbTx, csvTx)) as (Hdb & Hcsv & Hexact);
    [apply list_elem_of_In; exact Hin|].
  simpl in *. unfold exactly in Hexact.
  apply andb_true_iff in Hexact as [Htype Hamount].
  apply String.eqb_eq in Htype. auto.
Qed.

Lemma matched_pairs_agree_witness :
  In (ledgerTx 1 "DEPOSIT" 100%float) ledgerSample
  /\ In (externalRec "E1" 100%float "DEPOSIT") feedSample
  /\ normalizedDBType (ledgerTx 1 "DEPOSIT" 100%float)
     = ExternalTransaction.Type_ (externalRec "E1" 100%float "DEPOSIT")
  /\ PrimFloat.eqb (Transaction.Amount (ledgerTx 1 "DEPOSIT" 100%float))
       (ExternalTransaction.Amount (externalRec "E1" 100%float "DEPOSIT")) = true.
Proof.
  apply (matched_pairs_agree ledgerSample feedSample).
  rewrite classify_sample. left. reflexivity.
Defined.

(** *** The identifiers of the pairs *)

Lemma Marked_initial : Marked initialState.
Proof.
  unfold Marked. simpl. repeat apply conj.
  - intros id. rewrite index_empty. split; [discriminate|intros []].
  - intros id. rewrite index_empty. split; [discriminate|intros []].
  - constructor.
  - constructor.
Qed.

Lemma Marked_add st dbTx csvTx found mismatched :
  Marked st ->
  index (processedDBTx st) (Transaction.TransactionID dbTx) = false ->
  index (processedCSVTx st) (ExternalTransaction.ExternalID csvTx) = false ->
  found ++ mismatched ≡ₚ (dbTx, csvTx) :: (foundInBoth st ++ mismatchedAmounts st) ->
  Marked {| processedDBTx :=
              <[Transaction.TransactionID dbTx := true]> (processedDBTx st);
            processedCSVTx :=
              <[ExternalTransaction.ExternalID csvTx := true]> (processedCSVTx st);
            foundInBoth := found;
            mismatchedAmounts := mismatched |}.
Proof.
  intros (HL & HE & HNL & HNE) Hrow Hrecord Hperm.
  unfold Marked. simpl.
  assert (HpermL : map ledgerID (found ++ mismatched)
                     ≡ₚ Transaction.TransactionID dbTx
                        :: map ledgerID (foundInBoth st ++ mismatchedAmounts st))
    by (rewrite Hperm; reflexivity).
  assert (HpermE : map externalID (found ++ mismatched)
                     ≡ₚ ExternalTransaction.ExternalID csvTx
                        :: map externalID (foundInBoth st ++ mismatchedAmounts st))
    by (rewrite Hperm; reflexivity).
  repeat apply conj.
  - intros id. rewrite <- !list_elem_of_In, HpermL, elem_of_cons, list_elem_of_In, <- HL.
    destruct (decide (Transaction.TransactionID dbTx = id)) as [->|Hne].
    + rewrite index_insert_eq. split; auto.
    + rewrite index_insert_ne by exact Hne. split; auto.
      intros [Heq|Hid]; [congruence|exact Hid].
  - intros id. rewrite <- !list_elem_of_In, HpermE, elem_of_cons, list_elem_of_In, <- HE.
    destruct (decide (ExternalTransaction.ExternalID csvTx = id)) as [->|Hne].
    + rewrite index_insert_eq. split; auto.
    + rewrite index_insert_ne by exact Hne. split; auto.
      intros [Heq|Hid]; [congruence|exact Hid].
  - rewrite HpermL. apply NoDup_cons. split; [|exact HNL].
    rewrite list_elem_of_In, <- HL. congruence.
  - rewrite HpermE. apply NoDup_cons. split; [|exact HNE].
    rewrite list_elem_of_In, <- HE. congruence.
Qed.

Lemma matchOne_Marked csvTxs st dbTx :
  Marked st -> Marked (matchOne csvTxs st dbTx).
Proof.
  intros Hst.
  destruct (matchOne_cases csvTxs st dbTx)
    as [[-> _]|[(csvTx & Hrow & Hexact & ->)|(csvTx & Hrow & _ & Htype & ->)]].
  - exact Hst.
  - destruct (exactScan_Some _ _ _ _ Hexact) as (_ & Hrecord & _).
    unfold markMatch. apply Marked_add; try assumption.
    rewrite <- app_assoc. simpl. symmetry. apply Permutation_middle.
  - destruct (typeScan_Some _ _ _ _ Htype) as (_ & Hrecord & _).
    unfold markMismatch. apply Marked_add; try assumption.
    rewrite app_assoc. symmetry. rewrite <- Permutation_middle, app_nil_r. reflexivity.
Qed.

Lemma matchLoop_Marked csvTxs dbTxs :
  Marked (matchLoop csvTxs dbTxs initialState).
Proof.
  apply (matchLoop_invariant Marked csvTxs dbTxs).
  - intros st dbTx _. apply matchOne_Marked.
  - apply incl_refl.
  - apply Marked_initial.
Qed.

(** X2. Whatever the inputs, with repeated identifiers or without, no
    ledger identifier is paired twice and no external identifier is paired
    twice: over the matched and the mismatched pairs together the ledger
    identifiers are pairwise distinct, and so are the external ones. *)
Theorem no_identifier_paired_twice dbTxs csvTxs :
  NoDup (map ledgerID (pairsOf (classify dbTxs csvTxs)))
  /\ NoDup (map externalID (pairsOf (classify dbTxs csvTxs))).
Proof.
  destruct (matchLoop_Marked csvTxs dbTxs) as (_ & _ & HL & HE).
  split; assumption.
Qed.

(** X3. For every input, a ledger transaction is listed as only in the
    database exactly when it is in the ledger input and its identifier is
    the identifier of no paired ledger transaction; and likewise for the
    external records listed as only in the file. A row that shares its
    identifier with a paired row is therefore listed nowhere. *)
Theorem unpaired_listing dbTxs csvTxs :
  (forall dbTx,
      In dbTx (onlyInDB (classify dbTxs csvTxs))
      <-> In dbTx dbTxs
          /\ ~ In (Transaction.TransactionID dbTx)
                  (map ledgerID (pairsOf (classify dbTxs csvTxs))))
  /\ (forall csvTx,
         In csvTx (onlyInCSV (classify dbTxs csvTxs))
         <-> In csvTx csvTxs
             /\ ~ In (ExternalTransaction.ExternalID csvTx)
                     (map externalID (pairsOf (classify dbTxs csvTxs)))).
Proof.
  destruct (matchLoop_Marked csvTxs dbTxs) as (HL & HE & _ & _).
  unfold pairsOf, classify. cbv zeta. simpl.
  split.
  - intros dbTx. rewrite filter_In, <- HL, negb_true_iff.
    destruct (index _ (Transaction.TransactionID dbTx));
      split; intros [Hin Hmark]; split; congruence.
  - intros csvTx. rewrite filter_In, <- HE, negb_true_iff.
    destruct (index _ (ExternalTransaction.ExternalID csvTx));
      split; intros [Hin Hmark]; split; congruence.
Qed.

Lemma matchOne_pairs_from_inputs csvTxs (all : list Transaction.t) st dbTx :
  In dbTx all ->
  Forall (fun p : Pair => In (fst p) all /\ In (snd p) csvTxs)
         (foundInBoth st ++ mismatchedAmounts st) ->
  Forall (fun p : Pair => In (fst p) all /\ In (snd p) csvTxs)
         (foundInBoth (matchOne csvTxs st dbTx)
          ++ mismatchedAmounts (matchOne csvTxs st dbTx)).
Proof.
  intros Hin Hst.
  destruct (matchOne_cases csvTxs st dbTx)
    as [[-> _]|[(csvTx & _ & Hexact & ->)|(csvTx & _ & _ & Htype & ->)]]; simpl;
    try exact Hst.
  - destruct (exactScan_Some _ _ _ _ Hexact) as (Hin' & _ & _).
    apply Forall_app in Hst as [HF HX].
    repeat (apply Forall_app; split); try assumption.
    apply Forall_singleton. auto.
  - destruct (typeScan_Some _ _ _ _ Htype) as (Hin' & _ & _).
    apply Forall_app in Hst as [HF HX].
    repeat (apply Forall_app; split); try assumption.
    apply Forall_singleton. auto.
Qed.

Lemma pairs_from_inputs dbTxs csvTxs :
  Forall (fun p : Pair => In (fst p) dbTxs /\ In (snd p) csvTxs)
         (pairsOf (classify dbTxs csvTxs)).
Proof.
  unfold pairsOf, classify. cbv zeta. simpl.
  apply (matchLoop_invariant
           (fun st => Forall (fun p : Pair => In (fst p) dbTxs /\ In (snd p) csvTxs)
                             (foundInBoth st ++ mismatchedAmounts st))
           csvTxs dbTxs).
  - intros st dbTx Hin. apply matchOne_pairs_from_inputs. exact Hin.
  - apply incl_refl.
  - simpl. constructor.
Qed.

Lemma NoDup_map_incl_length {A B : Type} (f : A -> B) (l : list A) (l' : list B) :
  NoDup (map f l) -> (forall x, In x l -> In (f x) l') -> (length l <= length l')%nat.
Proof.
  intros Hnodup Hincl. rewrite <- (length_map f l).
  apply NoDup_incl_length; [apply NoDup_ListNoDup; exact Hnodup|].
  intros y Hy. apply in_map_iff in Hy as (x & <- & Hx). apply Hincl. exact Hx.
Qed.

(** X4. For every input, the pairs made, matched and mismatched together,
    are no more than the ledger transactions and no more than the external
    records. *)
Theorem pairs_bounded_by_inputs dbTxs csvTxs :
  (length (matched (classify dbTxs csvTxs))
   + length (mismatchedAmount (classify dbTxs csvTxs)) <= length dbTxs)%nat
  /\ (length (matched (classify dbTxs csvTxs))
      + length (mismatchedAmount (classify dbTxs csvTxs)) <= length csvTxs)%nat.
Proof.
  rewrite <- length_app. fold (pairsOf (classify dbTxs csvTxs)).
  destruct (matchLoop_Marked csvTxs dbTxs) as (_ & _ & HL & HE).
  pose proof (pairs_from_inputs dbTxs csvTxs) as Hfrom.
  rewrite Forall_forall in Hfrom.
  split.
  - rewrite <- (length_map Transaction.TransactionID dbTxs).
    apply (NoDup_map_incl_length ledgerID); [exact HL|].
    intros p Hp. unfold ledgerID. apply in_map. apply Hfrom, list_elem_of_In, Hp.
  - rewrite <- (length_map ExternalTransaction.ExternalID csvTxs).
    apply (NoDup_map_incl_length externalID); [exact HE|].
    intros p Hp. unfold externalID. apply in_map. apply Hfrom, list_elem_of_In, Hp.
Qed.

(** *** What is left unpaired *)

Lemma matchLoop_leftovers csvTxs dbTxs : forall st dbTx csvTx,
  In dbTx dbTxs ->
  In csvTx csvTxs ->
  index (processedDBTx (matchLoop csvTxs dbTxs st)) (Transaction.TransactionID dbTx)
  = false ->
  index (processedCSVTx (matchLoop csvTxs dbTxs st))
        (ExternalTransaction.ExternalID csvTx) = false ->
  String.eqb (normalizedDBType dbTx) (ExternalTransaction.Type_ csvTx) = false.
Proof.
  induction dbTxs as [|tx rest IH]; intros st dbTx csvTx Hdb Hcsv Hrow Hrecord;
    [destruct Hdb|].
  change (matchLoop csvTxs (tx :: rest) st)
    with (matchLoop csvTxs rest (matchOne csvTxs st tx)) in Hrow, Hrecord.
  destruct Hdb as [->|Hdb]; [|exact (IH _ _ _ Hdb Hcsv Hrow Hrecord)].
  apply unmarked_row_at_the_end in Hrow.
  apply unmarked_at_the_end in Hrecord.
  destruct (matchOne_cases csvTxs st dbTx)
    as [[Hsame [Hmarked|[_ Htype]]]|[(c & _ & _ & Hstep)|(c & _ & _ & _ & Hstep)]].
  - rewrite Hsame in Hrow. congruence.
  - rewrite Hsame in Hrecord. exact (typeScan_None _ _ _ Htype csvTx Hcsv Hrecord).
  - rewrite Hstep in Hrow. simpl in Hrow. rewrite index_insert_eq in Hrow. discriminate.
  - rewrite Hstep in Hrow. simpl in Hrow. rewrite index_insert_eq in Hrow. discriminate.
Qed.

(** X5. For every input, no ledger transaction listed as only in the
    database has the type of an external record listed as only in the
    file: the matcher leaves no pair of one type unmade. *)
Theorem no_leftover_of_one_type dbTxs csvTxs dbTx csvTx :
  In dbTx (onlyInDB (classify dbTxs csvTxs)) ->
  In csvTx (onlyInCSV (classify dbTxs csvTxs)) ->
  normalizedDBType dbTx <> ExternalTransaction.Type_ csvTx.
Proof.
  unfold classify. cbv zeta. simpl. rewrite !filter_In, !negb_true_iff.
  intros [Hdb Hrow] [Hcsv Hrecord].
  apply String.eqb_neq.
  exact (matchLoop_leftovers csvTxs dbTxs initialState dbTx csvTx Hdb Hcsv Hrow Hrecord).
Qed.

Lemma no_leftover_of_one_type_witness :
  normalizedDBType (ledgerTx 3 "DEPOSIT" 10%float)
  <> ExternalTransaction.Type_ (externalRec "E3" 5%float "FEE").
Proof.
  apply (no_leftover_of_one_type ledgerSample feedSample);
    rewrite classify_sample; left; reflexivity.
Defined.

Lemma matchLoop_mismatched_exact csvTxs dbTxs : forall st dbTx csvTx,
  In (dbTx, csvTx) (mismatchedAmounts (matchLoop csvTxs dbTxs st)) ->
  In (dbTx, csvTx) (mismatchedAmounts st)
  \/ forall other, In other csvTxs ->
       index (processedCSVTx (matchLoop csvTxs dbTxs st))
             (ExternalTransaction.ExternalID other) = false ->
       exactly dbTx other = false.
Proof.
  induction dbTxs as [|tx rest IH]; intros st dbTx csvTx Hin; [left; exact Hin|].
  change (matchLoop csvTxs (tx :: rest) st)
    with (matchLoop csvTxs rest (matchOne csvTxs st tx)) in *.
  destruct (IH _ _ _ Hin) as [Hstep|Hlater]; [|right; exact Hlater].
  destruct (matchOne_cases csvTxs st tx)
    as [[Hsame _]|[(c & _ & _ & Hmark)|(c & _ & Hexact & _ & Hmark)]];
    rewrite ?Hsame, ?Hmark in Hstep; simpl in Hstep; try (left; exact Hstep).
  apply in_app_or in Hstep as [Hold|[Hnew|[]]]; [left; exact Hold|].
  injection Hnew as -> ->. right.
  intros other Hother Hfree. apply unmarked_at_the_end in Hfree.
  rewrite Hmark in Hfree. simpl in Hfree.
  apply (exactScan_None _ _ _ Hexact other Hother).
  destruct (index (processedCSVTx st) (ExternalTransaction.ExternalID other)) eqn:Hst;
    [|reflexivity].
  rewrite (index_insert_iff_true _ _ _ Hst) in Hfree. discriminate.
Qed.

(** X6. For every input, a ledger transaction reported with a mismatched
    amount has no exact match among the external records left only in the
    file: a record of its type and amount is never left unused while the
    transaction is paired with another amount. *)
Theorem no_exact_match_left_unused dbTxs csvTxs dbTx csvTx other :
  In (dbTx, csvTx) (mismatchedAmount (classify dbTxs csvTxs)) ->
  In other (onlyInCSV (classify dbTxs csvTxs)) ->
  exactly dbTx other = false.
Proof.
  unfold classify. cbv zeta. simpl. rewrite filter_In, negb_true_iff.
  intros Hpair [Hother Hfree].
  destruct (matchLoop_mismatched_exact csvTxs dbTxs initialState dbTx csvTx Hpair)
    as [[]|Hnone].
  exact (Hnone other Hother Hfree).
Qed.

Lemma no_exact_match_left_unused_witness :
  exactly (ledgerTx 2 "withdrawal" (-50)%float) (externalRec "E3" 5%float "FEE") = false.
Proof.
  apply (no_exact_match_left_unused ledgerSample feedSample _
           (externalRec "E2" (-40)%float "WITHDRAWAL"));
    rewrite classify_sample; left; reflexivity.
Defined.

(** *** Empty inputs *)

Lemma filter_all {A : Type} (f : A -> bool) (l : list A) :
  (forall x, f x = true) -> List.filter f l = l.
Proof.
  intros Hf. induction l as [|x l IH]; [reflexivity|].
  simpl. rewrite Hf, IH. reflexivity.
Qed.

Lemma matchLoop_empty_feed dbTxs : forall st, matchLoop [] dbTxs st = st.
Proof.
  unfold matchLoop. induction dbTxs as [|dbTx rest IH]; intros st; simpl; [reflexivity|].
  unfold matchOne at 2. simpl.
  destruct (index (processedDBTx st) (Transaction.TransactionID dbTx)); apply IH.
Qed.

(** X7. Against an empty feed every ledger transaction is listed as only
    in the database, in input order, and nothing else is reported; with an
    empty ledger every external record is listed as only in the file, in
    input order, and nothing else is reported. *)
Theorem one_side_empty dbTxs csvTxs :
  classify dbTxs []
  = {| matched := []; mismatchedAmount := []; onlyInDB := dbTxs; onlyInCSV := [] |}
  /\ classify [] csvTxs
     = {| matched := []; mismatchedAmount := []; onlyInDB := []; onlyInCSV := csvTxs |}.
Proof.
  split.
  - unfold classify. cbv zeta. rewrite matchLoop_empty_feed. simpl.
    rewrite filter_all by (intros x; rewrite index_empty; reflexivity).
    reflexivity.
  - unfold classify, matchLoop. simpl.
    rewrite filter_all by (intros x; rewrite index_empty; reflexivity).
    reflexivity.
Qed.

(** *** Order of the entries *)

Lemma filter_sublist {A : Type} (f : A -> bool) (l : list A) :
  sublist (List.filter f l) l.
Proof.
  induction l as [|x l IH]; simpl; [constructor|].
  destruct (f x); [apply sublist_skip|apply sublist_cons]; exact IH.
Qed.

(** The rows a stretch of the loop adds to either list of pairs are rows
    of that stretch, in its order. *)
Lemma matchLoop_adds_in_order csvTxs dbTxs : forall st,
  exists found mismatched,
    foundInBoth (matchLoop csvTxs dbTxs st) = foundInBoth st ++ found
    /\ mismatchedAmounts (matchLoop csvTxs dbTxs st) = mismatchedAmounts st ++ mismatched
    /\ sublist (map fst found) dbTxs
    /\ sublist (map fst mismatched) dbTxs.
Proof.
  induction dbTxs as [|dbTx rest IH]; intros st.
  - exists [], []. rewrite !app_nil_r. repeat split; constructor.
  - change (matchLoop csvTxs (dbTx :: rest) st)
      with (matchLoop csvTxs rest (matchOne csvTxs st dbTx)).
    destruct (IH (matchOne csvTxs st dbTx)) as (found & mismatched & -> & -> & HF & HX).
    destruct (matchOne_cases csvTxs st dbTx)
      as [[-> _]|[(c & _ & _ & ->)|(c & _ & _ & _ & ->)]]; simpl.
    + exists found, mismatched. repeat split; try apply sublist_cons; assumption.
    + exists ((dbTx, c) :: found), mismatched. rewrite <- app_assoc. simpl.
      repeat split; [apply sublist_skip|apply sublist_cons]; assumption.
    + exists found, ((dbTx, c) :: mismatched). rewrite <- app_assoc. simpl.
      repeat split; [apply sublist_cons|apply sublist_skip]; assumption.
Qed.

(** X8. The entries of each bucket come in input order: the ledger members
    of the matched pairs, those of the mismatched pairs and the rows only
    in the database are each a subsequence of the ledger input, and the
    records only in the file are a subsequence of the feed. *)
Theorem buckets_keep_input_order dbTxs csvTxs :
  sublist (map fst (matched (classify dbTxs csvTxs))) dbTxs
  /\ sublist (map fst (mismatchedAmount (classify dbTxs csvTxs))) dbTxs
  /\ sublist (onlyInDB (classify dbTxs csvTxs)) dbTxs
  /\ sublist (onlyInCSV (classify dbTxs csvTxs)) csvTxs.
Proof.
  destruct (matchLoop_adds_in_order csvTxs dbTxs initialState)
    as (found & mismatched & HF & HX & HsubF & HsubX).
  unfold classify. cbv zeta. simpl. rewrite HF, HX. simpl.
  repeat split; try assumption; apply filter_sublist.
Qed.

(** *** First fit *)

Lemma exactScan_first dbTx processed before : forall csvTx after earlier,
  exactScan dbTx processed (before ++ csvTx :: after) = Some csvTx ->
  ~ In csvTx before ->
  In earlier before ->
  exactly dbTx earlier = true ->
  index processed (ExternalTransaction.ExternalID earlier) = true.
Proof.
  induction before as [|b before IH]; intros csvTx after earlier Hscan Hfirst Hin Hexact;
    [destruct Hin|].
  simpl in Hscan.
  destruct (index processed (ExternalTransaction.ExternalID b)) eqn:Hb.
  - destruct Hin as [<-|Hin]; [exact Hb|].
    apply (IH csvTx after earlier Hscan); auto.
    intros Hc. apply Hfirst. right. exact Hc.
  - fold (exactly dbTx b) in Hscan. destruct (exactly dbTx b) eqn:Hexactb.
    + injection Hscan as ->. exfalso. apply Hfirst. left. reflexivity.
    + destruct Hin as [<-|Hin]; [congruence|].
      apply (IH csvTx after earlier Hscan); auto.
      intros Hc. apply Hfirst. right. exact Hc.
Qed.

Lemma typeScan_first dbTx processed before : forall csvTx after earlier,
  typeScan dbTx processed (before ++ csvTx :: after) = Some csvTx ->
  ~ In csvTx before ->
  In earlier before ->
  normalizedDBType dbTx = ExternalTransaction.Type_ earlier ->
  index processed (ExternalTransaction.ExternalID earlier) = true.
Proof.
  induction before as [|b before IH]; intros csvTx after earlier Hscan Hfirst Hin Htype;
    [destruct Hin|].
  simpl in Hscan.
  destruct (index processed (ExternalTransaction.ExternalID b)) eqn:Hb.
  - destruct Hin as [<-|Hin]; [exact Hb|].
    apply (IH csvTx after earlier Hscan); auto.
    intros Hc. apply Hfirst. right. exact Hc.
  - destruct (String.eqb (normalizedDBType dbTx) (ExternalTransaction.Type_ b)) eqn:Hsame.
    + injection Hscan as ->. exfalso. apply Hfirst. left. reflexivity.
    + destruct Hin as [<-|Hin].
      * apply String.eqb_neq in Hsame. contradiction.
      * apply (IH csvTx after earlier Hscan); auto.
        intros Hc. apply Hfirst. right. exact Hc.
Qed.

Lemma matchLoop_first_fit csvTxs dbTxs : forall st dbTx csvTx,
  (In (dbTx, csvTx) (foundInBoth (matchLoop csvTxs dbTxs st)) ->
   In (dbTx, csvTx) (foundInBoth st)
   \/ forall before after earlier,
        csvTxs = before ++ csvTx :: after -> ~ In csvTx before ->
        In earlier before -> exactly dbTx earlier = true ->
        index (processedCSVTx (matchLoop csvTxs dbTxs st))
              (ExternalTransaction.ExternalID earlier) = true)
  /\ (In (dbTx, csvTx) (mismatchedAmounts (matchLoop csvTxs dbTxs st)) ->
      In (dbTx, csvTx) (mismatchedAmounts st)
      \/ forall before after earlier,
           csvTxs = before ++ csvTx :: after -> ~ In csvTx before ->
           In earlier before ->
           normalizedDBType dbTx = ExternalTransaction.Type_ earlier ->
           index (processedCSVTx (matchLoop csvTxs dbTxs st))
                 (ExternalTransaction.ExternalID earlier) = true).
Proof.
  induction dbTxs as [|tx rest IH]; intros st dbTx csvTx; [split; auto|].
  change (matchLoop csvTxs (tx :: rest) st)
    with (matchLoop csvTxs rest (matchOne csvTxs st tx)).
  destruct (IH (matchOne csvTxs st tx) dbTx csvTx) as [HF HX].
  pose proof (proj2 (matchLoop_keeps_marks csvTxs rest (matchOne csvTxs st tx))) as Hkeep.
  pose proof (proj2 (matchOne_keeps_marks csvTxs st tx)) as Hkeep'.
  destruct (matchOne_cases csvTxs st tx)
    as [[Hsame _]|[(c & _ & Hexact & Hmark)|(c & _ & _ & Htype & Hmark)]].
  - rewrite Hsame in *. auto.
  - rewrite Hmark in HF, HX, Hkeep, Hkeep' |- *. simpl in HF, HX. split; [|exact HX].
    intros Hin. destruct (HF Hin) as [Hstep|Hlater]; [|right; exact Hlater].
    apply in_app_or in Hstep as [Hold|[Hnew|[]]]; [left; exact Hold|].
    injection Hnew as -> ->. right.
    intros before after earlier -> Hfirst Hearlier Hok.
    apply Hkeep, Hkeep'.
    exact (exactScan_first _ _ _ _ _ _ Hexact Hfirst Hearlier Hok).
  - rewrite Hmark in HF, HX, Hkeep, Hkeep' |- *. simpl in HF, HX. split; [exact HF|].
    intros Hin. destruct (HX Hin) as [Hstep|Hlater]; [|right; exact Hlater].
    apply in_app_or in Hstep as [Hold|[Hnew|[]]]; [left; exact Hold|].
    injection Hnew as -> ->. right.
    intros before after earlier -> Hfirst Hearlier Hok.
    apply Hkeep, Hkeep'.
    exact (typeScan_first _ _ _ _ _ _ Htype Hfirst Hearlier Hok).
Qed.

(** X9. First fit. When a matched pair holds the external record
    [csvTx], no record that stands before the first occurrence of [csvTx]
    in the feed and is an exact match of the same ledger transaction is
    left only in the file; when a mismatched pair holds it, no record
    before it of the transaction's type is left only in the file. The
    partner is the first candidate of the feed that was still free. *)
Theorem first_fit dbTxs before csvTx after dbTx earlier :
  ~ In csvTx before ->
  In earlier before ->
  (In (dbTx, csvTx) (matched (classify dbTxs (before ++ csvTx :: after))) ->
   exactly dbTx earlier = true ->
   ~ In earlier (onlyInCSV (classify dbTxs (before ++ csvTx :: after))))
  /\ (In (dbTx, csvTx) (mismatchedAmount (classify dbTxs (before ++ csvTx :: after))) ->
      normalizedDBType dbTx = ExternalTransaction.Type_ earlier ->
      ~ In earlier (onlyInCSV (classify dbTxs (before ++ csvTx :: after)))).
Proof.
  intros Hfirst Hearlier.
  destruct (matchLoop_first_fit (before ++ csvTx :: after) dbTxs initialState dbTx csvTx)
    as [HF HX].
  unfold classify. cbv zeta. simpl. split.
  - intros Hpair Hok. destruct (HF Hpair) as [[]|Hmarked].
    rewrite filter_In, negb_true_iff.
    rewrite (Hmarked before after earlier eq_refl Hfirst Hearlier Hok).
    intros [_ Habsurd]. discriminate Habsurd.
  - intros Hpair Hok. destruct (HX Hpair) as [[]|Hmarked].
    rewrite filter_In, negb_true_iff.
    rewrite (Hmarked before after earlier eq_refl Hfirst Hearlier Hok).
    intros [_ Habsurd]. discriminate Habsurd.
Qed.

Lemma first_fit_witness :
  (In (ledgerTx 2 "DEPOSIT" 100%float, externalRec "E2" 100%float "DEPOSIT")
      (matched (classify equalDeposits
                  ([externalRec "E1" 100%float "DEPOSIT"]
                   ++ externalRec "E2" 100%float "DEPOSIT" :: []))) ->
   exactly (ledgerTx 2 "DEPOSIT" 100%float) (externalRec "E1" 100%float "DEPOSIT") = true ->
   ~ In (externalRec "E1" 100%float "DEPOSIT")
        (onlyInCSV (classify equalDeposits
                      ([externalRec "E1" 100%float "DEPOSIT"]
                       ++ externalRec "E2" 100%float "DEPOSIT" :: []))))
  /\ (In (ledgerTx 2 "DEPOSIT" 100%float, externalRec "E2" 100%float "DEPOSIT")
         (mismatchedAmount (classify equalDeposits
                              ([externalRec "E1" 100%float "DEPOSIT"]
                               ++ externalRec "E2" 100%float "DEPOSIT" :: []))) ->
      normalizedDBType (ledgerTx 2 "DEPOSIT" 100%float)
      = ExternalTransaction.Type_ (externalRec "E1" 100%float "DEPOSIT") ->
      ~ In (externalRec "E1" 100%float "DEPOSIT")
           (onlyInCSV (classify equalDeposits
                         ([externalRec "E1" 100%float "DEPOSIT"]
                          ++ externalRec "E2" 100%float "DEPOSIT" :: [])))).
Proof.
  apply (first_fit equalDeposits [externalRec "E1" 100%float "DEPOSIT"]
           (externalRec "E2" 100%float "DEPOSIT") []
           (ledgerTx 2 "DEPOSIT" 100%float) (externalRec "E1" 100%float "DEPOSIT")).
  - intros [Heq|[]]. discriminate Heq.
  - left. reflexivity.
Defined.

(** The second deposit is indeed matched with the second record. *)
Example classify_equalDeposits :
  matched (classify equalDeposits equalRecords)
  = [ (ledgerTx 1 "DEPOSIT" 100%float, externalRec "E1" 100%float "DEPOSIT");
      (ledgerTx 2 "DEPOSIT" 100%float, externalRec "E2" 100%float "DEPOSIT") ].
Proof. vm_compute. reflexivity. Qed.

(* ===================================================================== *)
(** ** The type normalizer: further properties *)
(* ===================================================================== *)

(** On ASCII text. The lemmas look at the bytes below 0x80 and at no
    other, as the path of the library they model does. *)
Lemma upper_byte_ascii c :
  strings.isASCII_byte c = true ->
  strings.isASCII_byte (strings.upper_byte c) = true
  /\ strings.upper_byte (strings.upper_byte c) = strings.upper_byte c.
Proof.
  destruct c as [[] [] [] [] [] [] [] []]; intros Hc; vm_compute in Hc;
    try discriminate Hc; split; reflexivity.
Qed.

Lemma ToUpper_ascii s :
  strings.isASCII s = true ->
  strings.isASCII (strings.ToUpper s) = true
  /\ strings.ToUpper (strings.ToUpper s) = strings.ToUpper s.
Proof.
  induction s as [|c s IH]; simpl; [auto|].
  intros Hs. apply andb_prop in Hs as [Hc Hs].
  destruct (upper_byte_ascii c Hc) as [Hc' Hcc]. destruct (IH Hs) as [Hs' Hss].
  rewrite Hc', Hs', Hcc, Hss. auto.
Qed.

(** X10. On ASCII types the normalizer is insensitive to case and stable:
    its result is ASCII again and in upper case, the upper-cased type
    gives the same result as the type itself, and normalizing the result
    again, with the same accounts, changes nothing. *)
Theorem normalizer_stable (dbType : string) (fromID toID : sql.NullInt64) :
  strings.isASCII dbType = true ->
  let result := normalizeDBTransactionType dbType fromID toID in
  strings.isASCII result = true
  /\ strings.ToUpper result = result
  /\ normalizeDBTransactionType (strings.ToUpper dbType) fromID toID = result
  /\ normalizeDBTransactionType result fromID toID = result.
Proof.
  intros Hascii. cbv zeta.
  destruct (ToUpper_ascii dbType Hascii) as [Hupper_ascii Hidem].
  assert (Hupper : normalizeDBTransactionType (strings.ToUpper dbType) fromID toID
                   = normalizeDBTransactionType dbType fromID toID).
  { unfold normalizeDBTransactionType. rewrite Hidem. reflexivity. }
  split; [|split; [|split; [exact Hupper|]]].
  - unfold normalizeDBTransactionType.
    destruct (String.eqb _ "DEPOSIT"); [reflexivity|].
    destruct (String.eqb _ "WITHDRAWAL"); [reflexivity|].
    destruct (String.eqb _ "TRANSFER");
      [destruct (sql.Valid fromID), (sql.Valid toID); simpl; try reflexivity|];
      exact Hupper_ascii.
  - unfold normalizeDBTransactionType.
    destruct (String.eqb _ "DEPOSIT"); [reflexivity|].
    destruct (String.eqb _ "WITHDRAWAL"); [reflexivity|].
    destruct (String.eqb _ "TRANSFER");
      [destruct (sql.Valid fromID), (sql.Valid toID); simpl; try reflexivity|];
      exact Hidem.
  - remember (normalizeDBTransactionType dbType fromID toID) as result eqn:Hresult.
    unfold normalizeDBTransactionType in Hresult.
    destruct (String.eqb (strings.ToUpper dbType) "DEPOSIT") eqn:Hd;
      [subst result; reflexivity|].
    destruct (String.eqb (strings.ToUpper dbType) "WITHDRAWAL") eqn:Hw;
      [subst result; reflexivity|].
    destruct (String.eqb (strings.ToUpper dbType) "TRANSFER") eqn:Ht.
    + apply String.eqb_eq in Ht. rewrite Ht in Hresult.
      unfold normalizeDBTransactionType.
      destruct (sql.Valid fromID), (sql.Valid toID); simpl in Hresult;
        subst result; reflexivity.
    + subst result. unfold normalizeDBTransactionType.
      rewrite Hidem, Hd, Hw, Ht. reflexivity.
Qed.

Lemma normalizer_stable_witness :
  strings.isASCII "TRANSFER_OUT" = true
  /\ strings.ToUpper "TRANSFER_OUT" = "TRANSFER_OUT"
  /\ normalizeDBTransactionType (strings.ToUpper "Transfer") (account 7) noAccount
     = "TRANSFER_OUT"
  /\ normalizeDBTransactionType "TRANSFER_OUT" (account 7) noAccount = "TRANSFER_OUT".
Proof.
  apply (normalizer_stable "Transfer" (account 7) noAccount). reflexivity.
Defined.

(** X11. The result of the normalizer is a word of the external
    vocabulary exactly when the upper-cased type is one already, or is
    TRANSFER with at least one of the two accounts present. *)
Theorem normalizer_in_vocabulary (dbType : string) (fromID toID : sql.NullInt64) :
  In (normalizeDBTransactionType dbType fromID toID) externalVocabulary
  <-> In (strings.ToUpper dbType) externalVocabulary
      \/ (strings.ToUpper dbType = "TRANSFER"
          /\ sql.Valid fromID || sql.Valid toID = true).
Proof.
  unfold normalizeDBTransactionType.
  destruct (String.eqb (strings.ToUpper dbType) "DEPOSIT") eqn:Hd.
  { apply String.eqb_eq in Hd. rewrite Hd. simpl. tauto. }
  destruct (String.eqb (strings.ToUpper dbType) "WITHDRAWAL") eqn:Hw.
  { apply String.eqb_eq in Hw. rewrite Hw. simpl. tauto. }
  destruct (String.eqb (strings.ToUpper dbType) "TRANSFER") eqn:Ht.
  - apply String.eqb_eq in Ht. rewrite Ht.
    destruct (sql.Valid fromID), (sql.Valid toID); simpl;
      try (split; [intros _; right; split; reflexivity|intros _; tauto]).
    split.
    + intros [H|[H|[H|[H|[H|[]]]]]]; discriminate H.
    + intros [[H|[H|[H|[H|[H|[]]]]]]|[_ H]]; discriminate H.
  - apply String.eqb_neq in Ht. tauto.
Qed.

(* ===================================================================== *)
(** ** The loader: further properties *)
(* ===================================================================== *)

Section LoaderResults.

Variable ParseFloat : string -> option float.

Lemma readRecords_error_nil input : forall n txs warns e,
  err (readRecords ParseFloat input n txs warns) = Some e ->
  transactions (readRecords ParseFloat input n txs warns) = nil_slice.
Proof.
  induction input as [|ln rest IH]; intros n txs warns e; simpl; [discriminate|].
  destruct (csv.readRecord ln n) as [[n' record] [e'|]]; [reflexivity|].
  destruct (length record <? 4)%nat; [apply IH|].
  destruct (ParseFloat _); apply IH.
Qed.

(** X12. No partial result: whenever either loader returns an error, the
    slice it returns with it is nil, whatever rows it had read before. *)
Theorem load_error_returns_nil (fs : gmap string (list csv.line)) filePath e :
  (err (LoadExternalTransactions ParseFloat fs filePath) = Some e ->
   transactions (LoadExternalTransactions ParseFloat fs filePath) = nil_slice)
  /\ (err (loadExternalTransactions ParseFloat fs filePath) = Some e ->
      transactions (loadExternalTransactions ParseFloat fs filePath) = nil_slice).
Proof.
  assert (Hreader : forall file,
             err (loadFromReader ParseFloat (csv.NewReader file)) = Some e ->
             transactions (loadFromReader ParseFloat (csv.NewReader file)) = nil_slice).
  { intros file. unfold loadFromReader, csv.NewReader, csv.Read. simpl.
    destruct file as [|ln rest]; simpl; [discriminate|].
    destruct ln as [header|]; simpl; [|reflexivity].
    apply readRecords_error_nil. }
  unfold LoadExternalTransactions, loadExternalTransactions.
  destruct (fs !! filePath) as [file|]; split; try reflexivity; apply Hreader.
Qed.

Lemma readRecords_uniform rows : forall n txs warns,
  0 < n ->
  Forall (fun record => Z.of_nat (length record) = n) rows ->
  err (readRecords ParseFloat (map csv.Fields rows) n txs warns) = None
  /\ elems (transactions (readRecords ParseFloat (map csv.Fields rows) n txs warns))
     = elems txs ++ omap (parseRow ParseFloat) rows
  /\ (length (omap (parseRow ParseFloat) rows)
      + length (warnings (readRecords ParseFloat (map csv.Fields rows) n txs warns))
      = length warns + length rows)%nat.
Proof.
  induction rows as [|record rows IH]; intros n txs warns Hn Hrows; simpl.
  - rewrite app_nil_r. repeat split. lia.
  - apply Forall_cons in Hrows as [Hrecord Hrows].
    assert (Hpos : (0 <? n) = true) by (apply Z.ltb_lt; exact Hn).
    assert (Heq : (Z.of_nat (length record) =? n) = true)
      by (apply Z.eqb_eq; exact Hrecord).
    rewrite Hpos, Heq. simpl.
    destruct (length record <? 4)%nat eqn:Hshort.
    + assert (Hrow : parseRow ParseFloat record = None)
        by (unfold parseRow; rewrite Hshort; reflexivity).
      rewrite Hrow.
      destruct (IH n txs (warns ++ [SkippingMalformedRecord record]) Hn Hrows)
        as (He & Ht & Hw).
      repeat split; try assumption. rewrite length_app in Hw. simpl in Hw.
      etrans; [exact Hw|lia].
    + destruct (ParseFloat (strings.TrimSpace (field record 1))) as [amount|] eqn:Hparse.
      * assert (Hrow : parseRow ParseFloat record
                       = Some {| ExternalTransaction.ExternalID :=
                                   strings.TrimSpace (field record 0);
                                 ExternalTransaction.Amount := amount;
                                 ExternalTransaction.Type_ :=
                                   strings.TrimSpace (strings.ToUpper (field record 2));
                                 ExternalTransaction.Reference :=
                                   strings.TrimSpace (field record 3) |})
          by (unfold parseRow; rewrite Hshort, Hparse; reflexivity).
        rewrite Hrow.
        match goal with |- context [append txs ?r] =>
          destruct (IH n (append txs r) warns Hn Hrows) as (He & Ht & Hw) end.
        repeat split; try assumption.
        -- rewrite Ht. simpl. rewrite <- app_assoc. reflexivity.
        -- simpl. rewrite Nat.add_succ_r. f_equal. exact Hw.
      * assert (Hrow : parseRow ParseFloat record = None)
          by (unfold parseRow; rewrite Hshort, Hparse; reflexivity).
        rewrite Hrow.
        destruct (IH n txs (warns ++ [SkippingInvalidAmount (field record 1)]) Hn Hrows)
          as (He & Ht & Hw).
        repeat split; try assumption. rewrite length_app in Hw. simpl in Hw.
        etrans; [exact Hw|lia].
Qed.

(** X13. A feed whose rows all have as many fields as its header loads
    without error. The records returned are those of the rows with four
    fields or more and an amount that parses, in feed order, and every
    other row has its warning: records and warnings together are as many
    as the rows. *)
Theorem uniform_feed_loads (fs : gmap string (list csv.line)) filePath header rows :
  fs !! filePath = Some (csv.Fields header :: map csv.Fields rows) ->
  (0 < length header)%nat ->
  Forall (fun record => length record = length header) rows ->
  let loaded := LoadExternalTransactions ParseFloat fs filePath in
  err loaded = None
  /\ elems (transactions loaded) = omap (parseRow ParseFloat) rows
  /\ (length (elems (transactions loaded)) + length (warnings loaded) = length rows)%nat.
Proof.
  intros Hfile Hheader Hrows. cbv zeta.
  unfold LoadExternalTransactions. rewrite Hfile.
  unfold loadFromReader, csv.NewReader, csv.Read. simpl.
  destruct (readRecords_uniform rows (Z.of_nat (length header)) nil_slice [])
    as (He & Ht & Hw); [lia| |].
  { eapply Forall_impl; [exact Hrows|]. intros record Hlen. simpl in Hlen. lia. }
  simpl in Ht, Hw. rewrite Ht. auto.
Qed.

Lemma readRecords_success_uniform input : forall n txs warns,
  0 < n ->
  err (readRecords ParseFloat input n txs warns) = None ->
  Forall (fun ln => exists record,
              ln = csv.Fields record /\ Z.of_nat (length record) = n) input.
Proof.
  induction input as [|ln rest IH]; intros n txs warns Hn; simpl; [constructor|].
  assert (Hpos : (0 <? n) = true) by (apply Z.ltb_lt; exact Hn).
  destruct ln as [record|]; simpl; [|discriminate].
  rewrite Hpos.
  destruct (Z.of_nat (length record) =? n) eqn:Heq; simpl; [|discriminate].
  apply Z.eqb_eq in Heq. intros Hok.
  apply Forall_cons. split; [exists record; auto|].
  destruct (length record <? 4)%nat; [exact (IH _ _ _ Hn Hok)|].
  destruct (ParseFloat _); exact (IH _ _ _ Hn Hok).
Qed.

(** X14. Conversely, a file with a header loads without error only if
    every line after the header is well formed and has exactly as many
    fields as the header: one row of another length, shorter or longer,
    makes the whole load fail. *)
Theorem loaded_feed_is_uniform (fs : gmap string (list csv.line)) filePath header lines :
  fs !! filePath = Some (csv.Fields header :: lines) ->
  (0 < length header)%nat ->
  err (LoadExternalTransactions ParseFloat fs filePath) = None ->
  Forall (fun ln => exists record,
              ln = csv.Fields record /\ length record = length header) lines.
Proof.
  intros Hfile Hheader. unfold LoadExternalTransactions. rewrite Hfile.
  unfold loadFromReader, csv.NewReader, csv.Read. simpl. intros Hok.
  eapply Forall_impl;
    [apply (readRecords_success_uniform lines (Z.of_nat (length header)) nil_slice []);
     [lia|exact Hok]|].
  intros ln (record & -> & Hlen). exists record. split; [reflexivity|lia].
Qed.

End LoaderResults.

Lemma load_error_returns_nil_witness :
  transactions (LoadExternalTransactions sampleParseFloat sampleFiles "truncated.csv")
  = nil_slice.
Proof.
  apply (proj1 (load_error_returns_nil sampleParseFloat sampleFiles "truncated.csv"
                  (ErrorReadingRecord csv.ErrFieldCount))).
  vm_compute. reflexivity.
Defined.

Lemma uniform_feed_loads_witness :
  err (LoadExternalTransactions sampleParseFloat uniformFiles "feed.csv") = None
  /\ elems (transactions (LoadExternalTransactions sampleParseFloat uniformFiles "feed.csv"))
     = omap (parseRow sampleParseFloat) uniformRows
  /\ (length (elems (transactions
                       (LoadExternalTransactions sampleParseFloat uniformFiles "feed.csv")))
      + length (warnings (LoadExternalTransactions sampleParseFloat uniformFiles "feed.csv"))
      = length uniformRows)%nat.
Proof.
  apply (uniform_feed_loads sampleParseFloat uniformFiles "feed.csv" feedHeader uniformRows).
  - vm_compute. reflexivity.
  - simpl. lia.
  - repeat constructor.
Defined.

(** The three rows give two records and one warning. *)
Example load_uniform_feed :
  LoadExternalTransactions sampleParseFloat uniformFiles "feed.csv"
  = {| transactions :=
         make_slice
           [ {| ExternalTransaction.ExternalID := "E1";
                ExternalTransaction.Amount := 100%float;
                ExternalTransaction.Type_ := "DEPOSIT";
                ExternalTransaction.Reference := "salary" |};
             {| ExternalTransaction.ExternalID := "E3";
                ExternalTransaction.Amount := 25%float;
                ExternalTransaction.Type_ := "TRANSFER_IN";
                ExternalTransaction.Reference := "refund" |} ];
       err := None;
       warnings := [SkippingInvalidAmount "fifty"] |}.
Proof. vm_compute. reflexivity. Qed.

Lemma loaded_feed_is_uniform_witness :
  Forall (fun ln => exists record,
              ln = csv.Fields record /\ length record = length feedHeader)
         (map csv.Fields uniformRows).
Proof.
  apply (loaded_feed_is_uniform sampleParseFloat uniformFiles "feed.csv").
  - vm_compute. reflexivity.
  - simpl. lia.
  - vm_compute. reflexivity.
Defined.

(** *** The text of the loaded fields *)

Lemma TrimRight_idempotent s :
  strings.TrimRight (strings.TrimRight s) = strings.TrimRight s.
Proof.
  induction s as [|c s IH]; simpl; [reflexivity|].
  destruct (strings.TrimRight s) as [|d rest] eqn:Hs.
  - destruct (strings.isSpace c) eqn:Hc; simpl; [reflexivity|].
    rewrite Hc. reflexivity.
  - simpl in *. rewrite IH. reflexivity.
Qed.

Lemma TrimLeft_head s :
  strings.TrimLeft s = EmptyString
  \/ exists c rest, strings.TrimLeft s = String c rest /\ strings.isSpace c = false.
Proof.
  induction s as [|c s IH]; simpl; [left; reflexivity|].
  destruct (strings.isSpace c) eqn:Hc; [exact IH|].
  right. exists c, s. auto.
Qed.

Lemma TrimRight_head c rest :
  strings.isSpace c = false ->
  exists rest', strings.TrimRight (String c rest) = String c rest'.
Proof.
  intros Hc. simpl. destruct (strings.TrimRight rest) as [|d rest'].
  - rewrite Hc. eexists. reflexivity.
  - eexists. reflexivity.
Qed.

Lemma TrimSpace_idempotent s :
  strings.TrimSpace (strings.TrimSpace s) = strings.TrimSpace s.
Proof.
  unfold strings.TrimSpace.
  destruct (TrimLeft_head s) as [->|(c & rest & -> & Hc)]; [reflexivity|].
  destruct (TrimRight_head c rest Hc) as (rest' & Hright).
  rewrite Hright. simpl strings.TrimLeft. rewrite Hc.
  rewrite <- Hright. apply TrimRight_idempotent.
Qed.

Lemma TrimLeft_upper s :
  strings.ToUpper s = s -> strings.ToUpper (strings.TrimLeft s) = strings.TrimLeft s.
Proof.
  induction s as [|c s IH]; simpl; [reflexivity|].
  intros Hupper. injection Hupper as Hc Hs.
  destruct (strings.isSpace c); [exact (IH Hs)|].
  simpl. rewrite Hc, Hs. reflexivity.
Qed.

Lemma TrimRight_upper s :
  strings.ToUpper s = s -> strings.ToUpper (strings.TrimRight s) = strings.TrimRight s.
Proof.
  induction s as [|c s IH]; simpl; [reflexivity|].
  intros Hupper. injection Hupper as Hc Hs. specialize (IH Hs).
  destruct (strings.TrimRight s) as [|d rest].
  - destruct (strings.isSpace c); simpl; [reflexivity|]. rewrite Hc. reflexivity.
  - simpl in *. rewrite Hc, IH. reflexivity.
Qed.

Lemma TrimSpace_upper s :
  strings.ToUpper s = s -> strings.ToUpper (strings.TrimSpace s) = strings.TrimSpace s.
Proof.
  intros Hupper. unfold strings.TrimSpace.
  apply TrimRight_upper, TrimLeft_upper, Hupper.
Qed.

(** Trimming and indexing keep ASCII text ASCII. *)
Lemma TrimLeft_isASCII s :
  strings.isASCII s = true -> strings.isASCII (strings.TrimLeft s) = true.
Proof.
  induction s as [|c s IH]; simpl; [auto|].
  intros Hs. destruct (strings.isSpace c); [|exact Hs].
  apply andb_prop in Hs as [_ Hs]. exact (IH Hs).
Qed.

Lemma TrimRight_isASCII s :
  strings.isASCII s = true -> strings.isASCII (strings.TrimRight s) = true.
Proof.
  induction s as [|c s IH]; simpl; [auto|].
  intros Hs. apply andb_prop in Hs as [Hc Hs]. specialize (IH Hs).
  destruct (strings.TrimRight s) as [|d rest].
  - destruct (strings.isSpace c); simpl; [reflexivity|]. rewrite Hc. reflexivity.
  - simpl in *. rewrite Hc, IH. reflexivity.
Qed.

Lemma TrimSpace_isASCII s :
  strings.isASCII s = true -> strings.isASCII (strings.TrimSpace s) = true.
Proof. intros Hs. apply TrimRight_isASCII, TrimLeft_isASCII, Hs. Qed.

Lemma field_isASCII record i :
  forallb strings.isASCII record = true -> strings.isASCII (field record i) = true.
Proof.
  unfold field. revert i.
  induction record as [|s record IH]; intros i Hrecord; [destruct i; reflexivity|].
  simpl in Hrecord. apply andb_prop in Hrecord as [Hs Hrecord].
  destruct i as [|i]; [exact Hs|]. exact (IH i Hrecord).
Qed.

(** A record the loader builds from a row of ASCII fields. *)
Lemma parseRow_clean ParseFloat record csvTx :
  forallb strings.isASCII record = true ->
  parseRow ParseFloat record = Some csvTx ->
  Clean csvTx.
Proof.
  intros Hrecord. unfold parseRow. destruct (length record <? 4)%nat; [discriminate|].
  destruct (ParseFloat _); [|discriminate].
  intros [= <-]. unfold Clean. simpl.
  destruct (ToUpper_ascii _ (field_isASCII record 2 Hrecord)) as [Hupper Hidem].
  rewrite !TrimSpace_idempotent, (TrimSpace_upper _ Hidem).
  repeat apply conj; try reflexivity; apply TrimSpace_isASCII;
    try apply field_isASCII; assumption.
Qed.

Lemma readRecords_clean ParseFloat input :
  asciiFile input = true ->
  forall n txs warns,
    Forall Clean (elems txs) ->
    Forall Clean (elems (transactions (readRecords ParseFloat input n txs warns))).
Proof.
  induction input as [|ln rest IH]; intros Hinput n txs warns Htxs; simpl;
    [exact Htxs|].
  simpl in Hinput. apply andb_prop in Hinput as [Hln Hrest].
  assert (Hrecord : forall n' record e,
             csv.readRecord ln n = (n', record, e) ->
             forallb strings.isASCII record = true).
  { intros n' record e. unfold csv.readRecord. destruct ln as [dst|].
    - simpl in Hln.
      destruct (0 <? n); [destruct (negb _)|destruct (n =? 0)];
        intros [= _ <- _]; exact Hln.
    - intros [= _ <- _]. reflexivity. }
  destruct (csv.readRecord ln n) as [[n' record] [e|]] eqn:Hread; [constructor|].
  specialize (Hrecord _ _ _ eq_refl).
  destruct (length record <? 4)%nat eqn:Hshort; [apply IH; assumption|].
  destruct (ParseFloat (strings.TrimSpace (field record 1))) as [amount|] eqn:Hparse;
    [|apply IH; assumption].
  apply IH; [exact Hrest|]. simpl. apply Forall_app. split; [exact Htxs|].
  apply Forall_singleton. apply (parseRow_clean ParseFloat record _ Hrecord).
  unfold parseRow. rewrite Hshort, Hparse. reflexivity.
Qed.

(** X15. Every record either loader returns from a file of ASCII text is
    ASCII text again, has its identifier, type and reference free of
    white space at both ends and its type in upper case: the text the
    matcher compares is the trimmed, upper-cased text of the feed. *)
Theorem loaded_records_are_clean (ParseFloat : string -> option float)
        (fs : gmap string (list csv.line)) filePath file csvTx :
  fs !! filePath = Some file ->
  asciiFile file = true ->
  In csvTx (elems (transactions (LoadExternalTransactions ParseFloat fs filePath)))
  \/ In csvTx (elems (transactions (loadExternalTransactions ParseFloat fs filePath))) ->
  Clean csvTx.
Proof.
  intros Hfile Hascii.
  assert (Hreader :
            In csvTx (elems (transactions
                               (loadFromReader ParseFloat (csv.NewReader file)))) ->
            Clean csvTx).
  { unfold loadFromReader, csv.NewReader, csv.Read. simpl.
    destruct file as [|ln rest]; simpl; [intros []|].
    simpl in Hascii. apply andb_prop in Hascii as [_ Hrest].
    destruct ln as [header|]; simpl; [|intros []].
    intros Hin.
    pose proof (readRecords_clean ParseFloat rest Hrest
                  (Z.of_nat (length header)) nil_slice []
                  (Forall_nil_2 _)) as Hall.
    rewrite Forall_forall in Hall. apply Hall, list_elem_of_In, Hin. }
  unfold LoadExternalTransactions, loadExternalTransactions.
  rewrite Hfile. intros [Hin|Hin]; exact (Hreader Hin).
Qed.

Lemma loaded_records_are_clean_witness :
  Clean {| ExternalTransaction.ExternalID := "E3";
           ExternalTransaction.Amount := 25%float;
           ExternalTransaction.Type_ := "TRANSFER_IN";
           ExternalTransaction.Reference := "refund" |}.
Proof.
  apply (loaded_records_are_clean sampleParseFloat uniformFiles "feed.csv"
           (csv.Fields feedHeader :: map csv.Fields uniformRows)).
  - reflexivity.
  - reflexivity.
  - left. rewrite load_uniform_feed. right. left. reflexivity.
Defined.

(* ===================================================================== *)
(** ** The report and the callers *)
(* ===================================================================== *)




(** X17. The service ends without a report exactly when one of its two
    collaborators fails, the loader being asked first. It has then written
    the opening line and nothing else: no section and no closing line. *)
Theorem service_fatal_exits (fmt_d : Z -> string) (fmt_2f : float -> string)
        (s : service.reconciliationServiceImpl) (csvFilePath : string) :
  let run := service.ReconcileTransactions fmt_d fmt_2f s csvFilePath in
  let loaded := service.LoadExternalTransactions (service.dataLoader s) csvFilePath in
  let fetched := service.GetAllTransactionsForReconciliation (service.transactionRepo s) in
  (service.fatal run = None <-> err loaded = None /\ snd fetched = None)
  /\ (forall e, err loaded = Some e ->
        service.fatal run = Some (service.FailedToLoadExternalTransactions e))
  /\ (service.fatal run <> None ->
      service.stdout run = [newline +:+ "--- Reconciliation Report ---"]).
Proof.
  cbv zeta. unfold service.ReconcileTransactions.
  destruct (err (service.LoadExternalTransactions (service.dataLoader s) csvFilePath))
    as [e|]; simpl.
  - repeat split; try discriminate; try (intros [? ?]; discriminate).
    intros e' [= <-]. reflexivity.
  - destruct (service.GetAllTransactionsForReconciliation (service.transactionRepo s))
      as [databaseTransactions [e|]]; simpl.
    + repeat split; try discriminate; try (intros [? ?]; discriminate).
    + repeat split; try discriminate. intros H. contradiction.
Qed.


Lemma classify_no_records dbTxs :
  classify dbTxs []
  = {| matched := []; mismatchedAmount := []; onlyInDB := dbTxs; onlyInCSV := [] |}.
Proof.
  unfold classify. cbv zeta. rewrite matchLoop_empty_feed. simpl.
  rewrite filter_all by (intros x; rewrite index_empty; reflexivity).
  reflexivity.
Qed.

(** X19. Loader and matcher together: when the file is empty, or holds a
    header and nothing else, and the repository answers, the service
    reports every database transaction as only in the database, in the
    order of the repository, and "  None" in the three other sections. *)
Theorem reconcile_against_empty_file (fmt_d : Z -> string) (fmt_2f : float -> string)
        (ParseFloat : string -> option float) (fs : gmap string (list csv.line))
        (transactionRepo : service.TransactionRepository) csvFilePath
        (databaseTransactions : slice Transaction.t) :
  fs !! csvFilePath = Some [] \/ (exists header, fs !! csvFilePath = Some [csv.Fields header]) ->
  service.GetAllTransactionsForReconciliation transactionRepo
  = (databaseTransactions, None) ->
  service.ReconcileTransactions fmt_d fmt_2f
    (NewReconciliationService transactionRepo (NewCSVDataLoader ParseFloat fs))
    csvFilePath
  = {| service.stdout :=
         [newline +:+ "--- Reconciliation Report ---"]
         ++ concat (reportSections fmt_d fmt_2f
                      {| matched := []; mismatchedAmount := [];
                         onlyInDB := elems databaseTransactions; onlyInCSV := [] |})
         ++ [newline +:+ "--- End of Reconciliation Report ---"];
       service.fatal := None |}.
Proof.
  intros Hfile Hrepo.
  unfold service.ReconcileTransactions.
  unfold NewReconciliationService, NewCSVDataLoader.
  cbn [service.dataLoader service.transactionRepo service.LoadExternalTransactions].
  rewrite Hrepo. unfold LoadExternalTransactions.
  destruct Hfile as [->|[header ->]];
    cbn [loadFromReader csv.Read csv.NewReader csv.input csv.FieldsPerRecord
         csv.readRecord readRecords err transactions elems Z.ltb Z.eqb Z.compare];
    rewrite service_reportSections;
    change (service.classify (elems databaseTransactions) [])
      with (classify (elems databaseTransactions) []);
    rewrite classify_no_records; reflexivity.
Qed.

Lemma reconcile_against_empty_file_witness :
  service.ReconcileTransactions sample_fmt_d sample_fmt_2f
    (NewReconciliationService
       {| service.GetAllTransactionsForReconciliation := (make_slice ledgerSample, None) |}
       (NewCSVDataLoader sampleParseFloat sampleFiles))
    "header_only.csv"
  = {| service.stdout :=
         [newline +:+ "--- Reconciliation Report ---"]
         ++ concat (reportSections sample_fmt_d sample_fmt_2f
                      {| matched := []; mismatchedAmount := [];
                         onlyInDB := elems (make_slice ledgerSample); onlyInCSV := [] |})
         ++ [newline +:+ "--- End of Reconciliation Report ---"];
       service.fatal := None |}.
Proof.
  apply (reconcile_against_empty_file sample_fmt_d sample_fmt_2f sampleParseFloat
           sampleFiles _ "header_only.csv" (make_slice ledgerSample)).
  - right. exists feedHeader. vm_compute. reflexivity.
  - reflexivity.
Defined.

(** X20. Loader and service together: a file whose header has a field,
    and which holds both a row of four fields or more and a row of fewer
    than four, stops the service with a fatal load error after the opening
    line; no section of the report is written. *)
Theorem truncated_row_stops_reconciliation
        (fmt_d : Z -> string) (fmt_2f : float -> string)
        (ParseFloat : string -> option float) (fs : gmap string (list csv.line))
        (transactionRepo : service.TransactionRepository) csvFilePath
        header rows valid truncated :
  fs !! csvFilePath = Some (csv.Fields header :: rows) ->
  (0 < length header)%nat ->
  In (csv.Fields valid) rows ->
  In (csv.Fields truncated) rows ->
  (4 <= length valid)%nat ->
  (length truncated < 4)%nat ->
  exists e,
    service.ReconcileTransactions fmt_d fmt_2f
      (NewReconciliationService transactionRepo (NewCSVDataLoader ParseFloat fs))
      csvFilePath
    = {| service.stdout := [newline +:+ "--- Reconciliation Report ---"];
         service.fatal :=
           Some (service.FailedToLoadExternalTransactions (ErrorReadingRecord e)) |}.
Proof.
  intros Hfile Hheader Hvalid Htruncated H4 H3.
  destruct (truncated_row_is_fatal ParseFloat header rows valid truncated
              Hheader Hvalid Htruncated H4 H3) as (e & He & _).
  exists e. unfold service.ReconcileTransactions. simpl.
  unfold LoadExternalTransactions. rewrite Hfile, He. reflexivity.
Qed.

Lemma truncated_row_stops_reconciliation_witness :
  exists e,
    service.ReconcileTransactions sample_fmt_d sample_fmt_2f
      (NewReconciliationService
         {| service.GetAllTransactionsForReconciliation := (make_slice ledgerSample, None) |}
         (NewCSVDataLoader sampleParseFloat sampleFiles))
      "truncated.csv"
    = {| service.stdout := [newline +:+ "--- Reconciliation Report ---"];
         service.fatal :=
           Some (service.FailedToLoadExternalTransactions (ErrorReadingRecord e)) |}.
Proof.
  apply (truncated_row_stops_reconciliation sample_fmt_d sample_fmt_2f sampleParseFloat
           sampleFiles _ "truncated.csv" feedHeader (tl truncatedFeed)
           ["E1"; "100.00"; "DEPOSIT"; "salary"] ["E3"; "25.00"]).
  - vm_compute. reflexivity.
  - simpl. lia.
  - left. reflexivity.
  - right. right. left. reflexivity.
  - simpl. lia.
  - simpl. lia.
Defined.

(* ===================================================================== *)
(** ** Fund transfer: properties *)
(* ===================================================================== *)

(** Case analysis along the early returns of [TransferFunds]. *)
Ltac transfer_paths :=
  unfold crud.TransferFunds, crud.CreateTransactionWithNotes, crud.deferred;
  repeat match goal with
         | |- context [match ?x with _ => _ end] =>
             lazymatch x with
             | context [match _ with _ => _ end] => fail
             | _ => destruct x eqn:?
             end
         end;
  cbn [calls result app].

Ltac no_such_call :=
  let H := fresh in
  intros H; cbn [In app] in H;
  repeat (destruct H as [H|H]; [discriminate H|]);
  match type of H with False => destruct H end.

Ltac has_call := cbn [In app]; repeat first [left; reflexivity | right].

(** X21. [TransferFunds] makes no call on the database exactly when the
    two accounts are the same or [amount <= 0] holds. It then returns
    [ErrSameAccountTransfer] in the first case, whatever the amount, and
    [ErrInvalidTransferAmount] in the second. *)
Theorem transfer_guards (db : crud.Answers) (fromAccountID toAccountID : Z)
        (amount : float) (description notes : string) :
  let t := crud.TransferFunds db fromAccountID toAccountID amount description notes in
  (calls t = [] <-> fromAccountID = toAccountID \/ PrimFloat.leb amount 0 = true)
  /\ (fromAccountID = toAccountID -> result t = Some errors.ErrSameAccountTransfer)
  /\ (fromAccountID <> toAccountID -> PrimFloat.leb amount 0 = true ->
      result t = Some errors.ErrInvalidTransferAmount).
Proof.
  cbv zeta. transfer_paths;
    repeat match goal with
           | H : (_ =? _) = true |- _ => apply Z.eqb_eq in H
           | H : (_ =? _) = false |- _ => apply Z.eqb_neq in H
           end;
    repeat split; try congruence; try discriminate; auto;
    intros [?|?]; congruence.
Qed.

(** X22. A transfer returns nil exactly when it called [Commit] and the
    commit succeeded; a transfer that fails has committed nothing. And
    once the transaction is begun, the last call of every run is the
    deferred [Rollback]. *)
Theorem transfer_commits_iff_success (db : crud.Answers) (fromAccountID toAccountID : Z)
        (amount : float) (description notes : string) :
  let t := crud.TransferFunds db fromAccountID toAccountID amount description notes in
  (result t = None <-> In Commit (calls t) /\ crud.commit db = None)
  /\ (In Begin (calls t) -> crud.begin db = None -> last (calls t) = Some Rollback).
Proof.
  cbv zeta. transfer_paths; (split; [split|]);
    try discriminate; try reflexivity;
    try (intros [Hin Hcommit]; try congruence; exfalso; revert Hin; no_such_call);
    try (intros []; fail);
    try (intros _; split; [has_call|reflexivity]);
    try (intros _ Hbegin; congruence);
    try (intros _ _; reflexivity).
Qed.

(** X23. No statement is executed before the checks have passed: if a run
    of [TransferFunds] makes any [Exec] call, then the accounts differ,
    [amount <= 0] is false, the sender's row was found, is not deleted and
    its balance is not below the amount, and the receiver's row was found
    and is not deleted. *)
Theorem transfer_writes_after_checks (db : crud.Answers)
        (fromAccountID toAccountID : Z) (amount : float) (description notes : string)
        (query : string) (args : list Arg) :
  In (Exec query args)
     (calls (crud.TransferFunds db fromAccountID toAccountID amount description notes)) ->
  fromAccountID <> toAccountID
  /\ PrimFloat.leb amount 0 = false
  /\ crud.begin db = None
  /\ (exists fromBalance,
         crud.senderRow db = inr (fromBalance, false)
         /\ PrimFloat.ltb fromBalance amount = false)
  /\ crud.receiverRow db = inr false.
Proof.
  transfer_paths; try no_such_call;
    intros _;
    match goal with H : (_ =? _) = false |- _ => apply Z.eqb_neq in H end;
    repeat split; try assumption; try reflexivity; eauto.
Qed.

Lemma transfer_writes_after_checks_witness :
  1 <> 2
  /\ PrimFloat.leb 50.75%float 0 = false
  /\ crud.begin willingDatabase = None
  /\ (exists fromBalance,
         crud.senderRow willingDatabase = inr (fromBalance, false)
         /\ PrimFloat.ltb fromBalance 50.75%float = false)
  /\ crud.receiverRow willingDatabase = inr false.
Proof.
  apply (transfer_writes_after_checks willingDatabase 1 2 50.75%float
           "Payment for services" "Invoice #123"
           crud.updateDecrement [ArgFloat 50.75%float; ArgInt 1]).
  vm_compute. right. right. right. left. reflexivity.
Defined.

(** X24. A transfer that returns nil has made exactly these calls, in this
    order: begin, the two queries, the decrement of the sender by the
    amount, the increment of the receiver by the same amount, the insert
    of a TRANSFER row of that amount between the two accounts, whose
    description and notes are NULL exactly when the texts are empty, the
    read of the new identifier, the commit, and the deferred rollback. *)
Theorem transfer_success_calls (db : crud.Answers) (fromAccountID toAccountID : Z)
        (amount : float) (description notes : string) :
  result (crud.TransferFunds db fromAccountID toAccountID amount description notes)
  = None ->
  calls (crud.TransferFunds db fromAccountID toAccountID amount description notes)
  = [ Begin;
      QueryRow crud.selectSender [ArgInt fromAccountID];
      QueryRow crud.selectReceiver [ArgInt toAccountID];
      Exec crud.updateDecrement [ArgFloat amount; ArgInt fromAccountID];
      Exec crud.updateIncrement [ArgFloat amount; ArgInt toAccountID];
      Exec crud.insertWithNotes
        [ ArgNullInt {| sql.Int64 := fromAccountID; sql.Valid := true |};
          ArgNullInt {| sql.Int64 := toAccountID; sql.Valid := true |};
          ArgString "TRANSFER"; ArgFloat amount;
          ArgNullString {| sql.String_ := description;
                           sql.StringValid := negb (String.eqb description "") |};
          ArgNullString {| sql.String_ := notes;
                           sql.StringValid := negb (String.eqb notes "") |} ];
      LastInsertId; Commit; Rollback ].
Proof.
  transfer_paths; try discriminate. intros _. reflexivity.
Qed.

Lemma transfer_success_calls_witness :
  calls (crud.TransferFunds willingDatabase 1 2 50.75%float
           "Payment for services" "")
  = [ Begin;
      QueryRow crud.selectSender [ArgInt 1];
      QueryRow crud.selectReceiver [ArgInt 2];
      Exec crud.updateDecrement [ArgFloat 50.75%float; ArgInt 1];
      Exec crud.updateIncrement [ArgFloat 50.75%float; ArgInt 2];
      Exec crud.insertWithNotes
        [ ArgNullInt {| sql.Int64 := 1; sql.Valid := true |};
          ArgNullInt {| sql.Int64 := 2; sql.Valid := true |};
          ArgString "TRANSFER"; ArgFloat 50.75%float;
          ArgNullString {| sql.String_ := "Payment for services";
                           sql.StringValid :=
                             negb (String.eqb "Payment for services" "") |};
          ArgNullString {| sql.String_ := "";
                           sql.StringValid := negb (String.eqb "" "") |} ];
      LastInsertId; Commit; Rollback ].
Proof.
  apply (transfer_success_calls willingDatabase 1 2 50.75%float
           "Payment for services" "").
  vm_compute. reflexivity.
Defined.

(** X25. What the caller can tell from the error with [errors.Is]. The
    error is [ErrInsufficientFunds] exactly when the request passed the
    two guards, the transaction began, and the sender's row was found, not
    deleted, with a balance below the amount. It is [ErrAccountNotFound]
    exactly when, after the guards and the begin, the sender's row is
    missing, or the sender passed its checks and the receiver's row is
    missing. An error of the database is never taken for either. *)
Theorem transfer_error_kinds (db : crud.Answers) (fromAccountID toAccountID : Z)
        (amount : float) (description notes : string) (e : errors.error) :
  result (crud.TransferFunds db fromAccountID toAccountID amount description notes)
  = Some e ->
  (errors.Is e errors.ErrInsufficientFunds = true
   <-> fromAccountID <> toAccountID /\ PrimFloat.leb amount 0 = false
       /\ crud.begin db = None
       /\ exists fromBalance,
            crud.senderRow db = inr (fromBalance, false)
            /\ PrimFloat.ltb fromBalance amount = true)
  /\ (errors.Is e errors.ErrAccountNotFound = true
      <-> fromAccountID <> toAccountID /\ PrimFloat.leb amount 0 = false
          /\ crud.begin db = None
          /\ (crud.senderRow db = inl NoRows
              \/ (exists fromBalance,
                     crud.senderRow db = inr (fromBalance, false)
                     /\ PrimFloat.ltb fromBalance amount = false)
                 /\ crud.receiverRow db = inl NoRows)).
Proof.
  transfer_paths; intros [= <-];
    repeat match goal with
           | H : (_ =? _) = true |- _ => apply Z.eqb_eq in H
           | H : (_ =? _) = false |- _ => apply Z.eqb_neq in H
           | d : dbError |- _ => destruct d
           end;
    cbn [errors.Is errors.same fromDB];
    (split; (split;
     [ try discriminate;
       intros _; repeat split; try assumption; try reflexivity; eauto
     | try reflexivity;
       intros (Hne & Hle & Hbegin & Hrows); exfalso;
       try congruence;
       repeat match goal with
              | H : exists _, _ |- _ => destruct H as (? & ? & ?)
              | H : _ \/ _ |- _ => destruct H
              | H : _ /\ _ |- _ => destruct H
              end;
       congruence ])).
Qed.

Lemma transfer_error_kinds_witness :
  let e :=
    errors.wrapError "TransferFunds: sender %w (ID: %d, Balance: %.2f, Amount: %.2f)"
      [errors.Int 1; errors.Float 20%float; errors.Float 50.75%float]
      errors.ErrInsufficientFunds in
  (errors.Is e errors.ErrInsufficientFunds = true
   <-> 1 <> 2 /\ PrimFloat.leb 50.75%float 0 = false
       /\ crud.begin poorSender = None
       /\ exists fromBalance,
            crud.senderRow poorSender = inr (fromBalance, false)
            /\ PrimFloat.ltb fromBalance 50.75%float = true)
  /\ (errors.Is e errors.ErrAccountNotFound = true
      <-> 1 <> 2 /\ PrimFloat.leb 50.75%float 0 = false
          /\ crud.begin poorSender = None
          /\ (crud.senderRow poorSender = inl NoRows
              \/ (exists fromBalance,
                     crud.senderRow poorSender = inr (fromBalance, false)
                     /\ PrimFloat.ltb fromBalance 50.75%float = false)
                 /\ crud.receiverRow poorSender = inl NoRows)).
Proof.
  cbv zeta.
  apply (transfer_error_kinds poorSender 1 2 50.75%float "Payment for services"
           "Invoice #123").
  vm_compute. reflexivity.
Defined.

(** No float is below NaN, and NaN is not [<= 0]. *)
Lemma nothing_below_nan (x : float) : PrimFloat.ltb x nan = false.
Proof.
  rewrite ltb_spec. replace (Prim2SF nan) with S754_nan by reflexivity.
  unfold SFltb, SFcompare. destruct (Prim2SF x) as [| | |[] ? ?]; reflexivity.
Qed.

(** X26. The guards let NaN through. For two different accounts that exist
    and are active, whatever the balance of the sender, a transfer of NaN
    passes the test on the amount and the test on the balance; if the
    database accepts the statements it is committed, with NaN as the
    amount of both updates. *)
Theorem transfer_of_nan_is_committed (db : crud.Answers)
        (fromAccountID toAccountID : Z) (description notes : string)
        (fromBalance : float) (id : Z) :
  fromAccountID <> toAccountID ->
  crud.begin db = None ->
  crud.senderRow db = inr (fromBalance, false) ->
  crud.receiverRow db = inr false ->
  crud.decrement db = None ->
  crud.increment db = None ->
  crud.insert db = None ->
  crud.lastInsertId db = inr id ->
  crud.commit db = None ->
  let t := crud.TransferFunds db fromAccountID toAccountID nan description notes in
  result t = None
  /\ In (Exec crud.updateDecrement [ArgFloat nan; ArgInt fromAccountID]) (calls t)
  /\ In (Exec crud.updateIncrement [ArgFloat nan; ArgInt toAccountID]) (calls t).
Proof.
  intros Hne Hbegin Hsender Hreceiver Hdec Hinc Hinsert Hid Hcommit. cbv zeta.
  apply Z.eqb_neq in Hne.
  unfold crud.TransferFunds, crud.CreateTransactionWithNotes, crud.deferred.
  rewrite Hne, Hbegin, Hsender, Hreceiver, Hdec, Hinc, Hinsert, Hid, Hcommit.
  replace (PrimFloat.leb nan 0) with false by reflexivity.
  rewrite nothing_below_nan. cbn [calls result].
  repeat split; has_call.
Qed.

Lemma transfer_of_nan_is_committed_witness :
  let t := crud.TransferFunds willingDatabase 1 2 nan "" "" in
  result t = None
  /\ In (Exec crud.updateDecrement [ArgFloat nan; ArgInt 1]) (calls t)
  /\ In (Exec crud.updateIncrement [ArgFloat nan; ArgInt 2]) (calls t).
Proof.
  apply (transfer_of_nan_is_committed willingDatabase 1 2 "" "" 500%float 42);
    solve [reflexivity | discriminate].
Defined.

(* ===================================================================== *)
(** ** The transaction service *)
(* ===================================================================== *)

(** X27. With the MySQL account repository behind it, the service does not
    recognise a missing account. When the sender's row is missing, the
    repository returns an error that wraps nothing, [errors.Is] does not
    find [sql.ErrNoRows] in it, and the service returns "failed to get
    sender account", which is not [ErrAccountNotFound] for [errors.Is];
    and the same for a missing receiver once the sender has passed its
    checks. *)
Theorem service_misses_account_not_found (s : transactionService.Repositories)
        (fromAccountID toAccountID : Z) (amount : float) (description notes : string)
        (e : errors.error) :
  fromAccountID <> toAccountID ->
  PrimFloat.leb amount 0 = false ->
  transactionService.getSender s
  = mysqlAccountRepository.GetAccountByID (inl NoRows) fromAccountID
  \/ ((exists fromAccount,
          transactionService.getSender s = (fromAccount, None)
          /\ Account.IsDeleted fromAccount = false
          /\ PrimFloat.ltb (Account.Balance fromAccount) amount = false)
      /\ transactionService.getReceiver s
         = mysqlAccountRepository.GetAccountByID (inl NoRows) toAccountID) ->
  transactionService.returned
    (transactionService.TransferFunds s fromAccountID toAccountID amount description notes)
  = Some e ->
  errors.Is e errors.ErrAccountNotFound = false
  /\ exists format id inner, e = errors.wrapError format [errors.Int id]
                                   (errors.errorString inner [errors.Int id]).
Proof.
  intros Hne Hamount Hmissing. apply Z.eqb_neq in Hne.
  unfold transactionService.TransferFunds. rewrite Hne, Hamount.
  destruct Hmissing as [Hsender|[(fromAccount & Hsender & Hactive & Hfunds) Hreceiver]].
  - rewrite Hsender. simpl. intros [= <-]. split; [reflexivity|eauto].
  - rewrite Hsender, Hactive, Hfunds, Hreceiver. simpl.
    intros [= <-]. split; [reflexivity|eauto].
Qed.

Lemma service_misses_account_not_found_witness :
  let e :=
    errors.wrapError "TransferFunds: failed to get sender account (ID: %d): %w"
      [errors.Int 9]
      (errors.errorString "GetAccountByID: no active account found with ID %d"
                          [errors.Int 9]) in
  errors.Is e errors.ErrAccountNotFound = false
  /\ exists format id inner, e = errors.wrapError format [errors.Int id]
                                   (errors.errorString inner [errors.Int id]).
Proof.
  cbv zeta.
  apply (service_misses_account_not_found
           {| transactionService.getSender :=
                mysqlAccountRepository.GetAccountByID (inl NoRows) 9;
              transactionService.getReceiver := transactionService.getReceiver failingCredit;
              transactionService.adjustSender := (1, None);
              transactionService.adjustReceiver := (1, None);
              transactionService.createTransaction := (7, None) |}
           9 2 50.75%float "" "").
  - discriminate.
  - reflexivity.
  - left. reflexivity.
  - reflexivity.
Defined.

(** X28. The service has no transaction around its steps. When the
    decrement of the sender has gone through and a later step fails, the
    service returns the error of that step having made no call after it:
    its calls are the two reads, the decrement of the sender by the
    amount, the increment of the receiver and, if that succeeded, the
    insert, and none of them takes the decrement back. *)
Theorem service_failure_keeps_decrement (s : transactionService.Repositories)
        (fromAccountID toAccountID : Z) (amount : float) (description notes : string) :
  let run :=
    transactionService.TransferFunds s fromAccountID toAccountID amount description notes in
  In (transactionService.AdjustAccountBalance fromAccountID (PrimFloat.opp amount))
     (transactionService.repoCalls run) ->
  snd (transactionService.adjustSender s) = None ->
  transactionService.returned run <> None ->
  exists rest,
    transactionService.repoCalls run
    = [ transactionService.GetAccountByID fromAccountID;
        transactionService.GetAccountByID toAccountID;
        transactionService.AdjustAccountBalance fromAccountID (PrimFloat.opp amount);
        transactionService.AdjustAccountBalance toAccountID amount ] ++ rest
    /\ (rest = []
        \/ exists fromID toID txType logged sqlDescription sqlNotes,
             rest = [transactionService.CreateTransactionWithNotes
                       fromID toID txType logged sqlDescription sqlNotes]).
Proof.
  cbv zeta. unfold transactionService.TransferFunds.
  repeat match goal with
         | |- context [match ?x with _ => _ end] =>
             lazymatch x with
             | context [match _ with _ => _ end] => fail
             | _ => destruct x eqn:?
             end
         end;
    cbn [transactionService.repoCalls transactionService.returned snd];
    try no_such_call; intros _ Hdec Hfailed; try discriminate Hdec;
    try (exfalso; apply Hfailed; reflexivity).
  - exists []. split; [reflexivity|left; reflexivity].
  - eexists. split; [reflexivity|]. right. repeat eexists.
Qed.

Lemma service_failure_keeps_decrement_witness :
  exists rest,
    transactionService.repoCalls
      (transactionService.TransferFunds failingCredit 1 2 50.75%float "" "")
    = [ transactionService.GetAccountByID 1;
        transactionService.GetAccountByID 2;
        transactionService.AdjustAccountBalance 1 (PrimFloat.opp 50.75%float);
        transactionService.AdjustAccountBalance 2 50.75%float ] ++ rest
    /\ (rest = []
        \/ exists fromID toID txType logged sqlDescription sqlNotes,
             rest = [transactionService.CreateTransactionWithNotes
                       fromID toID txType logged sqlDescription sqlNotes]).
Proof.
  apply (service_failure_keeps_decrement failingCredit 1 2 50.75%float "" "").
  - vm_compute. right. right. left. reflexivity.
  - reflexivity.
  - vm_compute. discriminate.
Defined.

(* ===================================================================== *)
(** ** The repository query behind the ledger sequence *)
(* ===================================================================== *)

Lemma scanAll_result rows : forall transactions,
  (snd (mysqlTransactionRepository.scanAll rows transactions) = None
   <-> Forall (fun row => exists tx, row = inr tx) rows)
  /\ (snd (mysqlTransactionRepository.scanAll rows transactions) = None ->
      exists txs,
        rows = map inr txs
        /\ elems (fst (mysqlTransactionRepository.scanAll rows transactions))
           = elems transactions ++ txs
        /\ (txs = [] ->
            fst (mysqlTransactionRepository.scanAll rows transactions) = transactions)
        /\ (txs <> [] ->
            is_nil (fst (mysqlTransactionRepository.scanAll rows transactions)) = false)).
Proof.
  induction rows as [|row rows IH]; intros transactions; simpl.
  - split; [split; [constructor|reflexivity]|].
    intros _. exists []. rewrite app_nil_r. repeat split. intros H. contradiction.
  - destruct row as [e|tx]; simpl.
    + split; [split; [discriminate|]|discriminate].
      intros Hall. apply Forall_cons in Hall as [[tx Htx] _]. discriminate Htx.
    + destruct (IH (append transactions tx)) as [Hiff Hok]. split.
      * rewrite Hiff. split; intros Hall.
        -- apply Forall_cons. split; [eauto|exact Hall].
        -- apply Forall_cons in Hall as [_ Hall]. exact Hall.
      * intros Hnone. destruct (Hok Hnone) as (txs & -> & Helems & Hempty & Hfull).
        exists (tx :: txs). repeat split.
        -- rewrite Helems. simpl. rewrite <- app_assoc. reflexivity.
        -- discriminate.
        -- intros _. destruct txs as [|tx' txs].
           ++ rewrite (Hempty eq_refl). reflexivity.
           ++ apply Hfull. discriminate.
Qed.

(** X29. The query that supplies the ledger sequence returns all or
    nothing. It returns no error exactly when the query, every scan and
    the iteration succeed; it then returns every row the cursor yielded,
    in cursor order, as a nil slice when there was no row; and whenever it
    returns an error the slice is nil, whatever was scanned before. *)
Theorem repository_returns_all_or_nothing (query : dbError + mysqlTransactionRepository.Rows) :
  let returned := mysqlTransactionRepository.GetAllTransactionsForReconciliation query in
  (snd returned = None
   <-> exists rows txs,
         query = inr rows
         /\ mysqlTransactionRepository.scanned rows = map inr txs
         /\ mysqlTransactionRepository.iterationErr rows = None
         /\ elems (fst returned) = txs
         /\ is_nil (fst returned) = match txs with [] => true | _ => false end)
  /\ (snd returned <> None -> fst returned = nil_slice).
Proof.
  cbv zeta. unfold mysqlTransactionRepository.GetAllTransactionsForReconciliation.
  destruct query as [e|rows].
  { split; [split; [discriminate|intros (? & ? & H & _); discriminate H]|reflexivity]. }
  destruct (scanAll_result (mysqlTransactionRepository.scanned rows) nil_slice)
    as [Hiff Hok].
  destruct (mysqlTransactionRepository.scanAll
              (mysqlTransactionRepository.scanned rows) nil_slice)
    as [transactions [e|]] eqn:Hscan; simpl in *.
  - split; [split; [discriminate|]|reflexivity].
    intros (rows' & txs & [= <-] & Hrows & _).
    assert (Hnone : Some e = None); [|discriminate Hnone].
    apply Hiff. rewrite Hrows. apply Forall_forall.
    intros row Hrow. apply list_elem_of_In, in_map_iff in Hrow as (tx & <- & _). eauto.
  - destruct (Hok eq_refl) as (txs & Hrows & Helems & Hempty & Hfull). simpl in Helems.
    destruct (mysqlTransactionRepository.iterationErr rows) as [e|] eqn:Hiter; simpl.
    + split; [split; [discriminate|]|reflexivity].
      intros (rows' & txs' & [= <-] & _ & Habsurd & _). congruence.
    + split; [|intros H; contradiction].
      split; [|reflexivity].
      intros _. exists rows, txs. repeat split; try assumption.
      destruct txs as [|tx txs].
      * rewrite (Hempty eq_refl). reflexivity.
      * apply Hfull. discriminate.
Qed.
